(** * Money computations and invoice status logic of the invoicing front end

    A shallow embedding of the business rules scattered over the page
    components:

    - [NewFinalInvoice]: creation of a final invoice
      (src/pages/invoices/NewFinalInvoice.tsx);
    - [ProformaDetail]: totals, item updates and the convert button of the
      proforma detail page;
    - [FinalInvoiceDetail]: payment summary, displayed status, action
      buttons and status updates of the final invoice detail page;
    - [PaymentForm]: the amount field and the schema of the payment form;
    - [Binary64] and [AmountField]: the amount field again, on IEEE-754
      doubles;
    - [Ledger] and [Conversion]: the datastore operations whose code is not
      among the sources, written after the specification.

    JavaScript numbers are modelled as exact rationals ([Q]): sums,
    products, comparisons, [Math.max] and [Math.round] are the exact
    operations; the rounding error of IEEE doubles is not modelled, and
    [NaN] appears only as the [None] of an unparsable entry.  The one
    place where the rounding of doubles decides the outcome, the cent that
    the amount field of the payment form records, is modelled a second
    time on doubles ([Binary64], [AmountField]).  Statuses,
    payment types and identifiers are strings, as in the source.  An
    optional property ([amount_paid?: number]) is an [option]. *)

From Stdlib Require Import QArith Qround Qminmax Qabs Qpower Lqa ZArith Lia.
From Stdlib Require Import Bool List String Ascii.
From Stdlib Require Import NArith DecimalString.
Import ListNotations.

Local Open Scope string_scope.
Local Open Scope Q_scope.

(** ** JavaScript primitives used by the pages *)

Module JS.

Definition number := Q.

(** [x > y], [x >= y] and [x <= y] on numbers. *)
Definition gt (x y : number) : bool := negb (Qle_bool x y).
Definition ge (x y : number) : bool := Qle_bool y x.
Definition le (x y : number) : bool := Qle_bool x y.

(** Truthiness of a number: every number but zero. *)
Definition truthy (x : number) : bool := negb (Qeq_bool x 0).

(** [x || 0]. *)
Definition or0 (x : number) : number := if truthy x then x else 0.

(** Truthiness of an optional number property: [undefined] and [0] are
    falsy. *)
Definition truthy_opt (x : option number) : bool :=
  match x with
  | Some v => truthy v
  | None => false
  end.

(** Truthiness of a string: every string but the empty one. *)
Definition truthy_str (s : string) : bool :=
  match s with
  | EmptyString => false
  | String _ _ => true
  end.

(** Truthiness of an optional string property. *)
Definition truthy_ostr (s : option string) : bool :=
  match s with
  | Some v => truthy_str v
  | None => false
  end.

(** [s || d] for an optional string [s]. *)
Definition str_or (s : option string) (d : string) : string :=
  match s with
  | Some v => if truthy_str v then v else d
  | None => d
  end.

(** [Math.round]: the nearest integer, ties towards plus infinity. *)
Definition Math_round (x : number) : number :=
  inject_Z (Qfloor (x + (1 # 2))).

(** [Math.max] of two numbers. *)
Definition Math_max (x y : number) : number := Qmax x y.

End JS.

(** ** Domain types (src/types/index.ts) *)

Module Product.
Record t := mk {
  id : string;
  code : string;
  name : string;
  description : string;
  unitprice : JS.number;
  taxrate : JS.number;
  stockquantity : JS.number;
  unit : string;
  createdAt : string;
  updatedAt : string
}.
End Product.

Module InvoiceItem.
Record t := mk {
  id : string;
  productId : string;
  product : option Product.t;
  quantity : JS.number;
  unitprice : JS.number;
  taxrate : JS.number;
  discount : JS.number;
  totalExcl : JS.number;
  totalTax : JS.number;
  total : JS.number;
  unit : option string
}.
End InvoiceItem.

Module InvoicePayment.
Record t := mk {
  id : string;
  invoiceId : string;
  amount : JS.number;
  payment_date : string;
  paymentMethod : string;
  reference : string;
  notes : option string;
  createdAt : string
}.
End InvoicePayment.

(** The [client?: Client] object of [BaseInvoice] is only displayed and is
    left out; the invoice refers to its client by [clientid]. *)
Module ProformaInvoice.
Record t := mk {
  id : string;
  number : string;
  clientid : string;
  issuedate : string;
  duedate : string;
  items : list InvoiceItem.t;
  notes : string;
  subtotal : JS.number;
  taxTotal : JS.number;
  total : JS.number;
  createdAt : string;
  updatedAt : string;
  created_by_userid : string;
  status : string;
  finalInvoiceId : option string;
  payment_type : option string;
  stamp_tax : option JS.number;
  bc : option string
}.
End ProformaInvoice.

(** A final invoice row.  [payment_date] is the property of the
    [FinalInvoice] interface; [paymentdate] is the key the detail page
    writes when it reverts an invoice. *)
Module FinalInvoice.
Record t := mk {
  id : string;
  number : string;
  clientid : string;
  issuedate : string;
  duedate : option string;
  items : list InvoiceItem.t;
  notes : string;
  subtotal : JS.number;
  taxTotal : JS.number;
  total : JS.number;
  createdAt : string;
  updatedAt : string;
  created_by_userid : string;
  status : string;
  proformaId : option string;
  payment_date : option string;
  paymentdate : option string;
  paymentreference : option string;
  bc : option string;
  payment_type : option string;
  stamp_tax : option JS.number;
  amount_paid : option JS.number;
  client_debt : option JS.number
}.
End FinalInvoice.

(** [products.find(p => p.id === productId)]. *)
Definition find_product (products : list Product.t) (productId : string)
  : option Product.t :=
  List.find (fun p => String.eqb (Product.id p) productId) products.

(** [items.reduce((sum, item) => sum + f(item), 0)]. *)
Definition reduce_sum {A : Type} (f : A -> JS.number) (l : list A) : JS.number :=
  fold_left (fun sum x => sum + f x) l 0.

(** ** Creation of a final invoice (src/pages/invoices/NewFinalInvoice.tsx) *)

Module NewFinalInvoice.

(** An entry of [invoiceItemSchema]. *)
Record FormItem := mkFormItem {
  id : string;
  productId : string;
  quantity : JS.number;
  unitprice : JS.number;
  taxrate : JS.number;
  discount : JS.number
}.

(** [FormData], the value of [finalInvoiceSchema]. *)
Record FormData := mkFormData {
  clientid : string;
  issuedate : string;
  notes : option string;
  items : list FormItem;
  payment_type : option string;
  bc : option string
}.

(** What the mutation reads from its surroundings: the answer of the
    [generate_invoice_number] database function ([None] when the call
    reports an error or throws), the clock, the identifier generator
    (one fresh identifier per position) and the signed-in user. *)
Record Env := mkEnv {
  generate_invoice_number : option string;
  Date_now : string;
  now_iso : string;
  today : string;
  uuidv4 : nat -> string;
  invoice_uuid : string;
  user_id : option string
}.

Definition calculateStampTax (paymentType : string) (subtotal : JS.number)
  : JS.number :=
  if negb (String.eqb paymentType "cash") then 0
  else if JS.gt subtotal 100000 then subtotal * 0.02
  else if JS.gt subtotal 30000 then subtotal * 0.015
  else if JS.gt subtotal 300 then subtotal * 0.01
  else 0.

(** The body of [data.items.map(item => ...)] in [createInvoiceMutation];
    [fresh] is the identifier [uuidv4()] would return for this item. *)
Definition calculatedItem (products : list Product.t) (fresh : string)
    (item : FormItem) : InvoiceItem.t :=
  let product := find_product products (productId item) in
  let totalExcl := quantity item * unitprice item * (1 - discount item / 100) in
  let totalTax := totalExcl * (taxrate item / 100) in
  let total := totalExcl + totalTax in
  {| InvoiceItem.id := if JS.truthy_str (id item) then id item else fresh;
     InvoiceItem.productId := productId item;
     InvoiceItem.quantity := quantity item;
     InvoiceItem.unitprice := unitprice item;
     InvoiceItem.taxrate := taxrate item;
     InvoiceItem.discount := discount item;
     InvoiceItem.product := product;
     InvoiceItem.totalExcl := totalExcl;
     InvoiceItem.totalTax := totalTax;
     InvoiceItem.total := total;
     InvoiceItem.unit :=
       Some (JS.str_or (option_map Product.unit product) "Unit") |}.

Fixpoint calculatedItems_from (env : Env) (products : list Product.t)
    (k : nat) (l : list FormItem) : list InvoiceItem.t :=
  match l with
  | [] => []
  | item :: rest =>
      calculatedItem products (uuidv4 env k) item
        :: calculatedItems_from env products (S k) rest
  end.

Definition calculatedItems (env : Env) (products : list Product.t)
    (data : FormData) : list InvoiceItem.t :=
  calculatedItems_from env products 0 (items data).

(** The invoice number: the generated one, or the timestamp fallback. *)
Definition invoiceNumber (env : Env) : string :=
  match generate_invoice_number env with
  | Some generatedNumber =>
      (" " ++ generatedNumber ++ " (facture D'avoir)")%string
  | None => (" FIN-" ++ Date_now env ++ " (facture D'avoir)")%string
  end.

(** [invoiceData], the row [createInvoiceMutation] hands to
    [createFinalInvoice]. *)
Definition invoiceData (env : Env) (products : list Product.t)
    (data : FormData) : FinalInvoice.t :=
  let calculatedItems := calculatedItems env products data in
  let subtotal := reduce_sum InvoiceItem.totalExcl calculatedItems in
  let taxTotal := reduce_sum InvoiceItem.totalTax calculatedItems in
  let stampTax := calculateStampTax (JS.str_or (payment_type data) "") subtotal in
  let total := subtotal + taxTotal + stampTax in
  {| FinalInvoice.id := invoice_uuid env;
     FinalInvoice.number := invoiceNumber env;
     FinalInvoice.clientid := clientid data;
     FinalInvoice.issuedate := issuedate data;
     FinalInvoice.duedate := None;
     FinalInvoice.notes := JS.str_or (notes data) "";
     FinalInvoice.subtotal := subtotal;
     FinalInvoice.taxTotal := taxTotal;
     FinalInvoice.total := total;
     FinalInvoice.status := "NonPayé";
     FinalInvoice.created_by_userid := JS.str_or (user_id env) "";
     FinalInvoice.createdAt := now_iso env;
     FinalInvoice.updatedAt := now_iso env;
     FinalInvoice.proformaId := None;
     FinalInvoice.payment_date := None;
     FinalInvoice.paymentdate := None;
     FinalInvoice.paymentreference := None;
     FinalInvoice.payment_type := payment_type data;
     FinalInvoice.stamp_tax := Some stampTax;
     FinalInvoice.bc := bc data;
     FinalInvoice.amount_paid := Some 0;
     FinalInvoice.client_debt := Some total;
     FinalInvoice.items := calculatedItems |}.

(** The form as [form.reset] fills it from [sourceProforma] when the page
    is opened with a [proformaId]. *)
Fixpoint itemsFromProforma (env : Env) (k : nat) (l : list InvoiceItem.t)
  : list FormItem :=
  match l with
  | [] => []
  | item :: rest =>
      {| id := uuidv4 env k;
         productId := InvoiceItem.productId item;
         quantity := InvoiceItem.quantity item;
         unitprice := InvoiceItem.unitprice item;
         taxrate := InvoiceItem.taxrate item;
         discount := InvoiceItem.discount item |}
        :: itemsFromProforma env (S k) rest
  end.

Definition formFromProforma (env : Env) (sourceProforma : ProformaInvoice.t)
  : FormData :=
  {| clientid := ProformaInvoice.clientid sourceProforma;
     issuedate := today env;
     notes := Some (ProformaInvoice.notes sourceProforma);
     items := itemsFromProforma env 0 (ProformaInvoice.items sourceProforma);
     payment_type :=
       Some (JS.str_or (ProformaInvoice.payment_type sourceProforma) "");
     bc := Some (JS.str_or (ProformaInvoice.bc sourceProforma) "") |}.

(** *** The form's schema and its live totals *)

(** [invoiceItemSchema]: the items the resolver lets through. *)
Definition item_accepted (item : FormItem) : bool :=
  JS.truthy_str (productId item)
  && JS.ge (quantity item) 1
  && JS.ge (unitprice item) 0
  && JS.ge (taxrate item) 0 && JS.le (taxrate item) 100
  && JS.ge (discount item) 0 && JS.le (discount item) 100.

(** [finalInvoiceSchema]: a client, an issue date and at least one item,
    each accepted. *)
Definition form_accepted (data : FormData) : bool :=
  JS.truthy_str (clientid data)
  && JS.truthy_str (issuedate data)
  && negb (Nat.eqb (List.length (items data)) 0)
  && forallb item_accepted (items data).

(** [addItem]: the row [append] adds; [fresh] is its [uuidv4()]. *)
Definition addItem (fresh : string) (items : list FormItem) : list FormItem :=
  items ++ [ {| id := fresh; productId := ""; quantity := 1; unitprice := 0;
                taxrate := 19; discount := 0 |} ].

(** [calculateItemTotal], the amount shown at the end of a row. *)
Definition calculateItemTotal (products : list Product.t) (item : FormItem)
  : JS.number :=
  match find_product products (productId item) with
  | None => 0
  | Some _ =>
      let totalExcl :=
        quantity item * unitprice item * (1 - discount item / 100) in
      let totalTax := totalExcl * (taxrate item / 100) in
      totalExcl + totalTax
  end.

(** [calculateStampTax] on the watched payment type, which is [undefined]
    until one is chosen; [undefined !== "cash"]. *)
Definition calculateStampTax_watched (paymentType : option string)
    (subtotal : JS.number) : JS.number :=
  match paymentType with
  | Some paymentType => calculateStampTax paymentType subtotal
  | None => 0
  end.

Record Totals := mkTotals {
  subtotal : JS.number;
  taxTotal : JS.number;
  stampTax : JS.number;
  total : JS.number
}.

(** [calculateTotals], evaluated at every render on the watched items and
    payment type. *)
Definition calculateTotals (items : list FormItem) (paymentType : option string)
  : Totals :=
  let subtotal :=
    fold_left
      (fun sum item =>
         let totalExcl :=
           quantity item * unitprice item * (1 - discount item / 100) in
         sum + totalExcl)
      items 0 in
  let taxTotal :=
    fold_left
      (fun sum item =>
         let totalExcl :=
           quantity item * unitprice item * (1 - discount item / 100) in
         let tax := totalExcl * (taxrate item / 100) in
         sum + tax)
      items 0 in
  let stampTax := calculateStampTax_watched paymentType subtotal in
  let total := subtotal + taxTotal + stampTax in
  {| subtotal := subtotal; taxTotal := taxTotal; stampTax := stampTax;
     total := total |}.

End NewFinalInvoice.

(** ** The proforma detail page *)

Module ProformaDetail.

Definition calculateStampTax (paymentType : string) (subtotal : JS.number)
  : JS.number :=
  if negb (String.eqb paymentType "cash") then 0
  else if JS.gt subtotal 100000 then subtotal * 0.02
  else if JS.gt subtotal 30000 then subtotal * 0.015
  else if JS.gt subtotal 300 then subtotal * 0.01
  else 0.

Record Totals := mkTotals {
  totaldiscount : JS.number;
  subtotal : JS.number;
  taxTotal : JS.number;
  stampTax : JS.number;
  total : JS.number
}.

(** One round of the [items.forEach] loop of [calculateTotals]: the
    accumulators are [(subtotal, taxTotal, totalDiscount)]. *)
Definition calculateTotals_step (acc : JS.number * JS.number * JS.number)
    (item : InvoiceItem.t) : JS.number * JS.number * JS.number :=
  let '(subtotal, taxTotal, totalDiscount) := acc in
  if negb (JS.truthy_str (InvoiceItem.productId item)) then acc
  else
    let quantity := JS.or0 (InvoiceItem.quantity item) in
    let unitprice := JS.or0 (InvoiceItem.unitprice item) in
    let taxrate := JS.or0 (InvoiceItem.taxrate item) in
    let discount := JS.or0 (InvoiceItem.discount item) in
    let totalDiscount := totalDiscount + discount in
    let itemSubtotal := (quantity * unitprice) - discount in
    let itemTax := itemSubtotal * (taxrate / 100) in
    (subtotal + itemSubtotal, taxTotal + itemTax, totalDiscount).

Definition calculateTotals (items : list InvoiceItem.t) (paymentType : string)
  : Totals :=
  let '(subtotal, taxTotal, totalDiscount) :=
    fold_left calculateTotals_step items (0, 0, 0) in
  let stampTax := calculateStampTax paymentType subtotal in
  let total := subtotal + taxTotal + stampTax in
  {| totaldiscount := totalDiscount; subtotal := subtotal;
     taxTotal := taxTotal; stampTax := stampTax; total := total |}.

(** The item [updateItemProduct] stores at [items[index]] once the
    product is found. *)
Definition updateItemProduct_item (item : InvoiceItem.t) (productId : string)
    (product : Product.t) : InvoiceItem.t :=
  let q := InvoiceItem.quantity item in
  let d := JS.or0 (InvoiceItem.discount item) in
  {| InvoiceItem.id := InvoiceItem.id item;
     InvoiceItem.productId := productId;
     InvoiceItem.quantity := q;
     InvoiceItem.unitprice := Product.unitprice product;
     InvoiceItem.unit := Some (Product.unit product);
     InvoiceItem.taxrate := Product.taxrate product;
     InvoiceItem.discount := InvoiceItem.discount item;
     InvoiceItem.product := Some product;
     InvoiceItem.totalExcl := q * Product.unitprice product * (1 - d / 100);
     InvoiceItem.totalTax :=
       q * Product.unitprice product * (1 - d / 100)
         * (Product.taxrate product / 100);
     InvoiceItem.total :=
       q * Product.unitprice product * (1 - d / 100)
         * (1 + (Product.taxrate product / 100)) |}.

(** [items[index] = v] on a copy of the list, for an index of the list. *)
Fixpoint set_nth (index : nat) (v : InvoiceItem.t) (l : list InvoiceItem.t)
  : list InvoiceItem.t :=
  match l, index with
  | [], _ => []
  | _ :: rest, O => v :: rest
  | x :: rest, S i => x :: set_nth i v rest
  end.

(** [updateItemProduct]: nothing changes when the product is not found.
    The form calls it with the index of one of its rows; past the end the
    source would throw on [items[index].quantity], and the list is left as
    it is. *)
Definition updateItemProduct (products : list Product.t)
    (items : list InvoiceItem.t) (index : nat) (productId : string)
  : list InvoiceItem.t :=
  match find_product products productId, nth_error items index with
  | Some product, Some item =>
      set_nth index (updateItemProduct_item item productId product) items
  | _, _ => items
  end.

(** The body of [data.items.map(item => ...)] in [updateProformaMutation]
    (the extra [tdiscount] key repeats [discount]). *)
Definition processedItem (item : InvoiceItem.t) : InvoiceItem.t :=
  let quantity := JS.or0 (InvoiceItem.quantity item) in
  let unitprice := JS.or0 (InvoiceItem.unitprice item) in
  let taxrate := JS.or0 (InvoiceItem.taxrate item) in
  let discount := JS.or0 (InvoiceItem.discount item) in
  let totalExcl := (quantity * unitprice) - discount in
  let totalTax := totalExcl * (taxrate / 100) in
  let total := totalExcl + totalTax in
  {| InvoiceItem.id := InvoiceItem.id item;
     InvoiceItem.productId := InvoiceItem.productId item;
     InvoiceItem.product := InvoiceItem.product item;
     InvoiceItem.quantity := InvoiceItem.quantity item;
     InvoiceItem.unitprice := InvoiceItem.unitprice item;
     InvoiceItem.taxrate := InvoiceItem.taxrate item;
     InvoiceItem.discount := InvoiceItem.discount item;
     InvoiceItem.unit := InvoiceItem.unit item;
     InvoiceItem.totalExcl := totalExcl;
     InvoiceItem.totalTax := totalTax;
     InvoiceItem.total := total |}.

(** The convert button is rendered when
    [proforma.status === 'approved' && !proforma.finalInvoiceId && canConvert]. *)
Definition convertOffered (canConvert : bool) (proforma : ProformaInvoice.t)
  : bool :=
  String.eqb (ProformaInvoice.status proforma) "approved"
  && negb (JS.truthy_ostr (ProformaInvoice.finalInvoiceId proforma))
  && canConvert.

(** *** Rows of the edit form *)

(** [addItem]: the blank row appended to the items; [fresh] is its
    [generateId()]. *)
Definition addItem (fresh : string) (items : list InvoiceItem.t)
  : list InvoiceItem.t :=
  items ++ [ {| InvoiceItem.id := fresh; InvoiceItem.productId := "";
                InvoiceItem.product := None;
                InvoiceItem.quantity := 1; InvoiceItem.unitprice := 0;
                InvoiceItem.unit := Some ""; InvoiceItem.taxrate := 0;
                InvoiceItem.discount := 0; InvoiceItem.totalExcl := 0;
                InvoiceItem.totalTax := 0; InvoiceItem.total := 0 |} ].

(** [removeItem]: [currentItems.splice(index, 1)] on a copy. *)
Definition removeItem (index : nat) (items : list InvoiceItem.t)
  : list InvoiceItem.t :=
  firstn index items ++ skipn (S index) items.

(** The remove button of a row is disabled while
    [form.getValues('items').length <= 1]. *)
Definition removeDisabled (items : list InvoiceItem.t) : bool :=
  Nat.leb (List.length items) 1.

(** *** Saving the form *)

(** The totals [updateProformaMutation] computes from the processed items
    and writes to the proforma. *)
Definition savedTotals (items : list InvoiceItem.t) (payment_type : string)
  : Totals :=
  let processedItems := map processedItem items in
  let totaldiscount :=
    reduce_sum (fun item => JS.or0 (InvoiceItem.discount item)) processedItems in
  let subtotal := reduce_sum InvoiceItem.totalExcl processedItems in
  let taxTotal := reduce_sum InvoiceItem.totalTax processedItems in
  let stampTax := calculateStampTax payment_type subtotal in
  let total := subtotal + taxTotal + stampTax in
  {| totaldiscount := totaldiscount; subtotal := subtotal;
     taxTotal := taxTotal; stampTax := stampTax; total := total |}.

(** *** The status actions and the conditions that render them *)

(** The four buttons that call [handleUpdateStatus]. *)
Inductive StatusAction : Type :=
| Send
| Approve
| Reject
| Unapprove.

(** The status each button passes to [handleUpdateStatus]. *)
Definition target (a : StatusAction) : string :=
  match a with
  | Send => "sent"
  | Approve => "approved"
  | Reject => "rejected"
  | Unapprove => "sent"
  end.

(** The condition under which each button is rendered. *)
Definition statusActionOffered (canApprove : bool) (a : StatusAction)
    (status : string) : bool :=
  match a with
  | Send => String.eqb status "draft"
  | Approve => String.eqb status "sent" && canApprove
  | Reject => String.eqb status "sent" && canApprove
  | Unapprove => String.eqb status "approved" && canApprove
  end.

Definition editOffered (canEdit : bool) (proforma : ProformaInvoice.t) : bool :=
  canEdit
  && (String.eqb (ProformaInvoice.status proforma) "draft"
      || String.eqb (ProformaInvoice.status proforma) "sent").

Definition undoConversionOffered (canConvert : bool)
    (proforma : ProformaInvoice.t) : bool :=
  JS.truthy_ostr (ProformaInvoice.finalInvoiceId proforma) && canConvert.

Definition deleteOffered (canEdit : bool) (proforma : ProformaInvoice.t) : bool :=
  canEdit && String.eqb (ProformaInvoice.status proforma) "draft".

(** One click on a rendered status button: from [status] to the button's
    target. *)
Inductive status_step (canApprove : bool) : string -> string -> Prop :=
| status_step_click (a : StatusAction) (status : string) :
    statusActionOffered canApprove a status = true ->
    status_step canApprove status (target a).

(** Any number of such clicks. *)
Inductive status_steps (canApprove : bool) : string -> string -> Prop :=
| status_steps_refl (status : string) : status_steps canApprove status status
| status_steps_next (s1 s2 s3 : string) :
    status_steps canApprove s1 s2 ->
    status_step canApprove s2 s3 ->
    status_steps canApprove s1 s3.

End ProformaDetail.

(** ** The final invoice detail page *)

Module FinalInvoiceDetail.

(** The [paymentSummary] state. *)
Record PaymentSummary := mkPaymentSummary {
  amountPaid : JS.number;
  clientDebt : JS.number
}.

(** [payments.reduce((sum, payment) => sum + (payment.amount || 0), 0)]. *)
Definition totalPaid (payments : list InvoicePayment.t) : JS.number :=
  reduce_sum (fun payment => JS.or0 (InvoicePayment.amount payment)) payments.

(** The summary the effect on [[invoice, payments]] stores. *)
Definition paymentSummary (invoice : FinalInvoice.t)
    (payments : list InvoicePayment.t) : PaymentSummary :=
  match FinalInvoice.amount_paid invoice, FinalInvoice.client_debt invoice with
  | Some amount_paid, Some client_debt =>
      {| amountPaid := amount_paid; clientDebt := client_debt |}
  | _, _ =>
      let totalPaid := totalPaid payments in
      let remainingDebt := JS.Math_max 0 (FinalInvoice.total invoice - totalPaid) in
      {| amountPaid := totalPaid; clientDebt := remainingDebt |}
  end.

(** [computedStatus], from the summary's [amountPaid] and the invoice. *)
Definition computedStatus (invoice : FinalInvoice.t) (summary : PaymentSummary)
  : string :=
  if JS.ge (amountPaid summary) (FinalInvoice.total invoice) then "paid"
  else if JS.gt (amountPaid summary) 0 then "partially_paid"
  else if negb (String.eqb (FinalInvoice.status invoice) "cancelled")
          && negb (String.eqb (FinalInvoice.status invoice) "credited")
  then "unpaid"
  else FinalInvoice.status invoice.

(** The status the page shows for an invoice and its payments. *)
Definition displayedStatus (invoice : FinalInvoice.t)
    (payments : list InvoicePayment.t) : string :=
  computedStatus invoice (paymentSummary invoice payments).

(** *** The action buttons and the conditions that render them *)

Definition markAsPaidOffered (canEdit : bool) (computedStatus : string) : bool :=
  String.eqb computedStatus "unpaid" && canEdit.

Definition addPaymentOffered (canEdit : bool) (computedStatus : string)
    (clientDebt : JS.number) : bool :=
  negb (String.eqb computedStatus "cancelled")
  && negb (String.eqb computedStatus "credited")
  && canEdit && JS.gt clientDebt 0.

Definition cancelOffered (canEdit : bool) (computedStatus : string) : bool :=
  String.eqb computedStatus "unpaid" && canEdit.

Definition deleteOffered (canEdit : bool) (computedStatus : string) : bool :=
  canEdit && String.eqb computedStatus "unpaid".

Definition revertOffered (canEdit : bool) (computedStatus : string) : bool :=
  (String.eqb computedStatus "paid"
   || String.eqb computedStatus "partially_paid"
   || String.eqb computedStatus "cancelled")
  && canEdit.

(** *** Status updates *)

(** The object handed to [statusUpdateMutation.mutate]; a key that is
    not written is [None], and [paymentdate: null] is [Some None]. *)
Record UpdateData := mkUpdateData {
  status : option string;
  payment_date : option string;
  amount_paid : option JS.number;
  client_debt : option JS.number;
  paymentdate : option (option string)
}.

(** [{}], the default of [additionalData]. *)
Definition no_additionalData : UpdateData :=
  {| status := None; payment_date := None; amount_paid := None;
     client_debt := None; paymentdate := None |}.

(** What the page holds: the route parameter, the loaded invoice and the
    payments of the [invoicePayments] query. *)
Record Page := mkPage {
  id : option string;
  invoice : option FinalInvoice.t;
  payments : list InvoicePayment.t
}.

(** Modelled from the spec: [updateFinalInvoice] of the datastore client
    is not among the sources; a status change "sets" the fields it
    names, so the keys present in the update are written to the row and
    the others are kept. *)
Definition updateFinalInvoice (data : UpdateData) (row : FinalInvoice.t)
  : FinalInvoice.t :=
  {| FinalInvoice.id := FinalInvoice.id row;
     FinalInvoice.number := FinalInvoice.number row;
     FinalInvoice.clientid := FinalInvoice.clientid row;
     FinalInvoice.issuedate := FinalInvoice.issuedate row;
     FinalInvoice.duedate := FinalInvoice.duedate row;
     FinalInvoice.items := FinalInvoice.items row;
     FinalInvoice.notes := FinalInvoice.notes row;
     FinalInvoice.subtotal := FinalInvoice.subtotal row;
     FinalInvoice.taxTotal := FinalInvoice.taxTotal row;
     FinalInvoice.total := FinalInvoice.total row;
     FinalInvoice.createdAt := FinalInvoice.createdAt row;
     FinalInvoice.updatedAt := FinalInvoice.updatedAt row;
     FinalInvoice.created_by_userid := FinalInvoice.created_by_userid row;
     FinalInvoice.status :=
       match status data with
       | Some s => s
       | None => FinalInvoice.status row
       end;
     FinalInvoice.proformaId := FinalInvoice.proformaId row;
     FinalInvoice.payment_date :=
       match payment_date data with
       | Some d => Some d
       | None => FinalInvoice.payment_date row
       end;
     FinalInvoice.paymentdate :=
       match paymentdate data with
       | Some d => d
       | None => FinalInvoice.paymentdate row
       end;
     FinalInvoice.paymentreference := FinalInvoice.paymentreference row;
     FinalInvoice.bc := FinalInvoice.bc row;
     FinalInvoice.payment_type := FinalInvoice.payment_type row;
     FinalInvoice.stamp_tax := FinalInvoice.stamp_tax row;
     FinalInvoice.amount_paid :=
       match amount_paid data with
       | Some a => Some a
       | None => FinalInvoice.amount_paid row
       end;
     FinalInvoice.client_debt :=
       match client_debt data with
       | Some d => Some d
       | None => FinalInvoice.client_debt row
       end |}.

(** [statusUpdateMutation.mutate(data)] when the update succeeds: the
    row is rewritten and the queries are refetched; the payments are not
    part of the update. *)
Definition statusUpdateMutation_mutate (data : UpdateData) (page : Page)
  : Page :=
  {| id := id page;
     invoice := option_map (updateFinalInvoice data) (invoice page);
     payments := payments page |}.

(** [{ status, ...additionalData }]. *)
Definition spread_status (status0 : string) (additionalData : UpdateData)
  : UpdateData :=
  {| status :=
       match status additionalData with
       | Some s => Some s
       | None => Some status0
       end;
     payment_date := payment_date additionalData;
     amount_paid := amount_paid additionalData;
     client_debt := client_debt additionalData;
     paymentdate := paymentdate additionalData |}.

(** [{ ...updateData, amount_paid, client_debt }]. *)
Definition with_amounts (updateData : UpdateData) (a d : JS.number)
  : UpdateData :=
  {| status := status updateData;
     payment_date := payment_date updateData;
     amount_paid := Some a;
     client_debt := Some d;
     paymentdate := paymentdate updateData |}.

(** [{ ...updateData, amount_paid, client_debt, paymentdate: null }]. *)
Definition with_amounts_reset (updateData : UpdateData) (a d : JS.number)
  : UpdateData :=
  {| status := status updateData;
     payment_date := payment_date updateData;
     amount_paid := Some a;
     client_debt := Some d;
     paymentdate := Some None |}.

(** The update [handleUpdateStatus] builds for a loaded invoice. *)
Definition updateData_of (status0 : string) (additionalData : UpdateData)
    (invoice : FinalInvoice.t) (payments : list InvoicePayment.t)
  : UpdateData :=
  let updateData := spread_status status0 additionalData in
  let updateData :=
    if String.eqb status0 "paid"
       && negb (JS.truthy_opt (amount_paid additionalData))
    then with_amounts updateData (FinalInvoice.total invoice) 0
    else updateData in
  if String.eqb status0 "unpaid" then
    let totalPaid := totalPaid payments in
    if JS.gt totalPaid 0 then
      with_amounts updateData totalPaid
        (JS.Math_max 0 (FinalInvoice.total invoice - totalPaid))
    else
      with_amounts_reset updateData 0 (FinalInvoice.total invoice)
  else updateData.

Definition handleUpdateStatus (status0 : string) (additionalData : UpdateData)
    (page : Page) : Page :=
  match invoice page with
  | Some invoice =>
      if negb (JS.truthy_ostr (id page)) then page
      else
        statusUpdateMutation_mutate
          (updateData_of status0 additionalData invoice (payments page)) page
  | None => page
  end.

(** [handleMarkAsPaid]; [today] is [new Date().toISOString().split('T')[0]]. *)
Definition handleMarkAsPaid (today : string) (page : Page) : Page :=
  match invoice page with
  | Some invoice =>
      handleUpdateStatus "paid"
        {| status := None;
           payment_date := Some today;
           amount_paid := Some (FinalInvoice.total invoice);
           client_debt := Some 0;
           paymentdate := None |}
        page
  | None => page
  end.

(** The [data] object of the mark-as-paid dialog. *)
Definition markAsPaid_data (today : string) (invoice : FinalInvoice.t)
  : UpdateData :=
  {| status := Some "paid";
     payment_date := Some today;
     amount_paid := Some (FinalInvoice.total invoice);
     client_debt := Some 0;
     paymentdate := None |}.

(** The confirm button of the mark-as-paid dialog.  The dialog is part of
    the page rendered for a loaded invoice. *)
Definition markAsPaid_onClick (today : string) (page : Page) : Page :=
  match invoice page with
  | Some invoice =>
      statusUpdateMutation_mutate (markAsPaid_data today invoice) page
  | None => page
  end.

(** The confirm button of the revert dialog. *)
Definition revert_onClick (page : Page) : Page :=
  handleUpdateStatus "unpaid" no_additionalData page.

(** The confirm button of the cancel dialog. *)
Definition cancel_onClick (page : Page) : Page :=
  handleUpdateStatus "cancelled" no_additionalData page.

(** *** The other buttons of the page *)

(** The edit link: [canEdit && invoice.status !== 'credited']. *)
Definition editOffered (canEdit : bool) (invoice : FinalInvoice.t) : bool :=
  canEdit && negb (String.eqb (FinalInvoice.status invoice) "credited").

(** The add-payment button in the header of the payment history:
    [canEdit && clientDebt > 0]. *)
Definition historyAddPaymentOffered (canEdit : bool) (clientDebt : JS.number)
  : bool :=
  canEdit && JS.gt clientDebt 0.

(** The keys of [statusColor], the colours of the status badge. *)
Definition statusColor_keys : list string :=
  ["unpaid"; "paid"; "partially_paid"; "cancelled"; "credited"].

End FinalInvoiceDetail.

(** ** The payment form *)

Module PaymentForm.

(** [Math.round(x * 100) / 100], in exact arithmetic; on doubles it is
    [AmountField.round2] below. *)
Definition round2 (x : JS.number) : JS.number :=
  JS.Math_round (x * 100) / 100.

(** What the amount field's [onChange] does: the value it passes to
    [field.onChange], and whether the "Paiement maximum" toast is shown. *)
Record Change := mkChange {
  recorded : JS.number;
  notice : bool
}.

(** [parsed] is [parseFloat(e.target.value)], [None] standing for [NaN]. *)
Definition amount_onChange (remainingDebt : JS.number)
    (parsed : option JS.number) : Change :=
  match parsed with
  | Some v =>
      let value := round2 v in
      if JS.le value remainingDebt then
        {| recorded := value; notice := false |}
      else
        {| recorded := round2 remainingDebt; notice := true |}
  | None => {| recorded := 0; notice := false |}
  end.

(** [z.coerce.number().positive(...)] of [paymentFormSchema]. *)
Definition amount_accepted (amount : JS.number) : bool := JS.gt amount 0.

(** *** The live preview *)

(** The [previewAmountPaid] and [previewRemainingDebt] states. *)
Record Preview := mkPreview {
  previewAmountPaid : JS.number;
  previewRemainingDebt : JS.number
}.

(** The preview before anything is typed, and after the form is reset to
    the remaining debt. *)
Definition initialPreview (invoiceTotal remainingDebt : JS.number) : Preview :=
  {| previewAmountPaid := invoiceTotal - remainingDebt;
     previewRemainingDebt := remainingDebt |}.


End PaymentForm.

(** ** IEEE-754 binary64 arithmetic

    The numbers of JavaScript as they are: [NaN], the two infinities and
    the finite doubles, a finite double being the rational it denotes.
    The result of an operation is rounded to the nearest double, ties to
    even: 53 significant bits, gradual underflow below [2^-1022], overflow
    to an infinity from [2^1024 - 2^970] on.  Zeros carry no sign. *)

Module Binary64.

Inductive number : Type :=
| NaN
| Infinity (negative : bool)
| Finite (q : Q).

Definition pow2 (e : Z) : Q := 2 ^ e.

(** The integer part of the binary logarithm of [|x|], for [x] other than
    zero. *)
Definition ilog2 (x : Q) : Z :=
  let e := (Z.log2 (Z.abs (Qnum x)) - Z.log2 (Z.pos (Qden x)))%Z in
  if Qle_bool (pow2 e) (Qabs x) then e else (e - 1)%Z.

(** The exponent of the last place of the doubles around [x]. *)
Definition exponent (x : Q) : Z := Z.max (ilog2 x - 52) (-1074).

(** The nearest integer, ties to the even one. *)
Definition nearest_even (x : Q) : Z :=
  let f := Qfloor x in
  match Qcompare (x - inject_Z f) (1 # 2) with
  | Lt => f
  | Gt => (f + 1)%Z
  | Eq => if Z.even f then f else (f + 1)%Z
  end.

(** The nearest multiple of the last place of [x], exponents unbounded
    above. *)
Definition rnd (x : Q) : Q :=
  inject_Z (nearest_even (x / pow2 (exponent x))) * pow2 (exponent x).

(** The double a real result is rounded to. *)
Definition round (x : Q) : number :=
  let r := rnd x in
  if Qle_bool (pow2 1024) (Qabs r) then Infinity (negb (Qle_bool 0 r))
  else Finite r.

(** *** Operations on numbers *)

Definition isNaN (x : number) : bool :=
  match x with
  | NaN => true
  | _ => false
  end.

Definition negative (q : Q) : bool := negb (Qle_bool 0 q).

(** [x * y]. *)
Definition mul (x y : number) : number :=
  match x, y with
  | NaN, _ | _, NaN => NaN
  | Infinity s, Infinity t => Infinity (xorb s t)
  | Infinity s, Finite q | Finite q, Infinity s =>
      if Qeq_bool q 0 then NaN else Infinity (xorb s (negative q))
  | Finite p, Finite q => round (p * q)
  end.

(** [x / y]; a zero divisor is taken as [+0]. *)
Definition div (x y : number) : number :=
  match x, y with
  | NaN, _ | _, NaN => NaN
  | Infinity _, Infinity _ => NaN
  | Infinity s, Finite q => Infinity (xorb s (negative q))
  | Finite _, Infinity _ => Finite 0
  | Finite p, Finite q =>
      if Qeq_bool q 0
      then if Qeq_bool p 0 then NaN else Infinity (negative p)
      else round (p / q)
  end.

(** [x <= y] and [x > y]: false as soon as one side is [NaN]. *)
Definition le (x y : number) : bool :=
  match x, y with
  | NaN, _ | _, NaN => false
  | Infinity true, _ => true
  | _, Infinity false => true
  | Infinity false, _ => false
  | _, Infinity true => false
  | Finite p, Finite q => Qle_bool p q
  end.

Definition gt (x y : number) : bool :=
  match x, y with
  | NaN, _ | _, NaN => false
  | _, Infinity false => false
  | Infinity true, _ => false
  | Infinity false, _ => true
  | _, Infinity true => true
  | Finite p, Finite q => negb (Qle_bool p q)
  end.

(** [Math.round]: the nearest integer, ties towards plus infinity; it is
    a double whenever its argument is. *)
Definition Math_round (x : number) : number :=
  match x with
  | Finite q => Finite (inject_Z (Qfloor (q + (1 # 2))))
  | _ => x
  end.

(** The relative error of one rounding in the normal range. *)
Definition eps : Q := pow2 (-53).

(** The doubles, exponents unbounded above: the multiples of a power of two
    from [2^-1074] on by an integer of 53 bits at most. *)
Definition representable (y : Q) : Prop :=
  exists n e : Z,
    y == inject_Z n * pow2 e /\
    (- 2 ^ 53 < n < 2 ^ 53)%Z /\ (-1074 <= e)%Z.

End Binary64.

(** ** The amount field of the payment form, in binary64 arithmetic

    Which cent the field records depends on the rounding of the product
    [x * 100] to a double, so the handler is given here on doubles. *)

Module AmountField.

(** [parseFloat(e.target.value)]: [text] is the decimal number the text of
    the field starts with, [None] when it starts with none. *)
Definition parseFloat (text : option Q) : Binary64.number :=
  match text with
  | Some q => Binary64.round q
  | None => Binary64.NaN
  end.

(** [Math.round(x * 100) / 100]. *)
Definition round2 (x : Binary64.number) : Binary64.number :=
  Binary64.div
    (Binary64.Math_round (Binary64.mul x (Binary64.Finite 100)))
    (Binary64.Finite 100).

(** The value passed to [field.onChange], and whether the "Paiement
    maximum" toast is shown. *)
Record Change := mkChange {
  recorded : Binary64.number;
  notice : bool
}.

(** The [onChange] of the amount field; [parsed] is
    [parseFloat(e.target.value)]. *)
Definition onChange (remainingDebt parsed : Binary64.number) : Change :=
  let value := round2 parsed in
  if negb (Binary64.isNaN value) && Binary64.le value remainingDebt then
    {| recorded := value; notice := false |}
  else if Binary64.isNaN value then
    {| recorded := Binary64.Finite 0; notice := false |}
  else
    {| recorded := round2 remainingDebt; notice := true |}.

(** [z.coerce.number().positive(...)] of [paymentFormSchema]. *)
Definition amount_accepted (amount : Binary64.number) : bool :=
  Binary64.gt amount (Binary64.Finite 0).

(** The whole number of cents [Math.round(v * 100)] yields, and the double
    nearest to a whole number of cents. *)
Definition cents (v : Q) : Z := Qfloor (Binary64.rnd (v * 100) + (1 # 2)).
Definition of_cents (k : Z) : Q := Binary64.rnd (inject_Z k / 100).

(** The largest amount the statements cover, [10^13]: up to it a number of
    cents stays below [2^50] and no operation of the field overflows. *)
Definition max_amount : Q := 10000000000000.

End AmountField.

(** ** The payment ledger *)

Module Ledger.

(** Modelled from the spec: [addInvoicePayment] of the datastore client is
    not among the sources; it "appends a ledger row" and does not itself
    change the invoice's aggregate fields. *)
Definition addPayment (payment : InvoicePayment.t)
    (page : FinalInvoiceDetail.Page) : FinalInvoiceDetail.Page :=
  {| FinalInvoiceDetail.id := FinalInvoiceDetail.id page;
     FinalInvoiceDetail.invoice := FinalInvoiceDetail.invoice page;
     FinalInvoiceDetail.payments :=
       FinalInvoiceDetail.payments page ++ [payment] |}.

(** Modelled from the spec: [deleteInvoicePayment] of the datastore client
    is not among the sources; it "removes the row" and leaves the
    aggregates to be recomputed afterwards. *)
Definition deletePayment (paymentId : string)
    (page : FinalInvoiceDetail.Page) : FinalInvoiceDetail.Page :=
  {| FinalInvoiceDetail.id := FinalInvoiceDetail.id page;
     FinalInvoiceDetail.invoice := FinalInvoiceDetail.invoice page;
     FinalInvoiceDetail.payments :=
       filter (fun p => negb (String.eqb (InvoicePayment.id p) paymentId))
         (FinalInvoiceDetail.payments page) |}.

(** Modelled from the spec: the recomputation of the aggregates that
    follows a payment change is not among the sources; [amount_paid]
    reconciles with the sum of the payments and the client debt is the
    remaining balance, [max(0, total - sum)], the same figures the detail
    page derives from the payments when the row has none stored. *)
Definition recompute (page : FinalInvoiceDetail.Page)
  : FinalInvoiceDetail.Page :=
  match FinalInvoiceDetail.invoice page with
  | Some invoice =>
      let totalPaid := FinalInvoiceDetail.totalPaid
                         (FinalInvoiceDetail.payments page) in
      FinalInvoiceDetail.statusUpdateMutation_mutate
        {| FinalInvoiceDetail.status := None;
           FinalInvoiceDetail.payment_date := None;
           FinalInvoiceDetail.amount_paid := Some totalPaid;
           FinalInvoiceDetail.client_debt :=
             Some (JS.Math_max 0 (FinalInvoice.total invoice - totalPaid));
           FinalInvoiceDetail.paymentdate := None |}
        page
  | None => page
  end.

End Ledger.

(** ** Conversion of a proforma into a final invoice *)

Module Conversion.

(** A proforma and the final invoices of the datastore. *)
Record Store := mkStore {
  proforma : ProformaInvoice.t;
  final_invoices : list FinalInvoice.t
}.

Definition set_finalInvoiceId (p : ProformaInvoice.t) (fid : option string)
  : ProformaInvoice.t :=
  {| ProformaInvoice.id := ProformaInvoice.id p;
     ProformaInvoice.number := ProformaInvoice.number p;
     ProformaInvoice.clientid := ProformaInvoice.clientid p;
     ProformaInvoice.issuedate := ProformaInvoice.issuedate p;
     ProformaInvoice.duedate := ProformaInvoice.duedate p;
     ProformaInvoice.items := ProformaInvoice.items p;
     ProformaInvoice.notes := ProformaInvoice.notes p;
     ProformaInvoice.subtotal := ProformaInvoice.subtotal p;
     ProformaInvoice.taxTotal := ProformaInvoice.taxTotal p;
     ProformaInvoice.total := ProformaInvoice.total p;
     ProformaInvoice.createdAt := ProformaInvoice.createdAt p;
     ProformaInvoice.updatedAt := ProformaInvoice.updatedAt p;
     ProformaInvoice.created_by_userid := ProformaInvoice.created_by_userid p;
     ProformaInvoice.status := ProformaInvoice.status p;
     ProformaInvoice.finalInvoiceId := fid;
     ProformaInvoice.payment_type := ProformaInvoice.payment_type p;
     ProformaInvoice.stamp_tax := ProformaInvoice.stamp_tax p;
     ProformaInvoice.bc := ProformaInvoice.bc p |}.

(** Modelled from the spec: [mockDataService.convertProformaToFinal] is
    not among the sources.  The conversion is "allowed only when
    proforma.status == approved and no existing finalInvoiceId"; it then
    stores the new final invoice [final] and "sets proforma.finalInvoiceId
    to the new id".  [None] is the failed call. *)
Definition convertProformaToFinal (final : FinalInvoice.t) (s : Store)
  : option Store :=
  if String.eqb (ProformaInvoice.status (proforma s)) "approved"
     && negb (JS.truthy_ostr (ProformaInvoice.finalInvoiceId (proforma s)))
  then
    Some {| proforma :=
              set_finalInvoiceId (proforma s) (Some (FinalInvoice.id final));
            final_invoices := final_invoices s ++ [final] |}
  else None.

(** The convert dialog of the proforma page: the action exists only while
    the button is rendered; [convertMutation] stores the result of a
    successful call, and a failed call only shows a toast. *)
Definition convert_onClick (canConvert : bool) (final : FinalInvoice.t)
    (s : Store) : Store :=
  if ProformaDetail.convertOffered canConvert (proforma s) then
    match convertProformaToFinal final s with
    | Some s' => s'
    | None => s
    end
  else s.

End Conversion.

(** ** Invoice numbers (the [generate_invoice_number] migration) *)

Module InvoiceNumbering.

(** A row of [deleted_invoice_numbers]; [deleted_at] is the timestamp. *)
Record DeletedNumber := mkDeletedNumber {
  number : string;
  deleted_at : Z
}.

(** The table of deleted numbers and the position of
    [invoice_number_seq]: how many values [nextval] has handed out. *)
Record Db := mkDb {
  deleted_invoice_numbers : list DeletedNumber;
  seq_calls : nat
}.

(** [LPAD(s, len, fill)] for a one-character [fill]: [s] is extended on the
    left up to [len] characters, and a longer [s] is cut to its first
    [len] characters. *)
Definition LPAD (s : string) (len : nat) (fill : ascii) : string :=
  if Nat.leb (String.length s) len then
    (string_of_list_ascii (repeat fill (len - String.length s)) ++ s)%string
  else substring 0 len s.

(** [next_val::TEXT] for a value of the sequence. *)
Definition to_text (next_val : N) : string :=
  NilZero.string_of_uint (N.to_uint next_val).

(** ['F-' || LPAD(next_val::TEXT, 4, '0')]. *)
Definition mint (next_val : N) : string :=
  ("F-" ++ LPAD (to_text next_val) 4 "0"%char)%string.

(** The digits of a minted number read back as a value. *)
Definition read_back (s : string) : option N :=
  match s with
  | String "F" (String "-" digits) =>
      option_map N.of_uint (NilZero.uint_of_string digits)
  | _ => None
  end.

(** [SELECT ... ORDER BY deleted_at ASC LIMIT 1]: a row with the least
    [deleted_at]; among rows of the same timestamp, where the database may
    return any, the first of the table. *)
Fixpoint oldest (rows : list DeletedNumber) : option DeletedNumber :=
  match rows with
  | [] => None
  | r :: rest =>
      match oldest rest with
      | Some r' => if Z.ltb (deleted_at r') (deleted_at r) then Some r' else Some r
      | None => Some r
      end
  end.

(** [DELETE FROM deleted_invoice_numbers WHERE number = reused_number]. *)
Definition delete_number (reused_number : string) (rows : list DeletedNumber)
  : list DeletedNumber :=
  filter (fun r => negb (String.eqb (number r) reused_number)) rows.

Section Sequence.

(** The values of [invoice_number_seq], which is created elsewhere: the
    [k]-th call of [nextval] returns [seq_value k]. *)
Variable seq_value : nat -> N.

(** [generate_invoice_number()]: the number returned and the database
    after the call. *)
Definition generate_invoice_number (db : Db) : string * Db :=
  match oldest (deleted_invoice_numbers db) with
  | Some r =>
      (number r,
       {| deleted_invoice_numbers :=
            delete_number (number r) (deleted_invoice_numbers db);
          seq_calls := seq_calls db |})
  | None =>
      (mint (seq_value (seq_calls db)),
       {| deleted_invoice_numbers := deleted_invoice_numbers db;
          seq_calls := S (seq_calls db) |})
  end.

End Sequence.

(** [track_deleted_invoice_number()], the trigger before a final invoice
    is deleted: the number of the row is inserted at time [now]; the
    [UNIQUE] constraint on [number] refuses a number already in the table
    ([None]), and with it the deletion. *)
Definition track_deleted_invoice_number (now : Z) (old_number : string)
    (db : Db) : option Db :=
  if existsb (fun r => String.eqb (number r) old_number)
       (deleted_invoice_numbers db)
  then None
  else
    Some {| deleted_invoice_numbers :=
              deleted_invoice_numbers db
                ++ [ {| number := old_number; deleted_at := now |} ];
            seq_calls := seq_calls db |}.

(** The numbers in the table. *)
Definition numbers (db : Db) : list string :=
  map number (deleted_invoice_numbers db).

(** [check_from P start n]: [P] holds on the [n] values from [start]. *)
Fixpoint check_from (P : N -> bool) (start : N) (n : nat) : bool :=
  match n with
  | O => true
  | S n' => P start && check_from P (N.succ start) n'
  end.

End InvoiceNumbering.

(** ** The debt report of a client (src/pages/reports/ClientDebtDetailPage.tsx) *)

Module ClientDebt.

(** [x || 0] for an optional number. *)
Definition or0_opt (x : option JS.number) : JS.number :=
  match x with
  | Some v => JS.or0 v
  | None => 0
  end.

Record Summary := mkSummary {
  totalInvoiced : JS.number;
  totalPaid : JS.number;
  totalDebt : JS.number;
  invoiceCount : nat;
  NonPayeCount : nat
}.

(** The [summary] of [ClientDebtDetailPage] over the client's invoices
    ([NonPayeCount] is the source's [NonPayéCount]). *)
Definition summary (invoicesData : list FinalInvoice.t) : Summary :=
  {| totalInvoiced :=
       reduce_sum (fun inv => JS.or0 (FinalInvoice.total inv)) invoicesData;
     totalPaid :=
       reduce_sum (fun inv => or0_opt (FinalInvoice.amount_paid inv)) invoicesData;
     totalDebt :=
       reduce_sum (fun inv => or0_opt (FinalInvoice.client_debt inv)) invoicesData;
     invoiceCount := List.length invoicesData;
     NonPayeCount :=
       List.length
         (filter (fun inv => JS.gt (or0_opt (FinalInvoice.client_debt inv)) 0)
            invoicesData) |}.

End ClientDebt.

(** ** The operations on a loaded final invoice *)

Module Operations.

(** The operations that change the balance of a final invoice: the two
    status transitions of the detail page, and a payment change followed
    by the recomputation of the aggregates. *)
Inductive op : Type :=
| MarkPaid (today : string)
| RevertToUnpaid
| AddPayment (payment : InvoicePayment.t)
| DeletePayment (paymentId : string).

Definition run (o : op) (page : FinalInvoiceDetail.Page)
  : FinalInvoiceDetail.Page :=
  match o with
  | MarkPaid today => FinalInvoiceDetail.handleMarkAsPaid today page
  | RevertToUnpaid => FinalInvoiceDetail.revert_onClick page
  | AddPayment payment => Ledger.recompute (Ledger.addPayment payment page)
  | DeletePayment paymentId =>
      Ledger.recompute (Ledger.deletePayment paymentId page)
  end.

End Operations.

(** ** Properties used in the statements *)

(** A stored item carries the inputs [q], [u], [t], [d] of a form item and
    the totals recalculated from them with the percentage discount. *)
Definition recalculated (q u t d : JS.number) (productId : string)
    (it : InvoiceItem.t) : Prop :=
  InvoiceItem.productId it = productId /\
  InvoiceItem.quantity it = q /\
  InvoiceItem.unitprice it = u /\
  InvoiceItem.taxrate it = t /\
  InvoiceItem.discount it = d /\
  InvoiceItem.totalExcl it = q * u * (1 - d / 100) /\
  InvoiceItem.totalTax it = InvoiceItem.totalExcl it * (t / 100) /\
  InvoiceItem.total it = InvoiceItem.totalExcl it + InvoiceItem.totalTax it.


(** The stored status is one of the two administrative ones. *)
Definition sticky (status : string) : Prop :=
  status = "cancelled" \/ status = "credited".

(** ** Sample data *)

(** An item of quantity 10 at unit price 100 with discount 10, as the
    creation form and as the proforma form hold it. *)
Definition sample_form_item : NewFinalInvoice.FormItem :=
  {| NewFinalInvoice.id := "i1"; NewFinalInvoice.productId := "p1";
     NewFinalInvoice.quantity := 10; NewFinalInvoice.unitprice := 100;
     NewFinalInvoice.taxrate := 19; NewFinalInvoice.discount := 10 |}.

Definition sample_item : InvoiceItem.t :=
  {| InvoiceItem.id := "i1"; InvoiceItem.productId := "p1";
     InvoiceItem.product := None;
     InvoiceItem.quantity := 10; InvoiceItem.unitprice := 100;
     InvoiceItem.taxrate := 19; InvoiceItem.discount := 10;
     InvoiceItem.totalExcl := 0; InvoiceItem.totalTax := 0;
     InvoiceItem.total := 0; InvoiceItem.unit := None |}.

(** A final invoice row with the given status, total and stored
    aggregates. *)
Definition sample_invoice (status : string) (total : JS.number)
    (amount_paid client_debt : option JS.number) : FinalInvoice.t :=
  {| FinalInvoice.id := "f1"; FinalInvoice.number := "F-0001";
     FinalInvoice.clientid := "c1"; FinalInvoice.issuedate := "2025-01-01";
     FinalInvoice.duedate := None; FinalInvoice.items := [];
     FinalInvoice.notes := ""; FinalInvoice.subtotal := total;
     FinalInvoice.taxTotal := 0; FinalInvoice.total := total;
     FinalInvoice.createdAt := ""; FinalInvoice.updatedAt := "";
     FinalInvoice.created_by_userid := "u1"; FinalInvoice.status := status;
     FinalInvoice.proformaId := None; FinalInvoice.payment_date := None;
     FinalInvoice.paymentdate := None; FinalInvoice.paymentreference := None;
     FinalInvoice.bc := None; FinalInvoice.payment_type := None;
     FinalInvoice.stamp_tax := None;
     FinalInvoice.amount_paid := amount_paid;
     FinalInvoice.client_debt := client_debt |}.

(** A payment of the given amount on invoice [f1]. *)
Definition sample_payment (id : string) (amount : JS.number) : InvoicePayment.t :=
  {| InvoicePayment.id := id; InvoicePayment.invoiceId := "f1";
     InvoicePayment.amount := amount;
     InvoicePayment.payment_date := "2025-01-02";
     InvoicePayment.paymentMethod := "bank_transfer";
     InvoicePayment.reference := ""; InvoicePayment.notes := None;
     InvoicePayment.createdAt := "" |}.

(** The detail page of invoice [f1]. *)
Definition sample_page (invoice : FinalInvoice.t)
    (payments : list InvoicePayment.t) : FinalInvoiceDetail.Page :=
  {| FinalInvoiceDetail.id := Some "f1";
     FinalInvoiceDetail.invoice := Some invoice;
     FinalInvoiceDetail.payments := payments |}.

(** A proforma with the given status and link to a final invoice. *)
Definition sample_proforma (status : string) (finalInvoiceId : option string)
  : ProformaInvoice.t :=
  {| ProformaInvoice.id := "pf1"; ProformaInvoice.number := "P-0001";
     ProformaInvoice.clientid := "c1"; ProformaInvoice.issuedate := "2025-01-01";
     ProformaInvoice.duedate := "2025-02-01";
     ProformaInvoice.items := [sample_item];
     ProformaInvoice.notes := ""; ProformaInvoice.subtotal := 900;
     ProformaInvoice.taxTotal := 171; ProformaInvoice.total := 1071;
     ProformaInvoice.createdAt := ""; ProformaInvoice.updatedAt := "";
     ProformaInvoice.created_by_userid := "u1";
     ProformaInvoice.status := status;
     ProformaInvoice.finalInvoiceId := finalInvoiceId;
     ProformaInvoice.payment_type := Some "cheque";
     ProformaInvoice.stamp_tax := None; ProformaInvoice.bc := None |}.

(** The surroundings of a creation on 2025-01-01 that is given the number
    [F-0001]. *)
Definition sample_env : NewFinalInvoice.Env :=
  {| NewFinalInvoice.generate_invoice_number := Some "F-0001";
     NewFinalInvoice.Date_now := "1735689600000";
     NewFinalInvoice.now_iso := "2025-01-01T00:00:00.000Z";
     NewFinalInvoice.today := "2025-01-01";
     NewFinalInvoice.uuidv4 := fun _ => "u";
     NewFinalInvoice.invoice_uuid := "f1";
     NewFinalInvoice.user_id := Some "u1" |}.

(** A form with one item of quantity 10 at unit price 100, tax rate 19 and
    no discount. *)
Definition sample_form (payment_type : string) : NewFinalInvoice.FormData :=
  {| NewFinalInvoice.clientid := "c1";
     NewFinalInvoice.issuedate := "2025-01-01";
     NewFinalInvoice.notes := None;
     NewFinalInvoice.items :=
       [ {| NewFinalInvoice.id := "i1"; NewFinalInvoice.productId := "p1";
            NewFinalInvoice.quantity := 10; NewFinalInvoice.unitprice := 100;
            NewFinalInvoice.taxrate := 19; NewFinalInvoice.discount := 0 |} ];
     NewFinalInvoice.payment_type := Some payment_type;
     NewFinalInvoice.bc := None |}.

(** * Properties *)

(** ** Comparisons *)

Lemma gt_true (x y : Q) : JS.gt x y = true <-> y < x.
Proof.
  unfold JS.gt. rewrite negb_true_iff, <- not_true_iff_false, Qle_bool_iff.
  split; [apply Qnot_le_lt | apply Qlt_not_le].
Qed.

Lemma gt_false (x y : Q) : JS.gt x y = false <-> x <= y.
Proof.
  unfold JS.gt. rewrite negb_false_iff. apply Qle_bool_iff.
Qed.

Lemma ge_true (x y : Q) : JS.ge x y = true <-> y <= x.
Proof. unfold JS.ge. apply Qle_bool_iff. Qed.

Lemma ge_false (x y : Q) : JS.ge x y = false <-> x < y.
Proof.
  unfold JS.ge. rewrite <- not_true_iff_false, Qle_bool_iff.
  split; [apply Qnot_le_lt | apply Qlt_not_le].
Qed.

Lemma le_true (x y : Q) : JS.le x y = true <-> x <= y.
Proof. unfold JS.le. apply Qle_bool_iff. Qed.

Lemma le_false (x y : Q) : JS.le x y = false <-> y < x.
Proof.
  unfold JS.le. rewrite <- not_true_iff_false, Qle_bool_iff.
  split; [apply Qnot_le_lt | apply Qlt_not_le].
Qed.

Lemma or0_eq (x : Q) : JS.or0 x == x.
Proof.
  unfold JS.or0, JS.truthy. destruct (Qeq_bool x 0) eqn:E; simpl.
  - symmetry. now apply Qeq_bool_eq.
  - reflexivity.
Qed.

(** ** Stamp duty *)

Lemma stampTax_same (paymentType : string) (subtotal : Q) :
  NewFinalInvoice.calculateStampTax paymentType subtotal
  = ProformaDetail.calculateStampTax paymentType subtotal.
Proof. reflexivity. Qed.

(** C3.  For every payment type and non-negative subtotal the stamp tax
    (the same function on the proforma page and on the creation page) is 0
    unless the payment type is "cash"; for "cash" it is [subtotal * 0.02]
    above 100000, [subtotal * 0.015] above 30000 and up to 100000,
    [subtotal * 0.01] above 300 and up to 30000, and 0 up to 300: each
    threshold is an exclusive lower bound and the highest is tried first. *)
Theorem calculateStampTax_thresholds (paymentType : string) (subtotal : Q)
    (Hsub : 0 <= subtotal) :
  NewFinalInvoice.calculateStampTax paymentType subtotal
  = ProformaDetail.calculateStampTax paymentType subtotal /\
  (paymentType <> "cash" ->
   ProformaDetail.calculateStampTax paymentType subtotal = 0) /\
  (100000 < subtotal ->
   ProformaDetail.calculateStampTax "cash" subtotal = subtotal * 0.02) /\
  (30000 < subtotal <= 100000 ->
   ProformaDetail.calculateStampTax "cash" subtotal = subtotal * 0.015) /\
  (300 < subtotal <= 30000 ->
   ProformaDetail.calculateStampTax "cash" subtotal = subtotal * 0.01) /\
  (subtotal <= 300 ->
   ProformaDetail.calculateStampTax "cash" subtotal = 0).
Proof.
  split; [apply stampTax_same|].
  unfold ProformaDetail.calculateStampTax.
  split.
  { intros Hne. apply String.eqb_neq in Hne. now rewrite Hne. }
  simpl negb.
  repeat split.
  - intros H. apply gt_true in H. now rewrite H.
  - intros [H1 H2]. apply gt_false in H2. apply gt_true in H1.
    now rewrite H2, H1.
  - intros [H1 H2].
    assert (H3 : subtotal <= 100000) by lra.
    apply gt_false in H2, H3. apply gt_true in H1.
    now rewrite H3, H2, H1.
  - intros H.
    assert (H2 : subtotal <= 30000) by lra.
    assert (H3 : subtotal <= 100000) by lra.
    apply gt_false in H, H2, H3.
    now rewrite H3, H2, H.
Qed.

Lemma calculateStampTax_thresholds_witness :
  0 <= 150000 /\
  ProformaDetail.calculateStampTax "cash" 150000 == 3000 /\
  NewFinalInvoice.calculateStampTax "cheque" 150000 = 0.
Proof.
  assert (H : 0 <= 150000) by (unfold Qle; simpl; lia).
  split; [exact H|].
  destruct (calculateStampTax_thresholds "cash" 150000 H) as (_ & _ & H1 & _).
  destruct (calculateStampTax_thresholds "cheque" 150000 H) as (E & H0 & _).
  split.
  - rewrite H1 by reflexivity. reflexivity.
  - rewrite E. apply H0. discriminate.
Defined.

(** ** Item totals and the two discount formulas *)

Lemma calculatedItem_recalculated (products : list Product.t) (fresh : string)
    (item : NewFinalInvoice.FormItem) :
  recalculated (NewFinalInvoice.quantity item) (NewFinalInvoice.unitprice item)
    (NewFinalInvoice.taxrate item) (NewFinalInvoice.discount item)
    (NewFinalInvoice.productId item)
    (NewFinalInvoice.calculatedItem products fresh item).
Proof. repeat split. Qed.

Lemma processedItem_totalExcl (item : InvoiceItem.t) :
  InvoiceItem.totalExcl (ProformaDetail.processedItem item)
  == InvoiceItem.quantity item * InvoiceItem.unitprice item
     - InvoiceItem.discount item.
Proof.
  unfold ProformaDetail.processedItem; simpl.
  now rewrite !or0_eq.
Qed.

(** The subtotal [calculateTotals] shows for a single item with a product. *)
Lemma calculateTotals_single (item : InvoiceItem.t) (paymentType : string) :
  JS.truthy_str (InvoiceItem.productId item) = true ->
  ProformaDetail.subtotal (ProformaDetail.calculateTotals [item] paymentType)
  == InvoiceItem.quantity item * InvoiceItem.unitprice item
     - InvoiceItem.discount item.
Proof.
  intros Hp. unfold ProformaDetail.calculateTotals; simpl.
  rewrite Hp; simpl. rewrite !or0_eq. ring.
Qed.

(** C5.  The creation page ([createInvoiceMutation]) and
    [updateItemProduct] of the proforma page take the discount as a
    percentage, [quantity * unitprice * (1 - discount / 100)], while
    [calculateTotals] and the saved items of the proforma page subtract it
    as an amount, [quantity * unitprice - discount]; the two differ: for
    quantity 10, unit price 100 and discount 10 the first gives 900 and the
    second 990. *)
Theorem discount_formulas_differ :
  (forall products fresh item,
     InvoiceItem.totalExcl (NewFinalInvoice.calculatedItem products fresh item)
     = NewFinalInvoice.quantity item * NewFinalInvoice.unitprice item
       * (1 - NewFinalInvoice.discount item / 100)) /\
  (forall item productId product,
     InvoiceItem.totalExcl
       (ProformaDetail.updateItemProduct_item item productId product)
     == InvoiceItem.quantity item * Product.unitprice product
        * (1 - InvoiceItem.discount item / 100)) /\
  (forall item,
     InvoiceItem.totalExcl (ProformaDetail.processedItem item)
     == InvoiceItem.quantity item * InvoiceItem.unitprice item
        - InvoiceItem.discount item) /\
  (forall item paymentType,
     JS.truthy_str (InvoiceItem.productId item) = true ->
     ProformaDetail.subtotal (ProformaDetail.calculateTotals [item] paymentType)
     == InvoiceItem.quantity item * InvoiceItem.unitprice item
        - InvoiceItem.discount item) /\
  exists (fi : NewFinalInvoice.FormItem) (it : InvoiceItem.t),
    NewFinalInvoice.quantity fi = InvoiceItem.quantity it /\
    NewFinalInvoice.unitprice fi = InvoiceItem.unitprice it /\
    NewFinalInvoice.discount fi = InvoiceItem.discount it /\
    InvoiceItem.totalExcl (NewFinalInvoice.calculatedItem [] "" fi) == 900 /\
    InvoiceItem.totalExcl (ProformaDetail.processedItem it) == 990 /\
    ~ InvoiceItem.totalExcl (NewFinalInvoice.calculatedItem [] "" fi)
      == InvoiceItem.totalExcl (ProformaDetail.processedItem it).
Proof.
  split; [reflexivity|].
  split.
  { intros item productId product; simpl. now rewrite or0_eq. }
  split; [apply processedItem_totalExcl|].
  split; [intros; now apply calculateTotals_single|].
  exists sample_form_item, sample_item.
  repeat split; try reflexivity.
  intros H. vm_compute in H. discriminate H.
Qed.

(** ** Creation of a final invoice *)

Lemma calculatedItems_from_recalculated (env : NewFinalInvoice.Env)
    (products : list Product.t) (l : list NewFinalInvoice.FormItem) :
  forall k,
    Forall2
      (fun item it =>
         recalculated (NewFinalInvoice.quantity item)
           (NewFinalInvoice.unitprice item) (NewFinalInvoice.taxrate item)
           (NewFinalInvoice.discount item) (NewFinalInvoice.productId item) it)
      l (NewFinalInvoice.calculatedItems_from env products k l).
Proof.
  induction l as [|item rest IH]; intros k; simpl; constructor.
  - apply calculatedItem_recalculated.
  - apply IH.
Qed.

Lemma itemsFromProforma_copy (env : NewFinalInvoice.Env)
    (l : list InvoiceItem.t) :
  forall k,
    Forall2
      (fun src item =>
         NewFinalInvoice.productId item = InvoiceItem.productId src /\
         NewFinalInvoice.quantity item = InvoiceItem.quantity src /\
         NewFinalInvoice.unitprice item = InvoiceItem.unitprice src /\
         NewFinalInvoice.taxrate item = InvoiceItem.taxrate src /\
         NewFinalInvoice.discount item = InvoiceItem.discount src)
      l (NewFinalInvoice.itemsFromProforma env k l).
Proof.
  induction l as [|src rest IH]; intros k; simpl; constructor.
  - repeat split.
  - apply IH.
Qed.

Lemma Forall2_compose {A B C : Type} (R : A -> B -> Prop) (S : B -> C -> Prop)
    (T : A -> C -> Prop) :
  (forall a b c, R a b -> S b c -> T a c) ->
  forall la lb lc, Forall2 R la lb -> Forall2 S lb lc -> Forall2 T la lc.
Proof.
  intros HT la lb lc HR. revert lc.
  induction HR as [|a b la lb Hab _ IH]; intros lc HS; inversion HS; subst.
  - constructor.
  - constructor; [eapply HT; eassumption | now apply IH].
Qed.

(** A created invoice whose total is positive is shown as unpaid. *)
Lemma created_displayed_unpaid (env : NewFinalInvoice.Env)
    (products : list Product.t) (data : NewFinalInvoice.FormData) :
  0 < FinalInvoice.total (NewFinalInvoice.invoiceData env products data) ->
  FinalInvoiceDetail.displayedStatus
    (NewFinalInvoice.invoiceData env products data) [] = "unpaid".
Proof.
  intros Ht.
  unfold FinalInvoiceDetail.displayedStatus, FinalInvoiceDetail.paymentSummary,
    FinalInvoiceDetail.computedStatus.
  cbn [FinalInvoice.amount_paid FinalInvoice.client_debt
       NewFinalInvoice.invoiceData FinalInvoiceDetail.amountPaid
       FinalInvoice.status].
  apply ge_false in Ht. rewrite Ht.
  reflexivity.
Qed.

(** C7.  The row [createInvoiceMutation] creates has the unpaid status of
    the [FinalInvoice] type (the literal ['NonPayé'], which the detail page
    shows as unpaid for a positive total), [amount_paid] 0 and
    [client_debt] equal to its total, which is
    [subtotal + taxTotal + stampTax]; it takes the client, notes, payment
    type and order reference from the form and its items are the form's
    items with their totals recalculated.  When the form was filled from a
    proforma, these are the proforma's client, notes, payment type, order
    reference and items. *)
Theorem created_invoice_is_unpaid_with_full_debt :
  forall (env : NewFinalInvoice.Env) (products : list Product.t),
    (forall data : NewFinalInvoice.FormData,
       let inv := NewFinalInvoice.invoiceData env products data in
       FinalInvoice.status inv = "NonPayé" /\
       (0 < FinalInvoice.total inv ->
        FinalInvoiceDetail.displayedStatus inv [] = "unpaid") /\
       FinalInvoice.amount_paid inv = Some 0 /\
       FinalInvoice.client_debt inv = Some (FinalInvoice.total inv) /\
       FinalInvoice.stamp_tax inv
       = Some (NewFinalInvoice.calculateStampTax
                 (JS.str_or (NewFinalInvoice.payment_type data) "")
                 (FinalInvoice.subtotal inv)) /\
       (exists stampTax,
          FinalInvoice.stamp_tax inv = Some stampTax /\
          FinalInvoice.total inv
          = FinalInvoice.subtotal inv + FinalInvoice.taxTotal inv + stampTax) /\
       FinalInvoice.subtotal inv
       = reduce_sum InvoiceItem.totalExcl (FinalInvoice.items inv) /\
       FinalInvoice.taxTotal inv
       = reduce_sum InvoiceItem.totalTax (FinalInvoice.items inv) /\
       FinalInvoice.clientid inv = NewFinalInvoice.clientid data /\
       FinalInvoice.notes inv = JS.str_or (NewFinalInvoice.notes data) "" /\
       FinalInvoice.payment_type inv = NewFinalInvoice.payment_type data /\
       FinalInvoice.bc inv = NewFinalInvoice.bc data /\
       Forall2
         (fun item it =>
            recalculated (NewFinalInvoice.quantity item)
              (NewFinalInvoice.unitprice item) (NewFinalInvoice.taxrate item)
              (NewFinalInvoice.discount item) (NewFinalInvoice.productId item)
              it)
         (NewFinalInvoice.items data) (FinalInvoice.items inv)) /\
    (forall sourceProforma : ProformaInvoice.t,
       let inv := NewFinalInvoice.invoiceData env products
                    (NewFinalInvoice.formFromProforma env sourceProforma) in
       FinalInvoice.clientid inv = ProformaInvoice.clientid sourceProforma /\
       FinalInvoice.notes inv = ProformaInvoice.notes sourceProforma /\
       FinalInvoice.payment_type inv
       = Some (JS.str_or (ProformaInvoice.payment_type sourceProforma) "") /\
       FinalInvoice.bc inv
       = Some (JS.str_or (ProformaInvoice.bc sourceProforma) "") /\
       Forall2
         (fun src it =>
            recalculated (InvoiceItem.quantity src) (InvoiceItem.unitprice src)
              (InvoiceItem.taxrate src) (InvoiceItem.discount src)
              (InvoiceItem.productId src) it)
         (ProformaInvoice.items sourceProforma) (FinalInvoice.items inv)).
Proof.
  intros env products. split.
  - intros data inv.
    split; [reflexivity|].
    split; [apply created_displayed_unpaid|].
    repeat (split; [reflexivity|]).
    split; [eexists; split; reflexivity|].
    repeat (split; [reflexivity|]).
    apply calculatedItems_from_recalculated.
  - intros p inv.
    split; [reflexivity|].
    split.
    { subst inv; simpl. now destruct (ProformaInvoice.notes p). }
    repeat (split; [reflexivity|]).
    subst inv; cbn [FinalInvoice.items NewFinalInvoice.invoiceData].
    unfold NewFinalInvoice.calculatedItems, NewFinalInvoice.formFromProforma.
    cbn [NewFinalInvoice.items].
    eapply Forall2_compose;
      [ | apply itemsFromProforma_copy | apply calculatedItems_from_recalculated ].
    intros a b c (H1 & H2 & H3 & H4 & H5) Hc; cbn beta in *.
    now rewrite H1, H2, H3, H4, H5 in Hc.
Qed.

(** ** The displayed status *)

Lemma summary_of_stored (inv : FinalInvoice.t) (payments : list InvoicePayment.t)
    (a d : Q) :
  FinalInvoice.amount_paid inv = Some a ->
  FinalInvoice.client_debt inv = Some d ->
  FinalInvoiceDetail.paymentSummary inv payments
  = {| FinalInvoiceDetail.amountPaid := a; FinalInvoiceDetail.clientDebt := d |}.
Proof.
  intros Ha Hd. unfold FinalInvoiceDetail.paymentSummary. now rewrite Ha, Hd.
Qed.

Lemma computedStatus_paid (inv : FinalInvoice.t)
    (sm : FinalInvoiceDetail.PaymentSummary) :
  FinalInvoice.total inv <= FinalInvoiceDetail.amountPaid sm ->
  FinalInvoiceDetail.computedStatus inv sm = "paid".
Proof.
  intros H. unfold FinalInvoiceDetail.computedStatus.
  apply ge_true in H. now rewrite H.
Qed.

Lemma computedStatus_partially_paid (inv : FinalInvoice.t)
    (sm : FinalInvoiceDetail.PaymentSummary) :
  0 < FinalInvoiceDetail.amountPaid sm ->
  FinalInvoiceDetail.amountPaid sm < FinalInvoice.total inv ->
  FinalInvoiceDetail.computedStatus inv sm = "partially_paid".
Proof.
  intros H0 H1. unfold FinalInvoiceDetail.computedStatus.
  apply ge_false in H1. apply gt_true in H0. now rewrite H1, H0.
Qed.

Lemma computedStatus_no_payment (inv : FinalInvoice.t)
    (sm : FinalInvoiceDetail.PaymentSummary) :
  FinalInvoiceDetail.amountPaid sm <= 0 ->
  FinalInvoiceDetail.amountPaid sm < FinalInvoice.total inv ->
  FinalInvoiceDetail.computedStatus inv sm
  = if negb (String.eqb (FinalInvoice.status inv) "cancelled")
       && negb (String.eqb (FinalInvoice.status inv) "credited")
    then "unpaid" else FinalInvoice.status inv.
Proof.
  intros H0 H1. unfold FinalInvoiceDetail.computedStatus.
  apply ge_false in H1. apply gt_false in H0. now rewrite H1, H0.
Qed.

(** C1, as the page computes it.  For an invoice with stored [amount_paid]
    and [client_debt], the displayed status is decided by the first rule
    that applies: "paid" when [amount_paid >= total]; otherwise
    "partially_paid" when [amount_paid > 0]; otherwise, with [amount_paid]
    0 and a positive total, "unpaid" when the stored status is neither
    "cancelled" nor "credited", and the stored status when it is one of
    the two.  The two administrative statuses are kept only when nothing
    is paid and the total is positive. *)
Theorem displayedStatus_first_match (inv : FinalInvoice.t)
    (payments : list InvoicePayment.t) (a d : Q)
    (Ha : FinalInvoice.amount_paid inv = Some a)
    (Hd : FinalInvoice.client_debt inv = Some d) :
  (FinalInvoice.total inv <= a ->
   FinalInvoiceDetail.displayedStatus inv payments = "paid") /\
  (0 < a /\ a < FinalInvoice.total inv ->
   FinalInvoiceDetail.displayedStatus inv payments = "partially_paid") /\
  (a == 0 -> 0 < FinalInvoice.total inv ->
   ~ sticky (FinalInvoice.status inv) ->
   FinalInvoiceDetail.displayedStatus inv payments = "unpaid") /\
  (a == 0 -> 0 < FinalInvoice.total inv ->
   sticky (FinalInvoice.status inv) ->
   FinalInvoiceDetail.displayedStatus inv payments = FinalInvoice.status inv).
Proof.
  unfold FinalInvoiceDetail.displayedStatus.
  rewrite (summary_of_stored inv payments a d Ha Hd).
  split; [|split; [|split]].
  - intros H. now apply computedStatus_paid.
  - intros [H0 H1]. now apply computedStatus_partially_paid.
  - intros H0 Ht Hs.
    rewrite computedStatus_no_payment; simpl; try lra.
    destruct (String.eqb_spec (FinalInvoice.status inv) "cancelled") as [E|_];
      [exfalso; apply Hs; now left|].
    destruct (String.eqb_spec (FinalInvoice.status inv) "credited") as [E|_];
      [exfalso; apply Hs; now right|].
    reflexivity.
  - intros H0 Ht Hs.
    rewrite computedStatus_no_payment; simpl; try lra.
    destruct Hs as [E|E]; rewrite E; reflexivity.
Qed.

Lemma displayedStatus_first_match_witness :
  FinalInvoiceDetail.displayedStatus
    (sample_invoice "unpaid" 1000 (Some 400) (Some 600)) [] = "partially_paid" /\
  FinalInvoiceDetail.displayedStatus
    (sample_invoice "unpaid" 1000 (Some 1000) (Some 0)) [] = "paid" /\
  FinalInvoiceDetail.displayedStatus
    (sample_invoice "cancelled" 1000 (Some 0) (Some 1000)) [] = "cancelled".
Proof.
  split; [|split].
  - apply (displayedStatus_first_match
             (sample_invoice "unpaid" 1000 (Some 400) (Some 600)) [] 400 600
             eq_refl eq_refl).
    split; reflexivity.
  - apply (displayedStatus_first_match
             (sample_invoice "unpaid" 1000 (Some 1000) (Some 0)) [] 1000 0
             eq_refl eq_refl).
    discriminate.
  - apply (displayedStatus_first_match
             (sample_invoice "cancelled" 1000 (Some 0) (Some 1000)) [] 0 1000
             eq_refl eq_refl).
    + reflexivity.
    + reflexivity.
    + now left.
Defined.

(** C1 as stated fails: a cancelled invoice of total 1000 with 500 paid is
    shown as "partially_paid", not with its stored status. *)
Lemma cancelled_with_payment_not_sticky :
  let inv := sample_invoice "cancelled" 1000 (Some 500) (Some 500) in
  sticky (FinalInvoice.status inv) /\
  FinalInvoiceDetail.displayedStatus inv [] = "partially_paid" /\
  FinalInvoiceDetail.displayedStatus inv [] <> FinalInvoice.status inv.
Proof.
  split; [now left|]. split; [reflexivity|]. discriminate.
Qed.

(** C10.  When the total is 0 or negative and nothing is paid, the invoice
    is shown as "paid" whatever its stored status, and the actions
    reserved to unpaid invoices (mark as paid, cancel, delete) are not
    offered. *)
Theorem zero_total_shown_paid (inv : FinalInvoice.t)
    (sm : FinalInvoiceDetail.PaymentSummary) (canEdit : bool)
    (Ht : FinalInvoice.total inv <= 0)
    (Ha : FinalInvoiceDetail.amountPaid sm == 0) :
  FinalInvoiceDetail.computedStatus inv sm = "paid" /\
  FinalInvoiceDetail.markAsPaidOffered canEdit
    (FinalInvoiceDetail.computedStatus inv sm) = false /\
  FinalInvoiceDetail.cancelOffered canEdit
    (FinalInvoiceDetail.computedStatus inv sm) = false /\
  FinalInvoiceDetail.deleteOffered canEdit
    (FinalInvoiceDetail.computedStatus inv sm) = false.
Proof.
  assert (E : FinalInvoiceDetail.computedStatus inv sm = "paid").
  { apply computedStatus_paid. lra. }
  rewrite E. repeat split; try reflexivity.
  now destruct canEdit.
Qed.

Lemma zero_total_shown_paid_witness :
  let inv := sample_invoice "cancelled" 0 (Some 0) (Some 0) in
  let sm := FinalInvoiceDetail.paymentSummary inv [] in
  FinalInvoice.total inv <= 0 /\
  FinalInvoiceDetail.amountPaid sm == 0 /\
  FinalInvoiceDetail.computedStatus inv sm = "paid" /\
  FinalInvoiceDetail.markAsPaidOffered true
    (FinalInvoiceDetail.computedStatus inv sm) = false.
Proof.
  assert (Ht : FinalInvoice.total (sample_invoice "cancelled" 0 (Some 0) (Some 0))
               <= 0) by (simpl; lra).
  assert (Ha : FinalInvoiceDetail.amountPaid
                 (FinalInvoiceDetail.paymentSummary
                    (sample_invoice "cancelled" 0 (Some 0) (Some 0)) []) == 0)
    by reflexivity.
  split; [exact Ht|]. split; [exact Ha|].
  destruct (zero_total_shown_paid _ _ true Ht Ha) as (H1 & H2 & _).
  split; assumption.
Defined.

(** ** Sums of payments *)

Lemma fold_sum_acc {A : Type} (f : A -> Q) (l : list A) :
  forall acc, fold_left (fun sum x => sum + f x) l acc == acc + reduce_sum f l.
Proof.
  unfold reduce_sum.
  induction l as [|x l IH]; intros acc; simpl.
  - ring.
  - rewrite IH, (IH (0 + f x)). ring.
Qed.

Lemma reduce_sum_cons {A : Type} (f : A -> Q) (x : A) (l : list A) :
  reduce_sum f (x :: l) == f x + reduce_sum f l.
Proof.
  unfold reduce_sum at 1; simpl. rewrite fold_sum_acc. ring.
Qed.

Lemma reduce_sum_app {A : Type} (f : A -> Q) (l1 l2 : list A) :
  reduce_sum f (l1 ++ l2) == reduce_sum f l1 + reduce_sum f l2.
Proof.
  unfold reduce_sum at 1. rewrite fold_left_app, fold_sum_acc.
  reflexivity.
Qed.

Lemma totalPaid_nil : FinalInvoiceDetail.totalPaid [] = 0.
Proof. reflexivity. Qed.

Lemma totalPaid_cons (p : InvoicePayment.t) (l : list InvoicePayment.t) :
  FinalInvoiceDetail.totalPaid (p :: l)
  == InvoicePayment.amount p + FinalInvoiceDetail.totalPaid l.
Proof.
  unfold FinalInvoiceDetail.totalPaid. now rewrite reduce_sum_cons, or0_eq.
Qed.

Lemma totalPaid_app (l : list InvoicePayment.t) (p : InvoicePayment.t) :
  FinalInvoiceDetail.totalPaid (l ++ [p])
  == FinalInvoiceDetail.totalPaid l + InvoicePayment.amount p.
Proof.
  unfold FinalInvoiceDetail.totalPaid.
  rewrite reduce_sum_app, reduce_sum_cons, or0_eq.
  change (reduce_sum (fun payment => JS.or0 (InvoicePayment.amount payment)) [])
    with 0.
  ring.
Qed.

Lemma totalPaid_nonneg (l : list InvoicePayment.t) :
  Forall (fun p => 0 < InvoicePayment.amount p) l ->
  0 <= FinalInvoiceDetail.totalPaid l.
Proof.
  induction 1 as [|p l Hp _ IH].
  - rewrite totalPaid_nil. lra.
  - rewrite totalPaid_cons. lra.
Qed.

Lemma totalPaid_pos (l : list InvoicePayment.t) :
  l <> [] ->
  Forall (fun p => 0 < InvoicePayment.amount p) l ->
  0 < FinalInvoiceDetail.totalPaid l.
Proof.
  intros Hne Hall. destruct Hall as [|p l Hp Hl]; [congruence|].
  rewrite totalPaid_cons. pose proof (totalPaid_nonneg l Hl). lra.
Qed.

(** ** Status transitions of the detail page *)

Lemma handleUpdateStatus_loaded (status0 : string)
    (additionalData : FinalInvoiceDetail.UpdateData)
    (page : FinalInvoiceDetail.Page) (inv : FinalInvoice.t) :
  JS.truthy_ostr (FinalInvoiceDetail.id page) = true ->
  FinalInvoiceDetail.invoice page = Some inv ->
  FinalInvoiceDetail.handleUpdateStatus status0 additionalData page
  = FinalInvoiceDetail.statusUpdateMutation_mutate
      (FinalInvoiceDetail.updateData_of status0 additionalData inv
         (FinalInvoiceDetail.payments page))
      page.
Proof.
  intros Hid Hinv. unfold FinalInvoiceDetail.handleUpdateStatus.
  now rewrite Hinv, Hid.
Qed.

(** Without an invoice, or without the route parameter, nothing is sent. *)
Lemma handleUpdateStatus_not_loaded (status0 : string)
    (additionalData : FinalInvoiceDetail.UpdateData)
    (page : FinalInvoiceDetail.Page) :
  FinalInvoiceDetail.invoice page = None
  \/ JS.truthy_ostr (FinalInvoiceDetail.id page) = false ->
  FinalInvoiceDetail.handleUpdateStatus status0 additionalData page = page.
Proof.
  unfold FinalInvoiceDetail.handleUpdateStatus.
  intros [H|H]; rewrite H; [reflexivity|].
  now destruct (FinalInvoiceDetail.invoice page).
Qed.

Lemma revert_updateData (inv : FinalInvoice.t) (payments : list InvoicePayment.t) :
  FinalInvoiceDetail.updateData_of "unpaid" FinalInvoiceDetail.no_additionalData
    inv payments
  = if JS.gt (FinalInvoiceDetail.totalPaid payments) 0 then
      {| FinalInvoiceDetail.status := Some "unpaid";
         FinalInvoiceDetail.payment_date := None;
         FinalInvoiceDetail.amount_paid :=
           Some (FinalInvoiceDetail.totalPaid payments);
         FinalInvoiceDetail.client_debt :=
           Some (Qmax 0 (FinalInvoice.total inv
                         - FinalInvoiceDetail.totalPaid payments));
         FinalInvoiceDetail.paymentdate := None |}
    else
      {| FinalInvoiceDetail.status := Some "unpaid";
         FinalInvoiceDetail.payment_date := None;
         FinalInvoiceDetail.amount_paid := Some 0;
         FinalInvoiceDetail.client_debt := Some (FinalInvoice.total inv);
         FinalInvoiceDetail.paymentdate := Some None |}.
Proof. reflexivity. Qed.

Section Revert.

(** The page of a loaded invoice. *)
Variable page : FinalInvoiceDetail.Page.
Variable inv : FinalInvoice.t.
Hypothesis Hid : JS.truthy_ostr (FinalInvoiceDetail.id page) = true.
Hypothesis Hinv : FinalInvoiceDetail.invoice page = Some inv.

Lemma revert_payments :
  FinalInvoiceDetail.payments (FinalInvoiceDetail.revert_onClick page)
  = FinalInvoiceDetail.payments page.
Proof.
  unfold FinalInvoiceDetail.revert_onClick.
  now rewrite (handleUpdateStatus_loaded _ _ _ _ Hid Hinv).
Qed.

(** The row the revert leaves. *)
Lemma revert_result :
  let paid := FinalInvoiceDetail.totalPaid (FinalInvoiceDetail.payments page) in
  exists inv',
    FinalInvoiceDetail.invoice (FinalInvoiceDetail.revert_onClick page) = Some inv' /\
    FinalInvoice.status inv' = "unpaid" /\
    FinalInvoice.total inv' = FinalInvoice.total inv /\
    (0 < paid ->
     FinalInvoice.amount_paid inv' = Some paid /\
     FinalInvoice.client_debt inv'
     = Some (Qmax 0 (FinalInvoice.total inv - paid))) /\
    (paid <= 0 ->
     FinalInvoice.amount_paid inv' = Some 0 /\
     FinalInvoice.client_debt inv' = Some (FinalInvoice.total inv)).
Proof.
  intros paid.
  unfold FinalInvoiceDetail.revert_onClick.
  rewrite (handleUpdateStatus_loaded _ _ _ _ Hid Hinv), revert_updateData.
  fold paid.
  unfold FinalInvoiceDetail.statusUpdateMutation_mutate; rewrite Hinv; simpl.
  eexists; split; [reflexivity|].
  destruct (JS.gt paid 0) eqn:E; simpl.
  - apply gt_true in E. repeat split; try reflexivity; intros; lra.
  - apply gt_false in E. repeat split; try reflexivity; intros; lra.
Qed.

(** C2, as the page does it.  Reverting a loaded invoice to unpaid keeps
    the recorded payments and stores the status "unpaid".  When at least
    one payment exists (each of a positive amount, so that their sum is
    positive) [amount_paid] becomes the sum of the payments and
    [client_debt] becomes [max(0, total - sum)].  When no payment exists,
    and whenever the sum is not positive, [amount_paid] becomes 0 and
    [client_debt] becomes the invoice total. *)
Theorem revert_keeps_payments_and_recomputes :
  let payments := FinalInvoiceDetail.payments page in
  let paid := FinalInvoiceDetail.totalPaid payments in
  FinalInvoiceDetail.payments (FinalInvoiceDetail.revert_onClick page) = payments /\
  exists inv',
    FinalInvoiceDetail.invoice (FinalInvoiceDetail.revert_onClick page) = Some inv' /\
    FinalInvoice.status inv' = "unpaid" /\
    FinalInvoice.total inv' = FinalInvoice.total inv /\
    (payments <> [] ->
     Forall (fun p => 0 < InvoicePayment.amount p) payments ->
     FinalInvoice.amount_paid inv' = Some paid /\
     FinalInvoice.client_debt inv'
     = Some (Qmax 0 (FinalInvoice.total inv - paid))) /\
    (0 < paid ->
     FinalInvoice.amount_paid inv' = Some paid /\
     FinalInvoice.client_debt inv'
     = Some (Qmax 0 (FinalInvoice.total inv - paid))) /\
    (payments = [] ->
     FinalInvoice.amount_paid inv' = Some 0 /\
     FinalInvoice.client_debt inv' = Some (FinalInvoice.total inv)) /\
    (paid <= 0 ->
     FinalInvoice.amount_paid inv' = Some 0 /\
     FinalInvoice.client_debt inv' = Some (FinalInvoice.total inv)).
Proof.
  intros payments paid. split; [apply revert_payments|].
  destruct revert_result as (inv' & Hi & Hs & Ht & Hpos & Hzero).
  exists inv'. repeat (split; [assumption|]).
  split; [|split; [|split]].
  - intros Hne Hall. apply Hpos. now apply totalPaid_pos.
  - exact Hpos.
  - intros Hnil. apply Hzero. fold payments. rewrite Hnil, totalPaid_nil. lra.
  - exact Hzero.
Qed.

End Revert.

Lemma revert_keeps_payments_and_recomputes_witness :
  let page :=
    sample_page (sample_invoice "partially_paid" 1000 (Some 400) (Some 600))
      [sample_payment "p1" 400] in
  JS.truthy_ostr (FinalInvoiceDetail.id page) = true /\
  FinalInvoiceDetail.payments (FinalInvoiceDetail.revert_onClick page)
  = [sample_payment "p1" 400] /\
  option_map FinalInvoice.status
    (FinalInvoiceDetail.invoice (FinalInvoiceDetail.revert_onClick page))
  = Some "unpaid" /\
  option_map FinalInvoice.amount_paid
    (FinalInvoiceDetail.invoice (FinalInvoiceDetail.revert_onClick page))
  = Some (Some (FinalInvoiceDetail.totalPaid [sample_payment "p1" 400])).
Proof.
  split; [reflexivity|].
  destruct (revert_keeps_payments_and_recomputes
              (sample_page
                 (sample_invoice "partially_paid" 1000 (Some 400) (Some 600))
                 [sample_payment "p1" 400])
              _ eq_refl eq_refl) as (Hp & inv' & Hi & Hs & _ & _ & Hpos & _).
  split; [exact Hp|].
  rewrite Hi; simpl. rewrite Hs. split; [reflexivity|].
  now destruct (Hpos eq_refl) as [-> _].
Defined.

(** C2 as stated fails: reverting an invoice of total 1000 that has no
    payment leaves [client_debt] at 1000, not at 0. *)
Lemma revert_without_payments_keeps_debt :
  let page := sample_page (sample_invoice "paid" 1000 (Some 1000) (Some 0)) [] in
  FinalInvoiceDetail.payments page = [] /\
  option_map FinalInvoice.client_debt
    (FinalInvoiceDetail.invoice (FinalInvoiceDetail.revert_onClick page))
  = Some (Some 1000) /\
  ~ 1000 == 0.
Proof.
  split; [reflexivity|]. split; [reflexivity|]. discriminate.
Qed.

(** ** Marking an invoice as paid *)

Lemma markPaid_updateData (today : string) (inv : FinalInvoice.t)
    (payments : list InvoicePayment.t) :
  FinalInvoiceDetail.updateData_of "paid"
    {| FinalInvoiceDetail.status := None;
       FinalInvoiceDetail.payment_date := Some today;
       FinalInvoiceDetail.amount_paid := Some (FinalInvoice.total inv);
       FinalInvoiceDetail.client_debt := Some 0;
       FinalInvoiceDetail.paymentdate := None |}
    inv payments
  = FinalInvoiceDetail.markAsPaid_data today inv.
Proof.
  unfold FinalInvoiceDetail.updateData_of; simpl.
  now destruct (JS.truthy (FinalInvoice.total inv)).
Qed.

Lemma handleMarkAsPaid_loaded (today : string) (page : FinalInvoiceDetail.Page)
    (inv : FinalInvoice.t) :
  JS.truthy_ostr (FinalInvoiceDetail.id page) = true ->
  FinalInvoiceDetail.invoice page = Some inv ->
  FinalInvoiceDetail.handleMarkAsPaid today page
  = {| FinalInvoiceDetail.id := FinalInvoiceDetail.id page;
       FinalInvoiceDetail.invoice :=
         Some (FinalInvoiceDetail.updateFinalInvoice
                 (FinalInvoiceDetail.markAsPaid_data today inv) inv);
       FinalInvoiceDetail.payments := FinalInvoiceDetail.payments page |}.
Proof.
  intros Hid Hinv. unfold FinalInvoiceDetail.handleMarkAsPaid. rewrite Hinv.
  rewrite (handleUpdateStatus_loaded _ _ _ _ Hid Hinv), markPaid_updateData.
  unfold FinalInvoiceDetail.statusUpdateMutation_mutate. now rewrite Hinv.
Qed.

Lemma markAsPaid_onClick_loaded (today : string) (page : FinalInvoiceDetail.Page)
    (inv : FinalInvoice.t) :
  FinalInvoiceDetail.invoice page = Some inv ->
  FinalInvoiceDetail.markAsPaid_onClick today page
  = {| FinalInvoiceDetail.id := FinalInvoiceDetail.id page;
       FinalInvoiceDetail.invoice :=
         Some (FinalInvoiceDetail.updateFinalInvoice
                 (FinalInvoiceDetail.markAsPaid_data today inv) inv);
       FinalInvoiceDetail.payments := FinalInvoiceDetail.payments page |}.
Proof.
  intros Hinv. unfold FinalInvoiceDetail.markAsPaid_onClick. rewrite Hinv.
  unfold FinalInvoiceDetail.statusUpdateMutation_mutate. now rewrite Hinv.
Qed.

(** C8.  Marking a loaded invoice as paid, through [handleMarkAsPaid] or
    through the confirm button of the dialog, stores the status "paid",
    [amount_paid] equal to the invoice total and [client_debt] 0.  Doing it
    again changes nothing: [amount_paid] is still the total.  The invoice
    is then shown as "paid" and the mark-as-paid action is no longer
    offered. *)
Theorem mark_paid_sets_total_and_is_idempotent (today : string)
    (page : FinalInvoiceDetail.Page) (inv : FinalInvoice.t)
    (Hid : JS.truthy_ostr (FinalInvoiceDetail.id page) = true)
    (Hinv : FinalInvoiceDetail.invoice page = Some inv) :
  let page1 := FinalInvoiceDetail.handleMarkAsPaid today page in
  FinalInvoiceDetail.markAsPaid_onClick today page = page1 /\
  FinalInvoiceDetail.handleMarkAsPaid today page1 = page1 /\
  FinalInvoiceDetail.markAsPaid_onClick today page1 = page1 /\
  exists inv1,
    FinalInvoiceDetail.invoice page1 = Some inv1 /\
    FinalInvoice.status inv1 = "paid" /\
    FinalInvoice.total inv1 = FinalInvoice.total inv /\
    FinalInvoice.amount_paid inv1 = Some (FinalInvoice.total inv) /\
    FinalInvoice.client_debt inv1 = Some 0 /\
    FinalInvoiceDetail.displayedStatus inv1 (FinalInvoiceDetail.payments page1)
    = "paid" /\
    forall canEdit,
      FinalInvoiceDetail.markAsPaidOffered canEdit
        (FinalInvoiceDetail.displayedStatus inv1
           (FinalInvoiceDetail.payments page1)) = false.
Proof.
  intros page1. subst page1.
  rewrite (handleMarkAsPaid_loaded today page inv Hid Hinv).
  set (inv1 := FinalInvoiceDetail.updateFinalInvoice
                 (FinalInvoiceDetail.markAsPaid_data today inv) inv).
  assert (Hshown : forall payments,
             FinalInvoiceDetail.displayedStatus inv1 payments = "paid").
  { intros payments. unfold FinalInvoiceDetail.displayedStatus.
    rewrite (summary_of_stored inv1 payments (FinalInvoice.total inv) 0)
      by reflexivity.
    apply computedStatus_paid. simpl. lra. }
  split; [now apply markAsPaid_onClick_loaded|].
  set (page1 := {| FinalInvoiceDetail.id := FinalInvoiceDetail.id page;
                   FinalInvoiceDetail.invoice := Some inv1;
                   FinalInvoiceDetail.payments := FinalInvoiceDetail.payments page |}).
  split; [now rewrite (handleMarkAsPaid_loaded today page1 inv1 Hid eq_refl)|].
  split; [now rewrite (markAsPaid_onClick_loaded today page1 inv1 eq_refl)|].
  exists inv1. repeat (split; [reflexivity|]).
  split; [apply Hshown|].
  intros canEdit. now rewrite Hshown.
Qed.

Lemma mark_paid_sets_total_and_is_idempotent_witness :
  let page := sample_page (sample_invoice "unpaid" 1000 (Some 0) (Some 1000)) [] in
  let page1 := FinalInvoiceDetail.handleMarkAsPaid "2025-01-03" page in
  JS.truthy_ostr (FinalInvoiceDetail.id page) = true /\
  FinalInvoiceDetail.handleMarkAsPaid "2025-01-03" page1 = page1 /\
  option_map FinalInvoice.amount_paid (FinalInvoiceDetail.invoice page1)
  = Some (Some 1000).
Proof.
  split; [reflexivity|].
  destruct (mark_paid_sets_total_and_is_idempotent "2025-01-03"
              (sample_page (sample_invoice "unpaid" 1000 (Some 0) (Some 1000)) [])
              _ eq_refl eq_refl)
    as (_ & Hidem & _ & inv1 & Hi & _ & _ & Ha & _).
  split; [exact Hidem|].
  rewrite Hi; simpl. now rewrite Ha.
Defined.

(** ** The balance of a final invoice *)







(** ** Binary64 arithmetic *)

Lemma Qfloor_unique (x : Q) (z : Z) :
  inject_Z z <= x -> x < inject_Z (z + 1) -> Qfloor x = z.
Proof.
  intros Hle Hlt.
  pose proof (Qfloor_le x) as H1. pose proof (Qlt_floor x) as H2.
  assert (Ha : inject_Z z < inject_Z (Qfloor x + 1)) by lra.
  assert (Hb : inject_Z (Qfloor x) < inject_Z (z + 1)) by lra.
  rewrite <- Zlt_Qlt in Ha, Hb. lia.
Qed.

(** *** Powers of two and the binary logarithm *)


Lemma pow2_pos (e : Z) : 0 < Binary64.pow2 e.
Proof. apply Qpower_0_lt. reflexivity. Qed.

Lemma pow2_plus (a b : Z) : Binary64.pow2 (a + b) == Binary64.pow2 a * Binary64.pow2 b.
Proof. apply Qpower_plus. discriminate. Qed.

Lemma pow2_minus (a b : Z) : Binary64.pow2 (a - b) == Binary64.pow2 a / Binary64.pow2 b.
Proof. apply Qpower_minus. discriminate. Qed.

Lemma pow2_le (a b : Z) : (a <= b)%Z -> Binary64.pow2 a <= Binary64.pow2 b.
Proof. intros H. apply Qpower_le_compat_l; [exact H | discriminate]. Qed.

Lemma pow2_lt (a b : Z) : (a < b)%Z -> Binary64.pow2 a < Binary64.pow2 b.
Proof. intros H. apply Qpower_lt_compat_l; [exact H | reflexivity]. Qed.

Lemma pow2_lt_inv (a b : Z) : Binary64.pow2 a < Binary64.pow2 b -> (a < b)%Z.
Proof. intros H. apply (Qpower_lt_compat_l_inv 2); [exact H | reflexivity]. Qed.

Lemma pow2_Z (e : Z) : (0 <= e)%Z -> Binary64.pow2 e == inject_Z (2 ^ e).
Proof. intros H. unfold Binary64.pow2. now rewrite Zpower_Qpower. Qed.

Lemma pow2_succ (e : Z) : Binary64.pow2 (e + 1) == 2 * Binary64.pow2 e.
Proof. rewrite pow2_plus. change (Binary64.pow2 1) with 2. ring. Qed.

Lemma Qdiv_lt_cross (n d x b : Q) :
  0 < d -> 0 < b -> n * b < x * d -> n / d < x / b.
Proof.
  intros Hd Hb H. apply Qlt_shift_div_r; [exact Hd|].
  assert (E : x / b * d == (x * d) / b) by (field; lra). rewrite E.
  apply Qlt_shift_div_l; [exact Hb | exact H].
Qed.

Lemma Qdiv_le_cross (n d x b : Q) :
  0 < d -> 0 < b -> x * d <= n * b -> x / b <= n / d.
Proof.
  intros Hd Hb H. apply Qle_shift_div_l; [exact Hd|].
  assert (E : x / b * d == (x * d) / b) by (field; lra). rewrite E.
  apply Qle_shift_div_r; [exact Hb | exact H].
Qed.

Lemma Qabs_Qmake (x : Q) :
  Qabs x == inject_Z (Z.abs (Qnum x)) / inject_Z (Z.pos (Qden x)).
Proof.
  destruct x as [n d]. unfold Qabs. cbn [Qnum Qden].
  rewrite (Qmake_Qdiv (Z.abs n) d). reflexivity.
Qed.

(** [Binary64.ilog2 x] is the integer part of the binary logarithm of [|x|]. *)
Lemma ilog2_spec (x : Q) :
  ~ x == 0 -> Binary64.pow2 (Binary64.ilog2 x) <= Qabs x /\ Qabs x < Binary64.pow2 (Binary64.ilog2 x + 1).
Proof.
  intros Hx. unfold Binary64.ilog2.
  set (n := Z.abs (Qnum x)). set (d := Z.pos (Qden x)).
  assert (Hn : (0 < n)%Z).
  { subst n. destruct x as [[|p|p] q]; cbn; try lia. exfalso. apply Hx. reflexivity. }
  assert (Hd : (0 < d)%Z) by (subst d; lia).
  pose proof (Z.log2_spec n Hn) as [Hn1 Hn2].
  pose proof (Z.log2_spec d Hd) as [Hd1 Hd2].
  pose proof (Z.log2_nonneg n) as Ha. pose proof (Z.log2_nonneg d) as Hb.
  set (a := Z.log2 n) in *. set (b := Z.log2 d) in *.
  assert (Habs : Qabs x == inject_Z n / inject_Z d) by apply Qabs_Qmake.
  assert (HdQ : 0 < inject_Z d) by (change 0 with (inject_Z 0); now rewrite <- Zlt_Qlt).
  assert (Pa : Binary64.pow2 a == inject_Z (2 ^ a)) by now apply pow2_Z.
  assert (Pb : Binary64.pow2 b == inject_Z (2 ^ b)) by now apply pow2_Z.
  assert (Pa1 : 2 * Binary64.pow2 a == inject_Z (2 ^ Z.succ a)).
  { rewrite <- pow2_succ. apply pow2_Z. lia. }
  assert (Pb1 : 2 * Binary64.pow2 b == inject_Z (2 ^ Z.succ b)).
  { rewrite <- pow2_succ. apply pow2_Z. lia. }
  rewrite Zle_Qle in Hn1, Hd1. rewrite Zlt_Qlt in Hn2, Hd2.
  rewrite <- Pa in Hn1. rewrite <- Pb in Hd1. rewrite <- Pa1 in Hn2. rewrite <- Pb1 in Hd2.
  pose proof (pow2_pos a) as Qa. pose proof (pow2_pos b) as Qb.
  clear Pa Pb Pa1 Pb1.
  set (N := inject_Z n) in *. set (D := inject_Z d) in *.
  destruct (Qle_bool (Binary64.pow2 (a - b)) (Qabs x)) eqn:E.
  - apply Qle_bool_iff in E. split; [exact E|].
    rewrite Habs. replace (a - b + 1)%Z with (a - b + 1)%Z by lia.
    rewrite pow2_succ, pow2_minus.
    assert (E2 : 2 * (Binary64.pow2 a / Binary64.pow2 b) == (2 * Binary64.pow2 a) / Binary64.pow2 b) by (field; lra).
    rewrite E2. apply Qdiv_lt_cross; [exact HdQ | exact Qb |].
    set (A := Binary64.pow2 a) in *. set (B := Binary64.pow2 b) in *. nra.
  - assert (E' : ~ Binary64.pow2 (a - b) <= Qabs x).
    { intros H. apply Qle_bool_iff in H. congruence. }
    apply Qnot_le_lt in E'. split.
    + rewrite Habs.
      replace (a - b - 1)%Z with (a - (b + 1))%Z by lia.
      rewrite pow2_minus, pow2_succ.
      apply Qdiv_le_cross; [exact HdQ | pose proof Qb; lra |].
      set (A := Binary64.pow2 a) in *. set (B := Binary64.pow2 b) in *. nra.
    + now replace (a - b - 1 + 1)%Z with (a - b)%Z by lia.
Qed.

Lemma ilog2_unique (x : Q) (e : Z) :
  Binary64.pow2 e <= Qabs x -> Qabs x < Binary64.pow2 (e + 1) -> Binary64.ilog2 x = e.
Proof.
  intros H1 H2.
  assert (Hx : ~ x == 0).
  { intros E. rewrite E in H1. pose proof (pow2_pos e). cbn in H1. lra. }
  destruct (ilog2_spec x Hx) as [S1 S2].
  assert (A : (Binary64.ilog2 x < e + 1)%Z) by (apply pow2_lt_inv; lra).
  assert (B : (e < Binary64.ilog2 x + 1)%Z) by (apply pow2_lt_inv; lra).
  lia.
Qed.

Lemma ilog2_le (x y : Q) :
  ~ x == 0 -> Qabs x <= Qabs y -> (Binary64.ilog2 x <= Binary64.ilog2 y)%Z.
Proof.
  intros Hx Hle.
  assert (Hy : ~ y == 0).
  { intros E. rewrite E in Hle. cbn in Hle.
    apply Qabs_Qle_condition in Hle. apply Hx. lra. }
  destruct (ilog2_spec x Hx) as [S1 _]. destruct (ilog2_spec y Hy) as [_ S2].
  assert (A : (Binary64.ilog2 x < Binary64.ilog2 y + 1)%Z) by (apply pow2_lt_inv; lra).
  lia.
Qed.

(** *** Rounding to the nearest integer, ties to even *)

Lemma nearest_even_spec (x : Q) :
  let m := Binary64.nearest_even x in
  (inject_Z m - (1 # 2) < x /\ x < inject_Z m + (1 # 2)) \/
  (x == inject_Z m + (1 # 2) /\ Z.even m = true) \/
  (x == inject_Z m - (1 # 2) /\ Z.even m = true).
Proof.
  unfold Binary64.nearest_even.
  pose proof (Qfloor_le x) as H1. pose proof (Qlt_floor x) as H2.
  rewrite inject_Z_plus in H2. change (inject_Z 1) with 1 in H2.
  destruct (Qcompare (x - inject_Z (Qfloor x)) (1 # 2)) eqn:E.
  - apply Qeq_alt in E. destruct (Z.even (Qfloor x)) eqn:Ev.
    + right; left. split; [lra | exact Ev].
    + right; right. split.
      * rewrite inject_Z_plus. change (inject_Z 1) with 1. lra.
      * rewrite Z.even_add, Ev. reflexivity.
  - apply Qlt_alt in E. left. lra.
  - apply Qgt_alt in E. left.
    rewrite inject_Z_plus. change (inject_Z 1) with 1. lra.
Qed.

Lemma nearest_even_char (x : Q) (m : Z) :
  (inject_Z m - (1 # 2) < x /\ x < inject_Z m + (1 # 2)) \/
  (x == inject_Z m + (1 # 2) /\ Z.even m = true) \/
  (x == inject_Z m - (1 # 2) /\ Z.even m = true) ->
  Binary64.nearest_even x = m.
Proof.
  intros H. pose proof (nearest_even_spec x) as S. cbv zeta in S.
  set (k := Binary64.nearest_even x) in *.
  assert (Hk : forall a b : Z, inject_Z a < inject_Z b + 1 -> (a <= b)%Z).
  { intros a b Hab. change 1 with (inject_Z 1) in Hab.
    rewrite <- inject_Z_plus, <- Zlt_Qlt in Hab. lia. }
  assert (Hodd : forall a : Z, Z.even a = true -> Z.even (a + 1) = true -> False).
  { intros a Ha Hb. rewrite Z.even_add, Ha in Hb. discriminate. }
  destruct (Z.lt_trichotomy k m) as [Hlt|[Heq|Hgt]]; [exfalso|exact Heq|exfalso].
  - assert (Hq : inject_Z k + 1 <= inject_Z m).
    { change 1 with (inject_Z 1). rewrite <- inject_Z_plus, <- Zle_Qle. lia. }
    destruct S as [[S1 S2]|[[S1 S2]|[S1 S2]]];
      destruct H as [[T1 T2]|[[T1 T2]|[T1 T2]]]; try lra.
    assert (Em : m = (k + 1)%Z).
    { assert (inject_Z m < inject_Z (k + 1) + 1).
      { rewrite inject_Z_plus. change (inject_Z 1) with 1. lra. }
      apply Hk in H. lia. }
    subst m. now apply (Hodd k).
  - assert (Hq : inject_Z m + 1 <= inject_Z k).
    { change 1 with (inject_Z 1). rewrite <- inject_Z_plus, <- Zle_Qle. lia. }
    destruct S as [[S1 S2]|[[S1 S2]|[S1 S2]]];
      destruct H as [[T1 T2]|[[T1 T2]|[T1 T2]]]; try lra.
    assert (Em : k = (m + 1)%Z).
    { assert (inject_Z k < inject_Z (m + 1) + 1).
      { rewrite inject_Z_plus. change (inject_Z 1) with 1. lra. }
      apply Hk in H. lia. }
    subst k. rewrite Em in S2. now apply (Hodd m).
Qed.

Lemma nearest_even_bounds (x : Q) :
  x - (1 # 2) <= inject_Z (Binary64.nearest_even x) /\
  inject_Z (Binary64.nearest_even x) <= x + (1 # 2).
Proof.
  destruct (nearest_even_spec x) as [[S1 S2]|[[S1 S2]|[S1 S2]]]; lra.
Qed.

Lemma nearest_even_comp (x y : Q) : x == y -> Binary64.nearest_even x = Binary64.nearest_even y.
Proof.
  intros E. apply nearest_even_char.
  destruct (nearest_even_spec y) as [[S1 S2]|[[S1 S2]|[S1 S2]]].
  - left. lra.
  - right; left. split; [lra | exact S2].
  - right; right. split; [lra | exact S2].
Qed.

Lemma nearest_even_Z (n : Z) : Binary64.nearest_even (inject_Z n) = n.
Proof. apply nearest_even_char. left. lra. Qed.

Lemma nearest_even_opp (x : Q) : Binary64.nearest_even (- x) = (- Binary64.nearest_even x)%Z.
Proof.
  apply nearest_even_char. rewrite inject_Z_opp, Z.even_opp.
  destruct (nearest_even_spec x) as [[S1 S2]|[[S1 S2]|[S1 S2]]].
  - left. lra.
  - right; right. split; [lra | exact S2].
  - right; left. split; [lra | exact S2].
Qed.

Lemma nearest_even_le (x y : Q) :
  x <= y -> (Binary64.nearest_even x <= Binary64.nearest_even y)%Z.
Proof.
  intros Hle.
  destruct (Z_le_gt_dec (Binary64.nearest_even x) (Binary64.nearest_even y)) as [H|H]; [exact H|].
  exfalso.
  assert (Hq : inject_Z (Binary64.nearest_even y) + 1 <= inject_Z (Binary64.nearest_even x)).
  { change 1 with (inject_Z 1). rewrite <- inject_Z_plus, <- Zle_Qle. lia. }
  pose proof (nearest_even_bounds x) as [_ Bx].
  pose proof (nearest_even_bounds y) as [By _].
  assert (E : x == y) by lra.
  apply nearest_even_comp in E. lia.
Qed.

(** *** The rounded value: error and order *)

Lemma rnd_zero (x : Q) : x == 0 -> Binary64.rnd x == 0.
Proof.
  intros E. unfold Binary64.rnd.
  assert (Ez : x / Binary64.pow2 (Binary64.exponent x) == inject_Z 0).
  { set (p := Binary64.pow2 (Binary64.exponent x)). rewrite E. unfold Qdiv.
    change (inject_Z 0) with 0. ring. }
  rewrite (nearest_even_comp _ _ Ez), nearest_even_Z.
  change (inject_Z 0) with 0. ring.
Qed.

Lemma ilog2_comp (x y : Q) : ~ x == 0 -> x == y -> Binary64.ilog2 y = Binary64.ilog2 x.
Proof.
  intros Hx E. destruct (ilog2_spec x Hx) as [S1 S2].
  apply ilog2_unique; now rewrite <- E.
Qed.

Lemma exponent_comp (x y : Q) : ~ x == 0 -> x == y -> Binary64.exponent y = Binary64.exponent x.
Proof. intros Hx E. unfold Binary64.exponent. now rewrite (ilog2_comp x y Hx E). Qed.

Lemma rnd_comp (x y : Q) : x == y -> Binary64.rnd x == Binary64.rnd y.
Proof.
  intros E. destruct (Qeq_dec x 0) as [Z|NZ].
  - rewrite (rnd_zero x Z). symmetry. apply rnd_zero. now rewrite <- E.
  - unfold Binary64.rnd. rewrite (exponent_comp x y NZ E).
    set (p := Binary64.pow2 (Binary64.exponent x)).
    assert (Ez : x / p == y / p) by now rewrite E.
    now rewrite (nearest_even_comp _ _ Ez).
Qed.

Lemma rnd_opp (x : Q) : Binary64.rnd (- x) == - Binary64.rnd x.
Proof.
  destruct (Qeq_dec x 0) as [Z|NZ].
  - rewrite (rnd_zero x Z). rewrite rnd_zero; [reflexivity|]. rewrite Z. reflexivity.
  - assert (El : Binary64.ilog2 (- x) = Binary64.ilog2 x).
    { destruct (ilog2_spec x NZ) as [S1 S2].
      apply ilog2_unique; now rewrite Qabs_opp. }
    unfold Binary64.rnd, Binary64.exponent. rewrite El.
    set (p := Binary64.pow2 (Z.max (Binary64.ilog2 x - 52) (-1074))).
    assert (Ez : - x / p == - (x / p)).
    { unfold Qdiv. ring. }
    rewrite (nearest_even_comp _ _ Ez), nearest_even_opp, inject_Z_opp. ring.
Qed.

(** The absolute error is at most half a unit of the last place. *)
Lemma rnd_error (x : Q) :
  x - Binary64.pow2 (Binary64.exponent x) / 2 <= Binary64.rnd x /\ Binary64.rnd x <= x + Binary64.pow2 (Binary64.exponent x) / 2.
Proof.
  unfold Binary64.rnd. set (p := Binary64.pow2 (Binary64.exponent x)).
  assert (Hp : 0 < p) by apply pow2_pos.
  pose proof (nearest_even_bounds (x / p)) as [B1 B2].
  set (m := inject_Z (Binary64.nearest_even (x / p))) in *.
  assert (E : x == x / p * p) by (field; lra).
  set (z := x / p) in *.
  assert (E2 : p / 2 == p * (1 # 2)) by (field; lra).
  rewrite E2. split; nra.
Qed.


(** In the normal range the relative error is at most [2^-53]. *)
Lemma rnd_relative_error (x : Q) :
  Binary64.pow2 (-1022) <= Qabs x ->
  x - Qabs x * Binary64.eps <= Binary64.rnd x /\ Binary64.rnd x <= x + Qabs x * Binary64.eps.
Proof.
  intros Hx.
  assert (NZ : ~ x == 0).
  { intros E. rewrite E in Hx. pose proof (pow2_pos (-1022)). cbn in Hx. lra. }
  destruct (ilog2_spec x NZ) as [S1 S2].
  assert (Hl : (-1022 < Binary64.ilog2 x + 1)%Z) by (apply pow2_lt_inv; lra).
  pose proof (rnd_error x) as [E1 E2].
  assert (Ee : Binary64.exponent x = (Binary64.ilog2 x - 52)%Z) by (unfold Binary64.exponent; lia).
  rewrite Ee in E1, E2.
  assert (Ep : Binary64.pow2 (Binary64.ilog2 x - 52) / 2 == Binary64.pow2 (Binary64.ilog2 x) * Binary64.eps).
  { replace (Binary64.ilog2 x - 52)%Z with (Binary64.ilog2 x + (-52))%Z by lia.
    rewrite pow2_plus. unfold Binary64.eps.
    change (Binary64.pow2 (-52)) with (1 # 4503599627370496).
    change (Binary64.pow2 (-53)) with (1 # 9007199254740992). field. }
  rewrite Ep in E1, E2.
  assert (He : 0 < Binary64.eps) by apply pow2_pos.
  set (a := Qabs x) in *. set (q := Binary64.pow2 (Binary64.ilog2 x)) in *.
  split; nra.
Qed.

Lemma rnd_nonneg (x : Q) : 0 <= x -> 0 <= Binary64.rnd x.
Proof.
  intros Hx. unfold Binary64.rnd. set (p := Binary64.pow2 (Binary64.exponent x)).
  assert (Hp : 0 < p) by apply pow2_pos.
  assert (Hz : 0 <= x / p) by (apply Qle_shift_div_l; [exact Hp | lra]).
  pose proof (nearest_even_le 0 (x / p) Hz) as Hm.
  change 0 with (inject_Z 0) in Hm at 1. rewrite nearest_even_Z in Hm.
  rewrite Zle_Qle in Hm. change (inject_Z 0) with 0 in Hm.
  set (m := inject_Z (Binary64.nearest_even (x / p))) in *. nra.
Qed.

Lemma exponent_le (x y : Q) :
  ~ x == 0 -> Qabs x <= Qabs y -> (Binary64.exponent x <= Binary64.exponent y)%Z.
Proof.
  intros Hx Hle. pose proof (ilog2_le x y Hx Hle). unfold Binary64.exponent. lia.
Qed.

Lemma rnd_le_pos (x y : Q) : 0 < x -> x <= y -> Binary64.rnd x <= Binary64.rnd y.
Proof.
  intros Hx Hle.
  assert (NZx : ~ x == 0) by lra. assert (NZy : ~ y == 0) by lra.
  assert (Ax : Qabs x == x) by (apply Qabs_pos; lra).
  assert (Ay : Qabs y == y) by (apply Qabs_pos; lra).
  assert (Hex : (Binary64.exponent x <= Binary64.exponent y)%Z).
  { apply exponent_le; [exact NZx | lra]. }
  destruct (Z.eq_dec (Binary64.exponent x) (Binary64.exponent y)) as [Ee|Ne].
  - unfold Binary64.rnd. rewrite Ee. set (p := Binary64.pow2 (Binary64.exponent y)).
    assert (Hp : 0 < p) by apply pow2_pos.
    assert (Hz : x / p <= y / p).
    { apply Qmult_le_compat_r; [exact Hle|]. apply Qlt_le_weak, Qinv_lt_0_compat, Hp. }
    apply nearest_even_le in Hz. rewrite Zle_Qle in Hz.
    apply Qmult_le_compat_r; [exact Hz | lra].
  - assert (Hlt : (Binary64.exponent x < Binary64.exponent y)%Z) by lia.
    destruct (ilog2_spec x NZx) as [_ Sx]. destruct (ilog2_spec y NZy) as [Sy _].
    rewrite Ax in Sx. rewrite Ay in Sy.
    assert (Ey : Binary64.exponent y = (Binary64.ilog2 y - 52)%Z) by (unfold Binary64.exponent in *; lia).
    assert (Hl : (Binary64.ilog2 x + 1 <= Binary64.ilog2 y)%Z) by (unfold Binary64.exponent in *; lia).
    set (P := Binary64.pow2 (Binary64.ilog2 y)) in *.
    assert (HxP : x <= P).
    { apply Qle_trans with (Binary64.pow2 (Binary64.ilog2 x + 1)); [lra | now apply pow2_le]. }
    apply Qle_trans with P.
    + unfold Binary64.rnd. set (ex := Binary64.exponent x) in *. set (p := Binary64.pow2 ex).
      assert (Hp : 0 < p) by apply pow2_pos.
      assert (EP : P == inject_Z (2 ^ (Binary64.ilog2 y - ex)) * p).
      { rewrite <- pow2_Z by lia. unfold p. rewrite <- pow2_plus.
        unfold P. now replace (Binary64.ilog2 y - ex + ex)%Z with (Binary64.ilog2 y) by lia. }
      assert (Hz : x / p <= inject_Z (2 ^ (Binary64.ilog2 y - ex))).
      { apply Qle_shift_div_r; [exact Hp | lra]. }
      apply nearest_even_le in Hz. rewrite nearest_even_Z, Zle_Qle in Hz.
      rewrite EP. apply Qmult_le_compat_r; [exact Hz | lra].
    + unfold Binary64.rnd. rewrite Ey. set (p := Binary64.pow2 (Binary64.ilog2 y - 52)).
      assert (Hp : 0 < p) by apply pow2_pos.
      assert (EP : P == inject_Z (2 ^ 52) * p).
      { rewrite <- pow2_Z by lia. unfold p. rewrite <- pow2_plus.
        unfold P. now replace (52 + (Binary64.ilog2 y - 52))%Z with (Binary64.ilog2 y) by lia. }
      assert (Hz : inject_Z (2 ^ 52) <= y / p).
      { apply Qle_shift_div_l; [exact Hp | lra]. }
      apply nearest_even_le in Hz. rewrite nearest_even_Z, Zle_Qle in Hz.
      rewrite EP. apply Qmult_le_compat_r; [exact Hz | lra].
Qed.

(** Rounding keeps the order. *)
Lemma rnd_le (x y : Q) : x <= y -> Binary64.rnd x <= Binary64.rnd y.
Proof.
  intros Hle.
  destruct (Qlt_le_dec 0 x) as [Hx|Hx]; [now apply rnd_le_pos|].
  destruct (Qlt_le_dec y 0) as [Hy|Hy].
  - assert (H : Binary64.rnd (- y) <= Binary64.rnd (- x)) by (apply rnd_le_pos; lra).
    rewrite !rnd_opp in H. lra.
  - pose proof (rnd_nonneg y Hy) as H1.
    assert (H2 : 0 <= Binary64.rnd (- x)) by (apply rnd_nonneg; lra).
    rewrite rnd_opp in H2. lra.
Qed.

(** *** The rounded value is a nearest double *)

Lemma nearest_even_nearest (z : Q) (n : Z) :
  Qabs (inject_Z (Binary64.nearest_even z) - z) <= Qabs (inject_Z n - z).
Proof.
  pose proof (nearest_even_bounds z) as [B1 B2].
  set (m := Binary64.nearest_even z) in *.
  destruct (Z.eq_dec n m) as [->|Hne]; [apply Qle_refl|].
  apply Qle_trans with (1 # 2).
  - apply Qabs_Qle_condition. split; lra.
  - destruct (Z_lt_le_dec n m) as [Hlt|Hge].
    + assert (H : inject_Z n + 1 <= inject_Z m).
      { change 1 with (inject_Z 1). rewrite <- inject_Z_plus, <- Zle_Qle. lia. }
      rewrite Qabs_neg by lra. lra.
    + assert (H : inject_Z m + 1 <= inject_Z n).
      { change 1 with (inject_Z 1). rewrite <- inject_Z_plus, <- Zle_Qle. lia. }
      rewrite Qabs_pos by lra. lra.
Qed.

(** No multiple of the last place is nearer. *)
Lemma rnd_nearest_multiple (x : Q) (n : Z) :
  Qabs (Binary64.rnd x - x)
  <= Qabs (inject_Z n * Binary64.pow2 (Binary64.exponent x) - x).
Proof.
  unfold Binary64.rnd. set (p := Binary64.pow2 (Binary64.exponent x)).
  assert (Hp : 0 < p) by apply pow2_pos.
  pose proof (nearest_even_nearest (x / p) n) as H.
  set (m := inject_Z (Binary64.nearest_even (x / p))) in *.
  assert (E1 : m * p - x == (m - x / p) * p) by (field; lra).
  assert (E2 : inject_Z n * p - x == (inject_Z n - x / p) * p) by (field; lra).
  rewrite E1, E2, !Qabs_Qmult, (Qabs_pos p) by lra.
  apply Qmult_le_compat_r; [exact H | lra].
Qed.

(** The rounded value is a double (exponents unbounded above). *)
Lemma rnd_representable (x : Q) : Binary64.representable (Binary64.rnd x).
Proof.
  destruct (Qeq_dec x 0) as [Z|NZ].
  - exists 0%Z, 0%Z. split; [|split; [split; reflexivity | lia]].
    rewrite (rnd_zero x Z). reflexivity.
  - destruct (ilog2_spec x NZ) as [_ S2].
    set (ex := Binary64.exponent x).
    assert (Hex : (Binary64.ilog2 x - 52 <= ex)%Z /\ (-1074 <= ex)%Z)
      by (unfold ex, Binary64.exponent; lia).
    set (p := Binary64.pow2 ex). assert (Hp : 0 < p) by apply pow2_pos.
    assert (Hz : Qabs (x / p) <= inject_Z (2 ^ 53)).
    { unfold Qdiv. rewrite Qabs_Qmult, (Qabs_pos (/ p))
        by (apply Qlt_le_weak, Qinv_lt_0_compat, Hp).
      apply Qle_shift_div_r; [exact Hp|].
      rewrite <- pow2_Z by lia. unfold p. rewrite <- pow2_plus.
      apply Qle_trans with (Binary64.pow2 (Binary64.ilog2 x + 1)); [lra|].
      apply pow2_le. lia. }
    apply Qabs_Qle_condition in Hz. destruct Hz as [Z1 Z2].
    apply nearest_even_le in Z1, Z2.
    rewrite <- inject_Z_opp, nearest_even_Z in Z1. rewrite nearest_even_Z in Z2.
    unfold Binary64.rnd. fold ex p.
    set (m := Binary64.nearest_even (x / p)) in *.
    destruct (Z.eq_dec m (2 ^ 53)) as [Em|Nm];
      [|destruct (Z.eq_dec m (- 2 ^ 53)) as [Em|Nm']].
    + exists (2 ^ 52)%Z, (ex + 1)%Z. split; [|split; [split; reflexivity | lia]].
      rewrite pow2_succ, Em.
      change (inject_Z (2 ^ 53)) with (2 * inject_Z (2 ^ 52)). unfold p. ring.
    + exists (- 2 ^ 52)%Z, (ex + 1)%Z. split; [|split; [split; reflexivity | lia]].
      rewrite pow2_succ, Em.
      change (inject_Z (- 2 ^ 53)) with (2 * inject_Z (- 2 ^ 52)). unfold p. ring.
    + exists m, ex. split; [reflexivity|]. split; lia.
Qed.

(** No double is nearer to [x] than the rounded value. *)
Lemma rnd_nearest (x y : Q) :
  Binary64.representable y -> Qabs (Binary64.rnd x - x) <= Qabs (y - x).
Proof.
  intros (n & e & Ey & [Hn1 Hn2] & He).
  destruct (Qeq_dec x 0) as [Z|NZ].
  { rewrite (rnd_zero x Z), Z. apply Qabs_nonneg. }
  set (ex := Binary64.exponent x).
  destruct (Z_le_gt_dec ex e) as [Hle|Hgt].
  - assert (E : y == inject_Z (n * 2 ^ (e - ex)) * Binary64.pow2 ex).
    { rewrite Ey, inject_Z_mult, <- pow2_Z by lia.
      rewrite <- Qmult_assoc, <- pow2_plus.
      now replace (e - ex + ex)%Z with e by lia. }
    rewrite E. apply rnd_nearest_multiple.
  - assert (Eex : ex = (Binary64.ilog2 x - 52)%Z)
      by (unfold ex, Binary64.exponent in *; lia).
    destruct (ilog2_spec x NZ) as [S1 _].
    set (T := Binary64.pow2 (Binary64.ilog2 x)) in *.
    assert (ET : T == inject_Z (2 ^ 52) * Binary64.pow2 ex).
    { rewrite <- pow2_Z by lia. rewrite <- pow2_plus. unfold T.
      now replace (52 + ex)%Z with (Binary64.ilog2 x) by lia. }
    assert (ET' : - T == inject_Z (- 2 ^ 52) * Binary64.pow2 ex).
    { rewrite ET. change (inject_Z (- 2 ^ 52)) with (- inject_Z (2 ^ 52)). ring. }
    assert (Hy : - T < y /\ y < T).
    { assert (Hq : 0 < Binary64.pow2 e) by apply pow2_pos.
      assert (Hb : inject_Z (2 ^ 53) * Binary64.pow2 e <= T).
      { rewrite <- pow2_Z by lia. rewrite <- pow2_plus. apply pow2_le. lia. }
      rewrite Zlt_Qlt in Hn1, Hn2.
      change (inject_Z (- 2 ^ 53)) with (- inject_Z (2 ^ 53)) in Hn1.
      rewrite Ey.
      set (N := inject_Z n) in *. set (q := Binary64.pow2 e) in *.
      set (M := inject_Z (2 ^ 53)) in *. split; nra. }
    destruct Hy as [Hy1 Hy2].
    destruct (Qlt_le_dec 0 x) as [Hpos|Hneg].
    + rewrite (Qabs_pos x) in S1 by lra.
      pose proof (rnd_nearest_multiple x (2 ^ 52)) as H.
      fold ex in H. rewrite <- ET in H.
      apply Qle_trans with (Qabs (T - x)); [exact H|].
      rewrite !Qabs_neg by lra. lra.
    + rewrite (Qabs_neg x) in S1 by lra.
      pose proof (rnd_nearest_multiple x (- 2 ^ 52)) as H.
      fold ex in H. rewrite <- ET' in H.
      apply Qle_trans with (Qabs (- T - x)); [exact H|].
      rewrite !Qabs_pos by lra. lra.
Qed.

(** ** The amount field of the payment form *)

(** *** The operations on amounts in range *)

Lemma round_finite (x : Q) :
  Qabs (Binary64.rnd x) < Binary64.pow2 1024 ->
  Binary64.round x = Binary64.Finite (Binary64.rnd x).
Proof.
  intros H. unfold Binary64.round.
  destruct (Qle_bool (Binary64.pow2 1024) (Qabs (Binary64.rnd x))) eqn:E;
    [|reflexivity].
  apply Qle_bool_iff in E. lra.
Qed.

(** A bound that is itself a double bounds the rounded value. *)
Lemma rnd_abs_le (x b : Q) :
  Binary64.rnd b == b -> Qabs x <= b -> Qabs (Binary64.rnd x) <= b.
Proof.
  intros E H. apply Qabs_Qle_condition in H. destruct H as [H1 H2].
  apply Qabs_Qle_condition. split.
  - apply rnd_le in H1. rewrite rnd_opp, E in H1. exact H1.
  - apply rnd_le in H2. rewrite E in H2. exact H2.
Qed.

Lemma rnd_1e15 : Binary64.rnd 1000000000000000 == 1000000000000000.
Proof. vm_compute. reflexivity. Qed.

Lemma rnd_1e13 : Binary64.rnd 10000000000000 == 10000000000000.
Proof. vm_compute. reflexivity. Qed.

Lemma pow2_1024_large : 1000000000000000 < Binary64.pow2 1024.
Proof. vm_compute. reflexivity. Qed.

Lemma pow2_1022_small : Binary64.pow2 (-1022) <= 1 # 200.
Proof. apply Qle_bool_iff. vm_compute. reflexivity. Qed.

Lemma Qabs_scale (v b c : Q) : 0 < c -> Qabs v <= b -> Qabs (v * c) <= b * c.
Proof.
  intros Hc H. apply Qabs_Qle_condition in H. apply Qabs_Qle_condition. nra.
Qed.

Lemma product_in_range (v : Q) :
  Qabs v <= AmountField.max_amount ->
  Qabs (Binary64.rnd (v * 100)) <= 1000000000000000.
Proof.
  intros H. apply rnd_abs_le; [exact rnd_1e15|].
  apply (Qabs_scale v _ 100) in H; [|reflexivity].
  unfold AmountField.max_amount in H.
  assert (E : 10000000000000 * 100 == 1000000000000000) by reflexivity.
  now rewrite E in H.
Qed.

Lemma cents_in_range (v : Q) :
  Qabs v <= AmountField.max_amount ->
  (- 1000000000000000 <= AmountField.cents v <= 1000000000000000)%Z.
Proof.
  intros H. apply product_in_range in H. apply Qabs_Qle_condition in H.
  unfold AmountField.cents.
  pose proof (Qfloor_le (Binary64.rnd (v * 100) + (1 # 2))) as F1.
  pose proof (Qlt_floor (Binary64.rnd (v * 100) + (1 # 2))) as F2.
  set (k := Qfloor (Binary64.rnd (v * 100) + (1 # 2))) in *.
  rewrite inject_Z_plus in F2. change (inject_Z 1) with 1 in F2.
  assert (A : inject_Z k < inject_Z (1000000000000000 + 1)).
  { rewrite inject_Z_plus. change (inject_Z 1) with 1.
    change (inject_Z 1000000000000000) with 1000000000000000. lra. }
  assert (B : inject_Z (- 1000000000000000 - 1) < inject_Z k).
  { change (inject_Z (- 1000000000000000 - 1)) with (- 1000000000000000 - 1). lra. }
  rewrite <- Zlt_Qlt in A, B. lia.
Qed.

Lemma of_cents_in_range (k : Z) :
  (- 1000000000000000 <= k <= 1000000000000000)%Z ->
  Qabs (AmountField.of_cents k) <= AmountField.max_amount.
Proof.
  intros [H1 H2]. unfold AmountField.of_cents, AmountField.max_amount.
  apply rnd_abs_le; [exact rnd_1e13|].
  rewrite Zle_Qle in H1, H2.
  change (inject_Z (- 1000000000000000)) with (- 1000000000000000) in H1.
  change (inject_Z 1000000000000000) with 1000000000000000 in H2.
  apply Qabs_Qle_condition. split.
  - apply Qle_shift_div_l; [reflexivity|]. lra.
  - apply Qle_shift_div_r; [reflexivity|]. lra.
Qed.

(** In range, [Math.round(v * 100) / 100] is the double nearest to the
    whole number of cents that [Math.round] yields. *)
Lemma round2_in_range (v : Q) :
  Qabs v <= AmountField.max_amount ->
  AmountField.round2 (Binary64.Finite v)
  = Binary64.Finite (AmountField.of_cents (AmountField.cents v)).
Proof.
  intros H. unfold AmountField.round2.
  pose proof (product_in_range v H) as Hp.
  pose proof (of_cents_in_range _ (cents_in_range v H)) as Hc.
  cbn [Binary64.mul]. rewrite round_finite
    by (pose proof pow2_1024_large; lra).
  cbn [Binary64.Math_round Binary64.div].
  change (Qeq_bool 100 0) with false. cbv iota.
  fold (AmountField.cents v).
  rewrite round_finite; [reflexivity|].
  fold (AmountField.of_cents (AmountField.cents v)).
  unfold AmountField.max_amount in Hc. pose proof pow2_1024_large. lra.
Qed.

Lemma cents_le (v w : Q) : v <= w -> (AmountField.cents v <= AmountField.cents w)%Z.
Proof.
  intros H. unfold AmountField.cents. apply Qfloor_resp_le.
  assert (H' : v * 100 <= w * 100) by lra.
  apply rnd_le in H'. lra.
Qed.

Lemma cents_comp (v w : Q) : v == w -> AmountField.cents v = AmountField.cents w.
Proof.
  intros E. apply Z.le_antisymm; apply cents_le; lra.
Qed.

Lemma of_cents_le (k j : Z) :
  (k <= j)%Z -> AmountField.of_cents k <= AmountField.of_cents j.
Proof.
  intros H. unfold AmountField.of_cents. apply rnd_le.
  rewrite Zle_Qle in H.
  apply Qmult_le_compat_r; [exact H | discriminate].
Qed.

Lemma cents_bounds (v : Q) :
  inject_Z (AmountField.cents v) - (1 # 2) <= Binary64.rnd (v * 100) /\
  Binary64.rnd (v * 100) < inject_Z (AmountField.cents v) + (1 # 2).
Proof.
  unfold AmountField.cents.
  pose proof (Qfloor_le (Binary64.rnd (v * 100) + (1 # 2))) as F1.
  pose proof (Qlt_floor (Binary64.rnd (v * 100) + (1 # 2))) as F2.
  rewrite inject_Z_plus in F2. change (inject_Z 1) with 1 in F2. lra.
Qed.

Lemma cents_unique (v : Q) (k : Z) :
  inject_Z k - (1 # 2) <= Binary64.rnd (v * 100) ->
  Binary64.rnd (v * 100) < inject_Z k + (1 # 2) ->
  AmountField.cents v = k.
Proof.
  intros H1 H2. unfold AmountField.cents. apply Qfloor_unique.
  - lra.
  - rewrite inject_Z_plus. change (inject_Z 1) with 1. lra.
Qed.

(** A whole number of cents survives the round trip through its double. *)
Lemma cents_of_cents (k : Z) :
  (- 2 ^ 50 <= k <= 2 ^ 50)%Z ->
  AmountField.cents (AmountField.of_cents k) = k.
Proof.
  intros [Hlo Hhi]. unfold AmountField.of_cents.
  set (K := inject_Z k). set (w := Binary64.rnd (K / 100)).
  rewrite Zle_Qle in Hlo, Hhi. fold K in Hlo, Hhi.
  change (inject_Z (- 2 ^ 50)) with (- 1125899906842624) in Hlo.
  change (inject_Z (2 ^ 50)) with 1125899906842624 in Hhi.
  pose proof pow2_1022_small as Hsmall.
  destruct (Z.lt_trichotomy k 0) as [Hneg|[Hz|Hpos]].
  - assert (HK : K <= -1).
    { unfold K. change (-1) with (inject_Z (-1)). rewrite <- Zle_Qle. lia. }
    assert (A1 : Qabs (K / 100) == - (K / 100)).
    { apply Qabs_neg. apply Qle_shift_div_r; [reflexivity | lra]. }
    assert (L1 : K / 100 <= - (1 # 100)).
    { apply Qle_shift_div_r; [reflexivity | lra]. }
    assert (R1 : Binary64.pow2 (-1022) <= Qabs (K / 100)) by lra.
    apply rnd_relative_error in R1. fold w in R1. rewrite A1 in R1.
    change Binary64.eps with (1 # 9007199254740992) in R1.
    assert (A2 : Qabs (w * 100) == - (w * 100)) by (apply Qabs_neg; lra).
    assert (R2 : Binary64.pow2 (-1022) <= Qabs (w * 100)) by lra.
    apply rnd_relative_error in R2. rewrite A2 in R2.
    change Binary64.eps with (1 # 9007199254740992) in R2.
    assert (EK : K == K / 100 * 100) by field.
    apply cents_unique; fold K; lra.
  - subst k. unfold w, K.
    assert (E0 : Binary64.rnd (inject_Z 0 / 100) * 100 == 0).
    { rewrite rnd_zero; reflexivity. }
    apply cents_unique; rewrite (rnd_zero _ E0); change (inject_Z 0) with 0; lra.
  - assert (HK : 1 <= K).
    { unfold K. change 1 with (inject_Z 1). rewrite <- Zle_Qle. lia. }
    assert (L1 : 1 # 100 <= K / 100).
    { apply Qle_shift_div_l; [reflexivity | lra]. }
    assert (A1 : Qabs (K / 100) == K / 100) by (apply Qabs_pos; lra).
    assert (R1 : Binary64.pow2 (-1022) <= Qabs (K / 100)) by lra.
    apply rnd_relative_error in R1. fold w in R1. rewrite A1 in R1.
    change Binary64.eps with (1 # 9007199254740992) in R1.
    assert (A2 : Qabs (w * 100) == w * 100) by (apply Qabs_pos; lra).
    assert (R2 : Binary64.pow2 (-1022) <= Qabs (w * 100)) by lra.
    apply rnd_relative_error in R2. rewrite A2 in R2.
    change Binary64.eps with (1 # 9007199254740992) in R2.
    assert (EK : K == K / 100 * 100) by field.
    apply cents_unique; fold K; lra.
Qed.

(** The error of one rounding, on the whole range. *)
Lemma rnd_error_abs (x : Q) :
  x - (Qabs x * Binary64.eps + Binary64.pow2 (-1075)) <= Binary64.rnd x /\
  Binary64.rnd x <= x + (Qabs x * Binary64.eps + Binary64.pow2 (-1075)).
Proof.
  pose proof (Qabs_nonneg x) as Ha.
  assert (He : 0 < Binary64.eps) by apply pow2_pos.
  pose proof (pow2_pos (-1075)) as Hs.
  destruct (Qeq_dec x 0) as [Z|NZ].
  - rewrite (rnd_zero x Z). rewrite Z.
    assert (E : Qabs 0 * Binary64.eps == 0) by reflexivity.
    rewrite E. lra.
  - destruct (ilog2_spec x NZ) as [S1 _].
    pose proof (rnd_error x) as [E1 E2]. unfold Binary64.exponent in E1, E2.
    destruct (Z.max_spec (Binary64.ilog2 x - 52) (-1074)) as [[_ Em]|[_ Em]];
      rewrite Em in E1, E2.
    + assert (Ep : Binary64.pow2 (-1074) / 2 == Binary64.pow2 (-1075)).
      { change (-1074)%Z with (-1075 + 1)%Z. rewrite pow2_succ. field. }
      rewrite Ep in E1, E2.
      set (a := Qabs x) in *. set (e := Binary64.eps) in *. split; nra.
    + assert (Ep : Binary64.pow2 (Binary64.ilog2 x - 52) / 2
                   == Binary64.pow2 (Binary64.ilog2 x) * Binary64.eps).
      { replace (Binary64.ilog2 x - 52)%Z with (Binary64.ilog2 x + (-52))%Z by lia.
        rewrite pow2_plus. unfold Binary64.eps.
        change (Binary64.pow2 (-52)) with (1 # 4503599627370496).
        change (Binary64.pow2 (-53)) with (1 # 9007199254740992). field. }
      rewrite Ep in E1, E2.
      set (a := Qabs x) in *. set (e := Binary64.eps) in *.
      set (q := Binary64.pow2 (Binary64.ilog2 x)) in *. split; nra.
Qed.

Lemma pow2_1075_small : Binary64.pow2 (-1075) <= 1 # 1000000000000000000000.
Proof. apply Qle_bool_iff. vm_compute. reflexivity. Qed.

(** In range, the rounded amount is within three quarters of a cent of the
    amount: half a cent of rounding to the cent, the rest for the two
    roundings to binary64. *)
Lemma of_cents_close (v : Q) :
  Qabs v <= AmountField.max_amount ->
  v - (3 # 400) < AmountField.of_cents (AmountField.cents v) /\
  AmountField.of_cents (AmountField.cents v) < v + (3 # 400).
Proof.
  intros Hv.
  pose proof (cents_in_range v Hv) as [K1 K2].
  pose proof (cents_bounds v) as [C1 C2].
  pose proof (rnd_error_abs (v * 100)) as [P1 P2].
  unfold AmountField.of_cents.
  pose proof (rnd_error_abs (inject_Z (AmountField.cents v) / 100)) as [W1 W2].
  set (K := inject_Z (AmountField.cents v)) in *.
  set (P := Binary64.rnd (v * 100)) in *.
  set (W := Binary64.rnd (K / 100)) in *.
  assert (A1 : Qabs (v * 100) <= 1000000000000000).
  { apply (Qabs_scale v _ 100) in Hv; [|reflexivity].
    unfold AmountField.max_amount in Hv.
    assert (E : 10000000000000 * 100 == 1000000000000000) by reflexivity.
    now rewrite E in Hv. }
  assert (A2 : Qabs (K / 100) <= 10000000000000).
  { rewrite Zle_Qle in K1, K2. fold K in K1, K2.
    change (inject_Z (- 1000000000000000)) with (- 1000000000000000) in K1.
    change (inject_Z 1000000000000000) with 1000000000000000 in K2.
    apply Qabs_Qle_condition. split.
    - apply Qle_shift_div_l; [reflexivity|]. lra.
    - apply Qle_shift_div_r; [reflexivity|]. lra. }
  pose proof (Qabs_nonneg (v * 100)) as N1.
  pose proof (Qabs_nonneg (K / 100)) as N2.
  pose proof pow2_1075_small as Hs. pose proof (pow2_pos (-1075)) as Hs0.
  change Binary64.eps with (1 # 9007199254740992) in *.
  set (a1 := Qabs (v * 100)) in *. set (a2 := Qabs (K / 100)) in *.
  set (s := Binary64.pow2 (-1075)) in *.
  assert (EK : K == K / 100 * 100) by field.
  set (z := K / 100) in *.
  split; lra.
Qed.

Lemma of_cents_positive (k : Z) : 0 < AmountField.of_cents k <-> (1 <= k)%Z.
Proof.
  split; intros H.
  - destruct (Z_lt_le_dec k 1) as [Hlt|Hge]; [exfalso|exact Hge].
    assert (Hle : (k <= 0)%Z) by lia. apply of_cents_le in Hle.
    assert (E0 : AmountField.of_cents 0 == 0) by (vm_compute; reflexivity).
    lra.
  - apply of_cents_le in H.
    assert (E1 : 0 < AmountField.of_cents 1) by (vm_compute; reflexivity).
    lra.
Qed.

Lemma cents_small (v : Q) :
  Qabs v <= AmountField.max_amount ->
  (- 2 ^ 50 <= AmountField.cents v <= 2 ^ 50)%Z.
Proof. intros H. apply cents_in_range in H. lia. Qed.

(** An entry of at most the debt whose rounding exceeds the debt rounds as
    the debt does, and so does an entry above the debt whose rounding is
    at most the debt. *)
Lemma cents_same (v d : Q) :
  Qabs v <= AmountField.max_amount ->
  (v <= d /\ d < AmountField.of_cents (AmountField.cents v)) \/
  (d <= v /\ AmountField.of_cents (AmountField.cents v) <= d) ->
  AmountField.cents d = AmountField.cents v.
Proof.
  intros Hv [[H1 H2]|[H1 H2]].
  - apply Z.le_antisymm; [|now apply cents_le].
    pose proof (cents_of_cents _ (cents_small v Hv)) as E.
    rewrite <- E. apply cents_le. lra.
  - apply Z.le_antisymm; [now apply cents_le|].
    pose proof (cents_of_cents _ (cents_small v Hv)) as E.
    rewrite <- E. now apply cents_le.
Qed.

Lemma onChange_in_range (d v : Q) :
  Qabs d <= AmountField.max_amount -> Qabs v <= AmountField.max_amount ->
  AmountField.onChange (Binary64.Finite d) (Binary64.Finite v)
  = if Qle_bool (AmountField.of_cents (AmountField.cents v)) d
    then {| AmountField.recorded :=
              Binary64.Finite (AmountField.of_cents (AmountField.cents v));
            AmountField.notice := false |}
    else {| AmountField.recorded :=
              Binary64.Finite (AmountField.of_cents (AmountField.cents d));
            AmountField.notice := true |}.
Proof.
  intros Hd Hv. unfold AmountField.onChange.
  rewrite (round2_in_range v Hv), (round2_in_range d Hd).
  cbn [Binary64.isNaN Binary64.le negb andb].
  destruct (Qle_bool _ d); reflexivity.
Qed.

Lemma Qle_bool_false (x y : Q) : Qle_bool x y = false <-> y < x.
Proof.
  split; intros H.
  - apply Qnot_le_lt. intros Hle. apply Qle_bool_iff in Hle. congruence.
  - destruct (Qle_bool x y) eqn:E; [|reflexivity].
    apply Qle_bool_iff in E. lra.
Qed.

Lemma amount_accepted_finite (a : Q) :
  AmountField.amount_accepted (Binary64.Finite a) = true <-> 0 < a.
Proof.
  unfold AmountField.amount_accepted. cbn [Binary64.gt].
  rewrite negb_true_iff. apply Qle_bool_false.
Qed.

(** C9.  For a remaining debt between 0 and [10^13] and an entry up to
    [10^13] in size: the entry is rounded to two decimals, to the double
    nearest to [k] cents, [k] being the integer nearest to the binary64
    product [v * 100], which is within half a unit and one rounding error
    of [v * 100]; the rounded entry is within three quarters of a cent of
    the entry.  An entry of at most the remaining debt is recorded so
    rounded, an entry above it is recorded as the remaining debt rounded to
    two decimals.  The notice is shown exactly when the rounded entry
    exceeds the debt: always for an entry a cent or more above the debt,
    never for one a cent or more below.  The schema accepts the recorded
    amount exactly when entry and debt both round to one cent at least; an
    unparsable entry is recorded as 0, which the schema refuses. *)
Theorem payment_amount_clamped (remainingDebt v : Q)
    (Hdebt : 0 <= remainingDebt /\ remainingDebt <= AmountField.max_amount)
    (Hv : Qabs v <= AmountField.max_amount) :
  let c := AmountField.onChange (Binary64.Finite remainingDebt)
             (Binary64.Finite v) in
  exists k j : Z,
    (inject_Z k - (1 # 2) <= Binary64.rnd (v * 100) /\
     Binary64.rnd (v * 100) < inject_Z k + (1 # 2)) /\
    (inject_Z j - (1 # 2) <= Binary64.rnd (remainingDebt * 100) /\
     Binary64.rnd (remainingDebt * 100) < inject_Z j + (1 # 2)) /\
    Qabs (inject_Z k - v * 100)
    <= (1 # 2) + Qabs (v * 100) * Binary64.eps + Binary64.pow2 (-1075) /\
    Qabs (Binary64.rnd (inject_Z k / 100) - v) < 3 # 400 /\
    AmountField.round2 (Binary64.Finite v)
    = Binary64.Finite (Binary64.rnd (inject_Z k / 100)) /\
    AmountField.round2 (Binary64.Finite remainingDebt)
    = Binary64.Finite (Binary64.rnd (inject_Z j / 100)) /\
    (v <= remainingDebt ->
     AmountField.recorded c = AmountField.round2 (Binary64.Finite v)) /\
    (remainingDebt < v ->
     AmountField.recorded c
     = AmountField.round2 (Binary64.Finite remainingDebt)) /\
    (AmountField.notice c = true
     <-> remainingDebt < Binary64.rnd (inject_Z k / 100)) /\
    (remainingDebt + (1 # 100) <= v -> AmountField.notice c = true) /\
    (v + (1 # 100) <= remainingDebt -> AmountField.notice c = false) /\
    (AmountField.amount_accepted (AmountField.recorded c) = true
     <-> (1 <= k)%Z /\ (1 <= j)%Z) /\
    AmountField.onChange (Binary64.Finite remainingDebt) Binary64.NaN
    = {| AmountField.recorded := Binary64.Finite 0;
         AmountField.notice := false |} /\
    AmountField.amount_accepted (Binary64.Finite 0) = false.
Proof.
  intros c. destruct Hdebt as [Hd0 Hd1].
  assert (Hd : Qabs remainingDebt <= AmountField.max_amount).
  { rewrite Qabs_pos; assumption. }
  exists (AmountField.cents v), (AmountField.cents remainingDebt).
  split; [apply cents_bounds|]. split; [apply cents_bounds|].
  fold (AmountField.of_cents (AmountField.cents v)).
  fold (AmountField.of_cents (AmountField.cents remainingDebt)).
  pose proof (of_cents_close v Hv) as [Cl1 Cl2].
  split.
  { pose proof (cents_bounds v) as [B1 B2].
    pose proof (rnd_error_abs (v * 100)) as [P1 P2].
    apply Qabs_Qle_condition. split; lra. }
  split.
  { apply Qabs_Qlt_condition. split; lra. }
  split; [now apply round2_in_range|]. split; [now apply round2_in_range|].
  subst c. rewrite (onChange_in_range _ _ Hd Hv).
  rewrite (round2_in_range v Hv), (round2_in_range remainingDebt Hd).
  assert (Hj : (0 <= AmountField.cents remainingDebt)%Z).
  { assert (E0 : AmountField.cents 0 = 0%Z) by (vm_compute; reflexivity).
    rewrite <- E0. now apply cents_le. }
  destruct (Qle_bool (AmountField.of_cents (AmountField.cents v)) remainingDebt)
    eqn:E; cbn [AmountField.recorded AmountField.notice].
  - apply Qle_bool_iff in E.
    split; [reflexivity|].
    split.
    { intros Hgt. f_equal. f_equal. symmetry. apply cents_same; [exact Hv|].
      right. split; [lra | exact E]. }
    split; [split; [discriminate | intros H; lra]|].
    split; [intros H; lra|].
    split; [reflexivity|].
    split; [|split; reflexivity].
    rewrite amount_accepted_finite, of_cents_positive.
    split; [|tauto]. intros Hk. split; [exact Hk|].
    apply Z.le_trans with (AmountField.cents v); [exact Hk|].
    pose proof (cents_of_cents _ (cents_small v Hv)) as Ec.
    rewrite <- Ec. now apply cents_le.
  - apply Qle_bool_false in E.
    split.
    { intros Hle. f_equal. f_equal. apply cents_same; [exact Hv|].
      left. split; [exact Hle | exact E]. }
    split; [reflexivity|].
    split; [split; [intros _; exact E | reflexivity]|].
    split; [reflexivity|].
    split; [intros H; lra|].
    split; [|split; reflexivity].
    rewrite amount_accepted_finite, of_cents_positive.
    split; [|tauto]. intros Hjj. split; [|exact Hjj].
    apply of_cents_positive. lra.
Qed.

Lemma payment_amount_clamped_witness :
  (0 <= 600 /\ 600 <= AmountField.max_amount) /\
  Qabs 750 <= AmountField.max_amount /\
  AmountField.notice
    (AmountField.onChange (Binary64.Finite 600) (Binary64.Finite 750)) = true.
Proof.
  assert (Hd : 0 <= 600 /\ 600 <= AmountField.max_amount)
    by (split; discriminate).
  assert (Hv : Qabs 750 <= AmountField.max_amount) by discriminate.
  split; [exact Hd|]. split; [exact Hv|].
  destruct (payment_amount_clamped 600 750 Hd Hv)
    as (k & j & _ & _ & _ & _ & _ & _ & _ & _ & _ & Hn & _).
  apply Hn. discriminate.
Defined.

(** C9 as stated fails: against a remaining debt of 10, the entry 10.004
    exceeds the debt and is recorded as 10, the debt, but without the
    notice. *)
Lemma entry_above_debt_without_notice :
  exists v a : Q,
    AmountField.parseFloat (Some 10.004) = Binary64.Finite v /\
    10 < v /\
    AmountField.onChange (Binary64.Finite 10) (Binary64.Finite v)
    = {| AmountField.recorded := Binary64.Finite a;
         AmountField.notice := false |} /\
    a == 10.
Proof.
  exists (Binary64.rnd 10.004).
  exists (AmountField.of_cents (AmountField.cents (Binary64.rnd 10.004))).
  split; [vm_compute; reflexivity|].
  split; [vm_compute; reflexivity|].
  split; [vm_compute; reflexivity|].
  vm_compute; reflexivity.
Qed.

(** ** Conversion of a proforma *)

Lemma convertOffered_true (canConvert : bool) (p : ProformaInvoice.t) :
  ProformaDetail.convertOffered canConvert p = true <->
  ProformaInvoice.status p = "approved" /\
  JS.truthy_ostr (ProformaInvoice.finalInvoiceId p) = false /\
  canConvert = true.
Proof.
  unfold ProformaDetail.convertOffered.
  rewrite !andb_true_iff, negb_true_iff, String.eqb_eq. tauto.
Qed.

Lemma convert_success (final : FinalInvoice.t) (s s1 : Conversion.Store) :
  Conversion.convertProformaToFinal final s = Some s1 ->
  ProformaInvoice.status (Conversion.proforma s) = "approved" /\
  JS.truthy_ostr (ProformaInvoice.finalInvoiceId (Conversion.proforma s)) = false /\
  s1 = {| Conversion.proforma :=
            Conversion.set_finalInvoiceId (Conversion.proforma s)
              (Some (FinalInvoice.id final));
          Conversion.final_invoices := Conversion.final_invoices s ++ [final] |}.
Proof.
  unfold Conversion.convertProformaToFinal.
  destruct (String.eqb_spec (ProformaInvoice.status (Conversion.proforma s))
              "approved") as [E|E]; simpl; [|discriminate].
  destruct (JS.truthy_ostr
              (ProformaInvoice.finalInvoiceId (Conversion.proforma s)));
    simpl; [discriminate|].
  intros H. injection H as <-. auto.
Qed.

(** C6.  The convert action is offered only for an approved proforma
    without a final invoice, and the conversion succeeds only for such a
    proforma.  A successful conversion adds exactly one final invoice and
    links it in [finalInvoiceId], the single link a proforma has; after it
    a second conversion fails, the action is no longer offered, and the
    button changes nothing. *)
Theorem conversion_at_most_once (canConvert : bool)
    (final1 final2 : FinalInvoice.t) (s s1 : Conversion.Store)
    (Hnew : JS.truthy_str (FinalInvoice.id final1) = true)
    (Hconv : Conversion.convertProformaToFinal final1 s = Some s1) :
  (forall can p,
     ProformaDetail.convertOffered can p = true ->
     ProformaInvoice.status p = "approved" /\
     JS.truthy_ostr (ProformaInvoice.finalInvoiceId p) = false) /\
  (ProformaInvoice.status (Conversion.proforma s) = "approved" /\
   JS.truthy_ostr (ProformaInvoice.finalInvoiceId (Conversion.proforma s)) = false) /\
  ProformaInvoice.finalInvoiceId (Conversion.proforma s1)
  = Some (FinalInvoice.id final1) /\
  Conversion.final_invoices s1
  = (Conversion.final_invoices s ++ [final1])%list /\
  Conversion.convertProformaToFinal final2 s1 = None /\
  ProformaDetail.convertOffered canConvert (Conversion.proforma s1) = false /\
  Conversion.convert_onClick canConvert final2 s1 = s1 /\
  List.length
    (Conversion.final_invoices (Conversion.convert_onClick canConvert final2 s1))
  = S (List.length (Conversion.final_invoices s)).
Proof.
  destruct (convert_success final1 s s1 Hconv) as (Hst & Hunset & ->).
  assert (Hoff : forall can,
             ProformaDetail.convertOffered can
               (Conversion.set_finalInvoiceId (Conversion.proforma s)
                  (Some (FinalInvoice.id final1))) = false).
  { intros can. unfold ProformaDetail.convertOffered; simpl.
    rewrite Hnew; simpl. now rewrite andb_false_r. }
  assert (Hclick : forall can,
             Conversion.convert_onClick can final2
               {| Conversion.proforma :=
                    Conversion.set_finalInvoiceId (Conversion.proforma s)
                      (Some (FinalInvoice.id final1));
                  Conversion.final_invoices :=
                    Conversion.final_invoices s ++ [final1] |}
             = {| Conversion.proforma :=
                    Conversion.set_finalInvoiceId (Conversion.proforma s)
                      (Some (FinalInvoice.id final1));
                  Conversion.final_invoices :=
                    Conversion.final_invoices s ++ [final1] |}).
  { intros can. unfold Conversion.convert_onClick; simpl Conversion.proforma.
    now rewrite Hoff. }
  split.
  { intros can p H. apply convertOffered_true in H. tauto. }
  split; [now split|].
  split; [reflexivity|]. split; [reflexivity|].
  split.
  { unfold Conversion.convertProformaToFinal; simpl.
    rewrite Hnew; simpl. now rewrite andb_false_r. }
  split; [apply Hoff|].
  split; [apply Hclick|].
  rewrite Hclick; simpl. rewrite List.length_app; simpl. lia.
Qed.

Lemma conversion_at_most_once_witness :
  let final := NewFinalInvoice.invoiceData
                 sample_env []
                 (NewFinalInvoice.formFromProforma sample_env
                    (sample_proforma "approved" None)) in
  let s := {| Conversion.proforma := sample_proforma "approved" None;
              Conversion.final_invoices := [] |} in
  let s1 := {| Conversion.proforma := sample_proforma "approved" (Some "f1");
               Conversion.final_invoices := [final] |} in
  JS.truthy_str (FinalInvoice.id final) = true /\
  Conversion.convertProformaToFinal final s = Some s1 /\
  Conversion.convertProformaToFinal final s1 = None /\
  Conversion.convert_onClick true final s1 = s1.
Proof.
  intros final s s1.
  assert (Hnew : JS.truthy_str (FinalInvoice.id final) = true) by reflexivity.
  assert (Hconv : Conversion.convertProformaToFinal final s = Some s1)
    by reflexivity.
  split; [exact Hnew|]. split; [exact Hconv|].
  destruct (conversion_at_most_once true final final s s1 Hnew Hconv)
    as (_ & _ & _ & _ & Hfail & _ & Hclick & _).
  split; assumption.
Defined.

(** ** Worked scenarios *)

(** The stamp tax at and around its thresholds. *)
Example stampTax_at_thresholds :
  ProformaDetail.calculateStampTax "cash" 100001 == 100001 * 0.02 /\
  ProformaDetail.calculateStampTax "cash" 100000 == 100000 * 0.015 /\
  ProformaDetail.calculateStampTax "cash" 30001 == 30001 * 0.015 /\
  ProformaDetail.calculateStampTax "cash" 30000 == 30000 * 0.01 /\
  ProformaDetail.calculateStampTax "cash" 300.01 == 300.01 * 0.01 /\
  ProformaDetail.calculateStampTax "cash" 300 == 0 /\
  ProformaDetail.calculateStampTax "cash" 150000 == 3000 /\
  ProformaDetail.calculateStampTax "cheque" 150000 == 0.
Proof. repeat split. Qed.

(** Ten units at 100 with 19 percent tax: 1000 excluding tax, 190 of tax,
    1190 in total; paid in cash, the subtotal of 1000 is above 300 and
    carries a stamp tax of 10. *)
Example creation_of_one_item :
  let inv := NewFinalInvoice.invoiceData sample_env [] (sample_form "cash") in
  FinalInvoice.subtotal inv == 1000 /\
  FinalInvoice.taxTotal inv == 190 /\
  option_map Qred (FinalInvoice.stamp_tax inv) = Some 10 /\
  FinalInvoice.total inv == 1200 /\
  FinalInvoice.total
    (NewFinalInvoice.invoiceData sample_env [] (sample_form "cheque")) == 1190.
Proof. repeat split. Qed.

(** A total of 1000: after a payment of 400 the invoice has 400 paid, 600
    of debt and is shown as partially paid; after a further 600 it has
    1000 paid, no debt and is shown as paid. *)
Example two_payments :
  let page0 := sample_page (sample_invoice "unpaid" 1000 (Some 0) (Some 1000)) [] in
  let page1 := Operations.run (Operations.AddPayment (sample_payment "p1" 400)) page0 in
  let page2 := Operations.run (Operations.AddPayment (sample_payment "p2" 600)) page1 in
  (exists inv1,
     FinalInvoiceDetail.invoice page1 = Some inv1 /\
     FinalInvoice.amount_paid inv1 = Some 400 /\
     FinalInvoice.client_debt inv1 = Some 600 /\
     FinalInvoiceDetail.displayedStatus inv1 (FinalInvoiceDetail.payments page1)
     = "partially_paid") /\
  (exists inv2,
     FinalInvoiceDetail.invoice page2 = Some inv2 /\
     FinalInvoice.amount_paid inv2 = Some 1000 /\
     FinalInvoice.client_debt inv2 = Some 0 /\
     FinalInvoiceDetail.displayedStatus inv2 (FinalInvoiceDetail.payments page2)
     = "paid").
Proof.
  split; eexists; (split; [reflexivity|]); repeat split.
Qed.

(** Entries of the amount field against a remaining debt of 600. *)
Example amount_entries :
  PaymentForm.amount_onChange 600 (Some 250.5)
  = {| PaymentForm.recorded := PaymentForm.round2 250.5;
       PaymentForm.notice := false |} /\
  PaymentForm.round2 250.5 == 250.5 /\
  PaymentForm.round2 250.456 == 250.46 /\
  Qred (PaymentForm.recorded (PaymentForm.amount_onChange 600 (Some 700))) = 600 /\
  PaymentForm.notice (PaymentForm.amount_onChange 600 (Some 700)) = true /\
  PaymentForm.amount_onChange 600 None
  = {| PaymentForm.recorded := 0; PaymentForm.notice := false |} /\
  PaymentForm.amount_accepted 0 = false.
Proof. repeat split. Qed.

(** The same field on doubles.  The text 0.015 is recorded as 0.02 and the
    text 1.005 as 1: the products by 100 are the doubles 1.5 and
    100.49999999999999.  A debt of 6.545, a double just below it, is
    clamped to 6.55, which is more than the debt.  Against a debt of 10,
    the text 10.004 is recorded as 10 without the notice and the text
    10.005 as 10 with it. *)
Example amount_entries_binary64 :
  let parse text := AmountField.parseFloat (Some text) in
  AmountField.round2 (parse 0.015) = parse 0.02 /\
  AmountField.round2 (parse 1.005) = parse 1 /\
  AmountField.onChange (parse 6.545) (parse 20)
  = {| AmountField.recorded := parse 6.55; AmountField.notice := true |} /\
  Binary64.le (parse 6.55) (parse 6.545) = false /\
  AmountField.onChange (parse 10) (parse 10.004)
  = {| AmountField.recorded := parse 10; AmountField.notice := false |} /\
  AmountField.onChange (parse 10) (parse 10.005)
  = {| AmountField.recorded := parse 10; AmountField.notice := true |} /\
  AmountField.onChange (parse 600) Binary64.NaN
  = {| AmountField.recorded := Binary64.Finite 0;
       AmountField.notice := false |}.
Proof. vm_compute. repeat split. Qed.

(** * Further properties of the pages *)

(** ** Item totals *)

(** X1.  On every item the pages build (the calculated items of the
    creation page, the processed items the proforma page saves, and the row
    [updateItemProduct] rewrites) the tax is the tax rate applied to the
    amount excluding tax, and the total is the sum of the two. *)
Theorem item_totals_consistent :
  (forall products fresh item,
     let it := NewFinalInvoice.calculatedItem products fresh item in
     InvoiceItem.totalTax it
     == InvoiceItem.totalExcl it * (InvoiceItem.taxrate it / 100) /\
     InvoiceItem.total it == InvoiceItem.totalExcl it + InvoiceItem.totalTax it) /\
  (forall item,
     let it := ProformaDetail.processedItem item in
     InvoiceItem.totalTax it
     == InvoiceItem.totalExcl it * (InvoiceItem.taxrate it / 100) /\
     InvoiceItem.total it == InvoiceItem.totalExcl it + InvoiceItem.totalTax it) /\
  (forall item productId product,
     let it := ProformaDetail.updateItemProduct_item item productId product in
     InvoiceItem.totalTax it
     == InvoiceItem.totalExcl it * (InvoiceItem.taxrate it / 100) /\
     InvoiceItem.total it == InvoiceItem.totalExcl it + InvoiceItem.totalTax it).
Proof.
  split; [|split].
  - intros products fresh item it. split; reflexivity.
  - intros item it; subst it; simpl. split; [|reflexivity].
    now rewrite (or0_eq (InvoiceItem.taxrate item)).
  - intros item productId product it; subst it; simpl.
    split; [reflexivity|]. ring.
Qed.

(** ** Stamp duty as a function of the subtotal *)

Lemma gt_compat (x y c : Q) : x == y -> JS.gt x c = JS.gt y c.
Proof. intros E. unfold JS.gt. now rewrite E. Qed.

Lemma calculateStampTax_compat (paymentType : string) (x y : Q) :
  x == y ->
  ProformaDetail.calculateStampTax paymentType x
  == ProformaDetail.calculateStampTax paymentType y.
Proof.
  intros E. unfold ProformaDetail.calculateStampTax.
  rewrite !(gt_compat x y _ E).
  destruct (negb (String.eqb paymentType "cash")); [reflexivity|].
  destruct (JS.gt y 100000); [now rewrite E|].
  destruct (JS.gt y 30000); [now rewrite E|].
  destruct (JS.gt y 300); [now rewrite E|reflexivity].
Qed.

(** The bracket a subtotal falls in, with the order facts of the
    comparisons made on the way. *)
Ltac stamp_brackets x :=
  unfold ProformaDetail.calculateStampTax;
  let H1 := fresh "Hhigh" in
  let H2 := fresh "Hmid" in
  let H3 := fresh "Hlow" in
  destruct (JS.gt x 100000) eqn:H1;
  [ apply gt_true in H1
  | apply gt_false in H1;
    destruct (JS.gt x 30000) eqn:H2;
    [ apply gt_true in H2
    | apply gt_false in H2;
      destruct (JS.gt x 300) eqn:H3;
      [ apply gt_true in H3 | apply gt_false in H3 ] ] ].

Lemma calculateStampTax_nonneg (paymentType : string) (x : Q) :
  0 <= x -> 0 <= ProformaDetail.calculateStampTax paymentType x.
Proof.
  intros Hx. destruct (negb (String.eqb paymentType "cash")) eqn:Hcash.
  - unfold ProformaDetail.calculateStampTax. rewrite Hcash. lra.
  - stamp_brackets x; rewrite Hcash; lra.
Qed.

(** X2.  For a non-negative subtotal the stamp tax is never negative and
    never more than 2 percent of the subtotal, and it grows with the
    subtotal: a larger subtotal never pays a smaller stamp tax. *)
Theorem calculateStampTax_bounded_monotone (paymentType : string) (x y : Q)
    (Hx : 0 <= x) (Hxy : x <= y) :
  0 <= ProformaDetail.calculateStampTax paymentType x /\
  ProformaDetail.calculateStampTax paymentType x <= x * 0.02 /\
  ProformaDetail.calculateStampTax paymentType x
  <= ProformaDetail.calculateStampTax paymentType y.
Proof.
  destruct (negb (String.eqb paymentType "cash")) eqn:Hcash.
  - unfold ProformaDetail.calculateStampTax. rewrite Hcash.
    repeat split; lra.
  - split; [|split].
    + stamp_brackets x; rewrite Hcash; lra.
    + stamp_brackets x; rewrite Hcash; lra.
    + stamp_brackets x; rewrite Hcash; stamp_brackets y; lra.
Qed.

Lemma calculateStampTax_bounded_monotone_witness :
  0 <= 30000 /\ 30000 <= 30001 /\
  ProformaDetail.calculateStampTax "cash" 30000
  <= ProformaDetail.calculateStampTax "cash" 30001 /\
  ProformaDetail.calculateStampTax "cash" 30001 <= 30001 * 0.02.
Proof.
  assert (H0 : 0 <= 30000) by discriminate.
  assert (H1 : 30000 <= 30001) by discriminate.
  assert (H2 : 0 <= 30001) by discriminate.
  assert (H3 : 30001 <= 30001) by discriminate.
  split; [exact H0|]. split; [exact H1|].
  destruct (calculateStampTax_bounded_monotone "cash" 30000 30001 H0 H1)
    as (_ & _ & Hm).
  destruct (calculateStampTax_bounded_monotone "cash" 30001 30001 H2 H3)
    as (_ & Hb & _).
  split; assumption.
Defined.

(** ** Totals of the creation page *)

Lemma reduce_sum_nonneg {A : Type} (f : A -> Q) (l : list A) :
  Forall (fun x => 0 <= f x) l -> 0 <= reduce_sum f l.
Proof.
  induction 1 as [|x l Hx _ IH].
  - discriminate.
  - rewrite reduce_sum_cons. lra.
Qed.

Lemma item_accepted_bounds (item : NewFinalInvoice.FormItem) :
  NewFinalInvoice.item_accepted item = true ->
  1 <= NewFinalInvoice.quantity item /\
  0 <= NewFinalInvoice.unitprice item /\
  0 <= NewFinalInvoice.taxrate item <= 100 /\
  0 <= NewFinalInvoice.discount item <= 100.
Proof.
  unfold NewFinalInvoice.item_accepted.
  rewrite !andb_true_iff, !ge_true, !le_true. tauto.
Qed.

Lemma accepted_item_nonneg (products : list Product.t) (fresh : string)
    (item : NewFinalInvoice.FormItem) :
  NewFinalInvoice.item_accepted item = true ->
  0 <= InvoiceItem.totalExcl (NewFinalInvoice.calculatedItem products fresh item) /\
  0 <= InvoiceItem.totalTax (NewFinalInvoice.calculatedItem products fresh item).
Proof.
  intros H. apply item_accepted_bounds in H.
  destruct H as (Hq & Hu & [Ht _] & [_ Hd]). simpl.
  assert (H1 : 0 <= NewFinalInvoice.quantity item * NewFinalInvoice.unitprice item)
    by (apply Qmult_le_0_compat; lra).
  assert (H2 : 0 <= 1 - NewFinalInvoice.discount item / 100).
  { assert (Hd1 : NewFinalInvoice.discount item / 100 <= 1)
      by (apply Qle_shift_div_r; [reflexivity | lra]).
    lra. }
  assert (H3 : 0 <= NewFinalInvoice.quantity item * NewFinalInvoice.unitprice item
                    * (1 - NewFinalInvoice.discount item / 100))
    by (apply Qmult_le_0_compat; assumption).
  split; [exact H3|].
  apply Qmult_le_0_compat; [exact H3 |].
  apply Qle_shift_div_l; [reflexivity | lra].
Qed.

Lemma accepted_items_nonneg (env : NewFinalInvoice.Env)
    (products : list Product.t) (l : list NewFinalInvoice.FormItem) :
  forallb NewFinalInvoice.item_accepted l = true ->
  forall k,
    Forall (fun it => 0 <= InvoiceItem.totalExcl it)
      (NewFinalInvoice.calculatedItems_from env products k l) /\
    Forall (fun it => 0 <= InvoiceItem.totalTax it)
      (NewFinalInvoice.calculatedItems_from env products k l).
Proof.
  induction l as [|item rest IH]; simpl; intros H k.
  - split; constructor.
  - apply andb_true_iff in H. destruct H as [Hi Hr].
    destruct (IH Hr (S k)) as [IH1 IH2].
    destruct (accepted_item_nonneg products (NewFinalInvoice.uuidv4 env k) item Hi)
      as [H1 H2].
    split; constructor; assumption.
Qed.

(** X3.  A form the schema accepts (quantity at least 1, non-negative unit
    price, tax rate and discount between 0 and 100) creates an invoice
    whose subtotal, tax total, stamp tax and total are all non-negative,
    whose total is at least subtotal plus tax, and whose initial client
    debt is therefore not negative. *)
Theorem accepted_form_creates_nonnegative_totals (env : NewFinalInvoice.Env)
    (products : list Product.t) (data : NewFinalInvoice.FormData)
    (Hok : NewFinalInvoice.form_accepted data = true) :
  let inv := NewFinalInvoice.invoiceData env products data in
  FinalInvoice.items inv <> [] /\
  0 <= FinalInvoice.subtotal inv /\
  0 <= FinalInvoice.taxTotal inv /\
  FinalInvoice.subtotal inv + FinalInvoice.taxTotal inv <= FinalInvoice.total inv /\
  0 <= FinalInvoice.total inv /\
  exists stampTax debt,
    FinalInvoice.stamp_tax inv = Some stampTax /\ 0 <= stampTax /\
    FinalInvoice.client_debt inv = Some debt /\ 0 <= debt.
Proof.
  intros inv. unfold NewFinalInvoice.form_accepted in Hok.
  rewrite !andb_true_iff in Hok. destruct Hok as [[[_ _] Hne] Hall].
  destruct (accepted_items_nonneg env products _ Hall 0%nat) as [He Ht].
  apply reduce_sum_nonneg in He, Ht.
  assert (Hs : 0 <= NewFinalInvoice.calculateStampTax
                      (JS.str_or (NewFinalInvoice.payment_type data) "")
                      (FinalInvoice.subtotal inv)).
  { rewrite stampTax_same.
    now apply calculateStampTax_nonneg. }
  subst inv. cbn [FinalInvoice.items FinalInvoice.subtotal FinalInvoice.taxTotal
                  FinalInvoice.total FinalInvoice.stamp_tax
                  FinalInvoice.client_debt NewFinalInvoice.invoiceData] in *.
  unfold NewFinalInvoice.calculatedItems in *.
  split.
  { destruct (NewFinalInvoice.items data); [discriminate Hne|discriminate]. }
  split; [exact He|]. split; [exact Ht|].
  split; [lra|]. split; [lra|].
  eexists; eexists. split; [reflexivity|]. split; [exact Hs|].
  split; [reflexivity|]. lra.
Qed.

Lemma accepted_form_creates_nonnegative_totals_witness :
  NewFinalInvoice.form_accepted (sample_form "cash") = true /\
  0 <= FinalInvoice.total
         (NewFinalInvoice.invoiceData sample_env [] (sample_form "cash")).
Proof.
  split; [reflexivity|].
  apply (accepted_form_creates_nonnegative_totals sample_env []
           (sample_form "cash") eq_refl).
Defined.

Lemma fold_calculated_totalExcl (env : NewFinalInvoice.Env)
    (products : list Product.t) (l : list NewFinalInvoice.FormItem) :
  forall k acc,
    fold_left (fun sum it => sum + InvoiceItem.totalExcl it)
      (NewFinalInvoice.calculatedItems_from env products k l) acc
    = fold_left
        (fun sum item =>
           sum + NewFinalInvoice.quantity item * NewFinalInvoice.unitprice item
                 * (1 - NewFinalInvoice.discount item / 100))
        l acc.
Proof.
  induction l as [|item rest IH]; intros k acc; simpl; [reflexivity|].
  apply IH.
Qed.

Lemma fold_calculated_totalTax (env : NewFinalInvoice.Env)
    (products : list Product.t) (l : list NewFinalInvoice.FormItem) :
  forall k acc,
    fold_left (fun sum it => sum + InvoiceItem.totalTax it)
      (NewFinalInvoice.calculatedItems_from env products k l) acc
    = fold_left
        (fun sum item =>
           sum + NewFinalInvoice.quantity item * NewFinalInvoice.unitprice item
                 * (1 - NewFinalInvoice.discount item / 100)
                 * (NewFinalInvoice.taxrate item / 100))
        l acc.
Proof.
  induction l as [|item rest IH]; intros k acc; simpl; [reflexivity|].
  apply IH.
Qed.

Lemma stampTax_watched (paymentType : option string) (subtotal : Q) :
  NewFinalInvoice.calculateStampTax_watched paymentType subtotal
  = NewFinalInvoice.calculateStampTax (JS.str_or paymentType "") subtotal.
Proof.
  destruct paymentType as [[|c s]|]; reflexivity.
Qed.

(** X4.  The totals the creation form shows while it is edited are the
    totals of the invoice it creates: the subtotal, tax total, stamp tax
    and total of [calculateTotals] on the form's items and payment type
    are those [createInvoiceMutation] stores. *)
Theorem shown_totals_are_created_totals (env : NewFinalInvoice.Env)
    (products : list Product.t) (data : NewFinalInvoice.FormData) :
  let shown := NewFinalInvoice.calculateTotals (NewFinalInvoice.items data)
                 (NewFinalInvoice.payment_type data) in
  let inv := NewFinalInvoice.invoiceData env products data in
  NewFinalInvoice.subtotal shown = FinalInvoice.subtotal inv /\
  NewFinalInvoice.taxTotal shown = FinalInvoice.taxTotal inv /\
  Some (NewFinalInvoice.stampTax shown) = FinalInvoice.stamp_tax inv /\
  NewFinalInvoice.total shown = FinalInvoice.total inv /\
  Some (NewFinalInvoice.total shown) = FinalInvoice.client_debt inv.
Proof.
  intros shown inv. subst shown inv.
  unfold NewFinalInvoice.calculateTotals, NewFinalInvoice.invoiceData,
    NewFinalInvoice.calculatedItems, reduce_sum.
  cbn [NewFinalInvoice.subtotal NewFinalInvoice.taxTotal
       NewFinalInvoice.stampTax NewFinalInvoice.total
       FinalInvoice.subtotal FinalInvoice.taxTotal FinalInvoice.stamp_tax
       FinalInvoice.total FinalInvoice.client_debt].
  rewrite fold_calculated_totalExcl, fold_calculated_totalTax, stampTax_watched.
  repeat split; reflexivity.
Qed.

(** ** Rows and totals of the forms *)

Lemma calculateTotals_step_fold (l : list InvoiceItem.t) :
  forallb (fun item => JS.truthy_str (InvoiceItem.productId item)) l = true ->
  forall a b c,
    fold_left ProformaDetail.calculateTotals_step l (a, b, c)
    = (fold_left (fun sum it => sum + InvoiceItem.totalExcl it)
         (map ProformaDetail.processedItem l) a,
       fold_left (fun sum it => sum + InvoiceItem.totalTax it)
         (map ProformaDetail.processedItem l) b,
       fold_left (fun sum it => sum + JS.or0 (InvoiceItem.discount it))
         (map ProformaDetail.processedItem l) c).
Proof.
  induction l as [|item rest IH]; simpl; intros H a b c; [reflexivity|].
  apply andb_true_iff in H. destruct H as [Hp Hr].
  rewrite Hp; simpl. apply (IH Hr).
Qed.

(** X5.  When every row of the proforma form has a product, as the schema
    requires of a form that is saved, the totals shown while editing
    ([calculateTotals]) are exactly the totals [updateProformaMutation]
    saves: total discount, subtotal, tax total, stamp tax and total. *)
Theorem proforma_shown_totals_are_saved_totals (items : list InvoiceItem.t)
    (payment_type : string)
    (Hprod : forallb (fun item => JS.truthy_str (InvoiceItem.productId item))
               items = true) :
  ProformaDetail.calculateTotals items payment_type
  = ProformaDetail.savedTotals items payment_type.
Proof.
  unfold ProformaDetail.calculateTotals, ProformaDetail.savedTotals, reduce_sum.
  now rewrite (calculateTotals_step_fold items Hprod).
Qed.

Lemma proforma_shown_totals_are_saved_totals_witness :
  forallb (fun item => JS.truthy_str (InvoiceItem.productId item)) [sample_item]
  = true /\
  ProformaDetail.calculateTotals [sample_item] "cash"
  = ProformaDetail.savedTotals [sample_item] "cash" /\
  ProformaDetail.subtotal (ProformaDetail.savedTotals [sample_item] "cash") == 990.
Proof.
  split; [reflexivity|]. split; [|reflexivity].
  apply (proforma_shown_totals_are_saved_totals [sample_item] "cash" eq_refl).
Defined.

Lemma NewFinalInvoice_stampTax_compat (paymentType : option string) (x y : Q) :
  x == y ->
  NewFinalInvoice.calculateStampTax_watched paymentType x
  == NewFinalInvoice.calculateStampTax_watched paymentType y.
Proof.
  intros E. destruct paymentType as [p|]; simpl; [|reflexivity].
  rewrite !stampTax_same. now apply calculateStampTax_compat.
Qed.

(** X6.  Adding a blank row changes no total.  On the proforma form the
    new row has no product and is skipped by [calculateTotals]; on the
    creation form it has a unit price of 0 and adds nothing to the
    subtotal, the tax total, the stamp tax or the total. *)
Theorem blank_row_keeps_totals :
  (forall fresh items paymentType,
     ProformaDetail.calculateTotals (ProformaDetail.addItem fresh items)
       paymentType
     = ProformaDetail.calculateTotals items paymentType) /\
  (forall fresh items paymentType,
     let before := NewFinalInvoice.calculateTotals items paymentType in
     let after := NewFinalInvoice.calculateTotals
                    (NewFinalInvoice.addItem fresh items) paymentType in
     NewFinalInvoice.subtotal after == NewFinalInvoice.subtotal before /\
     NewFinalInvoice.taxTotal after == NewFinalInvoice.taxTotal before /\
     NewFinalInvoice.stampTax after == NewFinalInvoice.stampTax before /\
     NewFinalInvoice.total after == NewFinalInvoice.total before).
Proof.
  split.
  - intros fresh items paymentType.
    unfold ProformaDetail.calculateTotals, ProformaDetail.addItem.
    rewrite fold_left_app.
    now destruct (fold_left ProformaDetail.calculateTotals_step items (0, 0, 0))
      as [[subtotal taxTotal] totalDiscount].
  - intros fresh items paymentType before after.
    assert (Hs : NewFinalInvoice.subtotal after == NewFinalInvoice.subtotal before).
    { subst after before.
      unfold NewFinalInvoice.calculateTotals, NewFinalInvoice.addItem.
      cbn [NewFinalInvoice.subtotal]. rewrite fold_left_app. simpl. ring. }
    assert (Ht : NewFinalInvoice.taxTotal after == NewFinalInvoice.taxTotal before).
    { subst after before.
      unfold NewFinalInvoice.calculateTotals, NewFinalInvoice.addItem.
      cbn [NewFinalInvoice.taxTotal]. rewrite fold_left_app. simpl. ring. }
    assert (Hst : NewFinalInvoice.stampTax after == NewFinalInvoice.stampTax before).
    { apply NewFinalInvoice_stampTax_compat. exact Hs. }
    repeat (split; [assumption|]).
    change (NewFinalInvoice.total after)
      with (NewFinalInvoice.subtotal after + NewFinalInvoice.taxTotal after
            + NewFinalInvoice.stampTax after).
    change (NewFinalInvoice.total before)
      with (NewFinalInvoice.subtotal before + NewFinalInvoice.taxTotal before
            + NewFinalInvoice.stampTax before).
    now rewrite Hs, Ht, Hst.
Qed.

Lemma removeItem_length (index : nat) (items : list InvoiceItem.t) :
  (index < List.length items)%nat ->
  S (List.length (ProformaDetail.removeItem index items)) = List.length items.
Proof.
  intros H. unfold ProformaDetail.removeItem.
  rewrite List.length_app, List.length_firstn, List.length_skipn. lia.
Qed.

(** X7.  [removeItem] with the index of a row removes that row and keeps
    the others in order: the list is one shorter, the rows before the
    index stay where they are and the rows after it move up by one; with
    an index past the end it changes nothing.  As the remove button is
    disabled on a single row, a removal through the button never empties
    the list. *)
Theorem removeItem_removes_one_row (index : nat) (items : list InvoiceItem.t) :
  ((index < List.length items)%nat ->
   S (List.length (ProformaDetail.removeItem index items)) = List.length items /\
   (forall i, (i < index)%nat ->
      nth_error (ProformaDetail.removeItem index items) i = nth_error items i) /\
   (forall i, (index <= i)%nat ->
      nth_error (ProformaDetail.removeItem index items) i
      = nth_error items (S i))) /\
  ((List.length items <= index)%nat ->
   ProformaDetail.removeItem index items = items) /\
  (ProformaDetail.removeDisabled items = false ->
   ProformaDetail.removeItem index items <> []).
Proof.
  split; [|split].
  - intros H. split; [now apply removeItem_length|].
    unfold ProformaDetail.removeItem. split; intros i Hi.
    + rewrite nth_error_app1 by (rewrite List.length_firstn; lia).
      rewrite nth_error_firstn.
      apply Nat.ltb_lt in Hi. now rewrite Hi.
    + rewrite nth_error_app2 by (rewrite List.length_firstn; lia).
      rewrite List.length_firstn, nth_error_skipn.
      f_equal. lia.
  - intros H. unfold ProformaDetail.removeItem.
    rewrite firstn_all2 by exact H.
    rewrite skipn_all2 by lia. apply app_nil_r.
  - unfold ProformaDetail.removeDisabled. intros H E.
    apply Nat.leb_gt in H.
    destruct (Nat.lt_ge_cases index (List.length items)) as [Hlt|Hge].
    + pose proof (removeItem_length index items Hlt) as Hl.
      rewrite E in Hl. simpl in Hl. lia.
    + unfold ProformaDetail.removeItem in E.
      rewrite firstn_all2 in E by exact Hge.
      rewrite skipn_all2, app_nil_r in E by lia.
      subst items. simpl in H. lia.
Qed.

Lemma set_nth_length (v : InvoiceItem.t) (l : list InvoiceItem.t) :
  forall index, List.length (ProformaDetail.set_nth index v l) = List.length l.
Proof.
  induction l as [|x l IH]; intros [|i]; simpl; try reflexivity.
  now rewrite IH.
Qed.

Lemma set_nth_other (v : InvoiceItem.t) (l : list InvoiceItem.t) :
  forall index i, i <> index ->
    nth_error (ProformaDetail.set_nth index v l) i = nth_error l i.
Proof.
  induction l as [|x l IH]; intros [|index] [|i] H; simpl; try reflexivity.
  - congruence.
  - apply IH. congruence.
Qed.

Lemma set_nth_same (v : InvoiceItem.t) (l : list InvoiceItem.t) :
  forall index, (index < List.length l)%nat ->
    nth_error (ProformaDetail.set_nth index v l) index = Some v.
Proof.
  induction l as [|x l IH]; intros [|index] H; simpl in *; try lia.
  - reflexivity.
  - apply IH. lia.
Qed.

Lemma find_product_id (products : list Product.t) (productId : string)
    (product : Product.t) :
  find_product products productId = Some product ->
  Product.id product = productId /\ In product products.
Proof.
  unfold find_product. intros H. apply find_some in H.
  destruct H as [Hin He]. apply String.eqb_eq in He. now split.
Qed.

(** X8.  [updateItemProduct] rewrites the row at the index and no other:
    the list keeps its length and every other row; the rewritten row takes
    the chosen product's unit price, tax rate and unit, keeps its own
    quantity and discount, and has its amount excluding tax recomputed
    from them.  When no product has the chosen identifier nothing
    changes. *)
Theorem updateItemProduct_rewrites_one_row (products : list Product.t)
    (items : list InvoiceItem.t) (index : nat) (productId : string) :
  let items' := ProformaDetail.updateItemProduct products items index productId in
  List.length items' = List.length items /\
  (forall i, i <> index -> nth_error items' i = nth_error items i) /\
  (find_product products productId = None -> items' = items) /\
  (forall product item,
     find_product products productId = Some product ->
     nth_error items index = Some item ->
     Product.id product = productId /\
     exists it,
       nth_error items' index = Some it /\
       InvoiceItem.productId it = productId /\
       InvoiceItem.quantity it = InvoiceItem.quantity item /\
       InvoiceItem.discount it = InvoiceItem.discount item /\
       InvoiceItem.unitprice it = Product.unitprice product /\
       InvoiceItem.taxrate it = Product.taxrate product /\
       InvoiceItem.unit it = Some (Product.unit product) /\
       InvoiceItem.totalExcl it
       == InvoiceItem.quantity item * Product.unitprice product
          * (1 - InvoiceItem.discount item / 100)).
Proof.
  intros items'. subst items'. unfold ProformaDetail.updateItemProduct.
  destruct (find_product products productId) as [product|] eqn:Hf;
    [destruct (nth_error items index) as [item|] eqn:Hn|].
  - split; [apply set_nth_length|].
    split; [intros i Hi; now apply set_nth_other|].
    split; [discriminate|].
    intros product' item' Hp Hi. injection Hp as <-. injection Hi as <-.
    split; [apply (find_product_id products productId product Hf)|].
    eexists. split.
    { apply set_nth_same. apply nth_error_Some. now rewrite Hn. }
    repeat (split; [reflexivity|]). simpl. now rewrite or0_eq.
  - repeat split; try reflexivity; try discriminate.
  - repeat split; try reflexivity; try discriminate.
Qed.

(** ** The status shown on the final invoice page and the actions offered *)

(** X9.  Whatever status the row stores (also one outside the page's own
    vocabulary, such as the ['NonPayé'] of a created invoice) the status
    the page shows is one of the five keys of [statusColor], so the badge
    always has a colour. *)
Theorem computedStatus_has_a_colour (invoice : FinalInvoice.t)
    (summary : FinalInvoiceDetail.PaymentSummary) :
  In (FinalInvoiceDetail.computedStatus invoice summary)
    FinalInvoiceDetail.statusColor_keys.
Proof.
  unfold FinalInvoiceDetail.computedStatus, FinalInvoiceDetail.statusColor_keys.
  destruct (JS.ge _ _); [simpl; tauto|].
  destruct (JS.gt _ _); [simpl; tauto|].
  destruct (String.eqb_spec (FinalInvoice.status invoice) "cancelled") as [E|_];
    [rewrite E; simpl; tauto|].
  destruct (String.eqb_spec (FinalInvoice.status invoice) "credited") as [E|_];
    [rewrite E; simpl; tauto|].
  simpl; tauto.
Qed.

(** X10.  The actions of the final invoice page: when the revert is
    offered, mark-as-paid, cancel and delete are not; when mark-as-paid is
    offered, so are cancel and delete, and the revert is not.  The payment
    button of the Actions card is rendered exactly when the one in the
    header of the payment history is and the status shown is neither
    cancelled nor credited; the one in the header only asks for the right
    to edit and a positive debt, so an invoice shown as cancelled or
    credited that still has a debt is offered a payment there, while
    mark-as-paid, cancel, delete and the payment button of the Actions
    card are not rendered for it (nor the revert, if it is credited).  A
    user who cannot edit is offered none of these. *)
Theorem final_invoice_actions_exclusive (canEdit : bool) (shown : string)
    (clientDebt : Q) :
  (FinalInvoiceDetail.revertOffered canEdit shown = true ->
   FinalInvoiceDetail.markAsPaidOffered canEdit shown = false /\
   FinalInvoiceDetail.cancelOffered canEdit shown = false /\
   FinalInvoiceDetail.deleteOffered canEdit shown = false) /\
  (FinalInvoiceDetail.markAsPaidOffered canEdit shown = true ->
   FinalInvoiceDetail.cancelOffered canEdit shown = true /\
   FinalInvoiceDetail.deleteOffered canEdit shown = true /\
   FinalInvoiceDetail.revertOffered canEdit shown = false) /\
  (FinalInvoiceDetail.addPaymentOffered canEdit shown clientDebt = true <->
   FinalInvoiceDetail.historyAddPaymentOffered canEdit clientDebt = true /\
   shown <> "cancelled" /\ shown <> "credited") /\
  (FinalInvoiceDetail.historyAddPaymentOffered canEdit clientDebt = true <->
   canEdit = true /\ 0 < clientDebt) /\
  (shown = "cancelled" \/ shown = "credited" ->
   FinalInvoiceDetail.markAsPaidOffered canEdit shown = false /\
   FinalInvoiceDetail.cancelOffered canEdit shown = false /\
   FinalInvoiceDetail.deleteOffered canEdit shown = false /\
   FinalInvoiceDetail.addPaymentOffered canEdit shown clientDebt = false /\
   (shown = "credited" ->
    FinalInvoiceDetail.revertOffered canEdit shown = false) /\
   (canEdit = true -> 0 < clientDebt ->
    FinalInvoiceDetail.historyAddPaymentOffered canEdit clientDebt = true)) /\
  (canEdit = false ->
   FinalInvoiceDetail.markAsPaidOffered canEdit shown = false /\
   FinalInvoiceDetail.cancelOffered canEdit shown = false /\
   FinalInvoiceDetail.deleteOffered canEdit shown = false /\
   FinalInvoiceDetail.revertOffered canEdit shown = false /\
   FinalInvoiceDetail.addPaymentOffered canEdit shown clientDebt = false /\
   FinalInvoiceDetail.historyAddPaymentOffered canEdit clientDebt = false).
Proof.
  assert (Hhist : FinalInvoiceDetail.historyAddPaymentOffered canEdit clientDebt
                  = true <-> canEdit = true /\ 0 < clientDebt).
  { unfold FinalInvoiceDetail.historyAddPaymentOffered.
    rewrite andb_true_iff, gt_true. tauto. }
  unfold FinalInvoiceDetail.revertOffered, FinalInvoiceDetail.markAsPaidOffered,
    FinalInvoiceDetail.cancelOffered, FinalInvoiceDetail.deleteOffered.
  split; [|split; [|split; [|split; [exact Hhist|split]]]].
  - destruct (String.eqb_spec shown "unpaid") as [->|_]; destruct canEdit;
      simpl; intros H; try discriminate H; repeat split.
  - destruct (String.eqb_spec shown "unpaid") as [->|_]; destruct canEdit;
      simpl; intros H; try discriminate H; repeat split.
  - rewrite Hhist. unfold FinalInvoiceDetail.addPaymentOffered.
    rewrite !andb_true_iff, !negb_true_iff, gt_true.
    destruct (String.eqb_spec shown "cancelled") as [Ec|Ec];
      destruct (String.eqb_spec shown "credited") as [Er|Er];
      split; intros H; try tauto;
      try (destruct H as [[[H1 H2] _] _]; discriminate).
  - intros [-> | ->].
    + split; [now destruct canEdit|]. split; [now destruct canEdit|].
      split; [now destruct canEdit|]. split; [reflexivity|].
      split; [intros H; discriminate H|].
      intros Hc Hpos. now apply Hhist.
    + split; [now destruct canEdit|]. split; [now destruct canEdit|].
      split; [now destruct canEdit|]. split; [reflexivity|].
      split; [intros _; now destruct canEdit|].
      intros Hc Hpos. now apply Hhist.
  - intros ->. unfold FinalInvoiceDetail.addPaymentOffered,
      FinalInvoiceDetail.historyAddPaymentOffered.
    simpl. rewrite !andb_false_r. repeat split.
Qed.

(** ** Cancelling, reverting and marking as paid *)

Lemma computedStatus_unpaid_inv (inv : FinalInvoice.t)
    (sm : FinalInvoiceDetail.PaymentSummary) :
  FinalInvoiceDetail.computedStatus inv sm = "unpaid" ->
  JS.ge (FinalInvoiceDetail.amountPaid sm) (FinalInvoice.total inv) = false /\
  JS.gt (FinalInvoiceDetail.amountPaid sm) 0 = false.
Proof.
  unfold FinalInvoiceDetail.computedStatus.
  destruct (JS.ge _ _); [discriminate|].
  destruct (JS.gt _ _); [discriminate|]. now split.
Qed.

Lemma cancel_updateData (inv : FinalInvoice.t) (payments : list InvoicePayment.t) :
  FinalInvoiceDetail.updateData_of "cancelled"
    FinalInvoiceDetail.no_additionalData inv payments
  = {| FinalInvoiceDetail.status := Some "cancelled";
       FinalInvoiceDetail.payment_date := None;
       FinalInvoiceDetail.amount_paid := None;
       FinalInvoiceDetail.client_debt := None;
       FinalInvoiceDetail.paymentdate := None |}.
Proof. reflexivity. Qed.

(** X11.  Cancelling a loaded invoice that is shown as unpaid only changes
    its stored status: the amounts, the payments and so the debt of the
    payment summary stay; the invoice is then shown as cancelled, the
    revert is offered to an editor, and mark-as-paid and the payment button
    of the Actions card are not.  The payment button in the header of the
    payment history is rendered after the cancel exactly when it was
    before: an editor can still add a payment to the cancelled invoice as
    long as it has a debt. *)
Theorem cancel_of_unpaid_shows_cancelled (page : FinalInvoiceDetail.Page)
    (inv : FinalInvoice.t) (canEdit : bool)
    (Hid : JS.truthy_ostr (FinalInvoiceDetail.id page) = true)
    (Hinv : FinalInvoiceDetail.invoice page = Some inv)
    (Hshown : FinalInvoiceDetail.displayedStatus inv
                (FinalInvoiceDetail.payments page) = "unpaid") :
  let page' := FinalInvoiceDetail.cancel_onClick page in
  FinalInvoiceDetail.payments page' = FinalInvoiceDetail.payments page /\
  exists inv',
    FinalInvoiceDetail.invoice page' = Some inv' /\
    FinalInvoice.status inv' = "cancelled" /\
    FinalInvoice.total inv' = FinalInvoice.total inv /\
    FinalInvoice.amount_paid inv' = FinalInvoice.amount_paid inv /\
    FinalInvoice.client_debt inv' = FinalInvoice.client_debt inv /\
    let shown' :=
      FinalInvoiceDetail.displayedStatus inv'
        (FinalInvoiceDetail.payments page') in
    let debt :=
      FinalInvoiceDetail.clientDebt
        (FinalInvoiceDetail.paymentSummary inv
           (FinalInvoiceDetail.payments page)) in
    let debt' :=
      FinalInvoiceDetail.clientDebt
        (FinalInvoiceDetail.paymentSummary inv'
           (FinalInvoiceDetail.payments page')) in
    shown' = "cancelled" /\
    debt' = debt /\
    FinalInvoiceDetail.revertOffered true shown' = true /\
    FinalInvoiceDetail.markAsPaidOffered canEdit shown' = false /\
    FinalInvoiceDetail.cancelOffered canEdit shown' = false /\
    FinalInvoiceDetail.addPaymentOffered canEdit shown' debt' = false /\
    FinalInvoiceDetail.historyAddPaymentOffered canEdit debt'
    = FinalInvoiceDetail.historyAddPaymentOffered canEdit debt /\
    (0 < debt ->
     FinalInvoiceDetail.historyAddPaymentOffered true debt' = true).
Proof.
  intros page'. subst page'. unfold FinalInvoiceDetail.cancel_onClick.
  rewrite (handleUpdateStatus_loaded _ _ _ _ Hid Hinv), cancel_updateData.
  unfold FinalInvoiceDetail.statusUpdateMutation_mutate. rewrite Hinv.
  cbn [FinalInvoiceDetail.payments FinalInvoiceDetail.invoice option_map].
  split; [reflexivity|]. eexists. split; [reflexivity|].
  repeat (split; [reflexivity|]).
  assert (Hs : FinalInvoiceDetail.paymentSummary
                 (FinalInvoiceDetail.updateFinalInvoice
                    {| FinalInvoiceDetail.status := Some "cancelled";
                       FinalInvoiceDetail.payment_date := None;
                       FinalInvoiceDetail.amount_paid := None;
                       FinalInvoiceDetail.client_debt := None;
                       FinalInvoiceDetail.paymentdate := None |} inv)
                 (FinalInvoiceDetail.payments page)
               = FinalInvoiceDetail.paymentSummary inv
                   (FinalInvoiceDetail.payments page)) by reflexivity.
  assert (Hc : FinalInvoiceDetail.displayedStatus
                 (FinalInvoiceDetail.updateFinalInvoice
                    {| FinalInvoiceDetail.status := Some "cancelled";
                       FinalInvoiceDetail.payment_date := None;
                       FinalInvoiceDetail.amount_paid := None;
                       FinalInvoiceDetail.client_debt := None;
                       FinalInvoiceDetail.paymentdate := None |} inv)
                 (FinalInvoiceDetail.payments page) = "cancelled").
  { unfold FinalInvoiceDetail.displayedStatus in *.
    apply computedStatus_unpaid_inv in Hshown. destruct Hshown as [Hge Hgt].
    unfold FinalInvoiceDetail.computedStatus. rewrite Hs.
    cbn [FinalInvoice.total FinalInvoice.status
         FinalInvoiceDetail.updateFinalInvoice FinalInvoiceDetail.status].
    now rewrite Hge, Hgt. }
  cbv zeta. rewrite Hc, Hs.
  split; [reflexivity|]. split; [reflexivity|]. split; [reflexivity|].
  split; [now destruct canEdit|]. split; [now destruct canEdit|].
  split; [reflexivity|]. split; [reflexivity|].
  intros Hpos. unfold FinalInvoiceDetail.historyAddPaymentOffered.
  now apply gt_true.
Qed.

Lemma cancel_of_unpaid_shows_cancelled_witness :
  let inv := sample_invoice "unpaid" 1000 (Some 0) (Some 1000) in
  let page := sample_page inv [] in
  let page' := FinalInvoiceDetail.cancel_onClick page in
  JS.truthy_ostr (FinalInvoiceDetail.id page) = true /\
  FinalInvoiceDetail.displayedStatus inv [] = "unpaid" /\
  exists inv',
    FinalInvoiceDetail.invoice page' = Some inv' /\
    FinalInvoice.status inv' = "cancelled" /\
    FinalInvoiceDetail.historyAddPaymentOffered true
      (FinalInvoiceDetail.clientDebt
         (FinalInvoiceDetail.paymentSummary inv'
            (FinalInvoiceDetail.payments page'))) = true.
Proof.
  split; [reflexivity|]. split; [reflexivity|].
  destruct (cancel_of_unpaid_shows_cancelled
              (sample_page (sample_invoice "unpaid" 1000 (Some 0) (Some 1000)) [])
              _ true eq_refl eq_refl eq_refl)
    as (_ & inv' & Hi & Hs & _ & _ & _ & _ & _ & _ & _ & _ & _ & _ & Hh).
  exists inv'. split; [exact Hi|]. split; [exact Hs|].
  apply Hh. reflexivity.
Defined.

Lemma revert_page_eq (page : FinalInvoiceDetail.Page) (inv : FinalInvoice.t) :
  JS.truthy_ostr (FinalInvoiceDetail.id page) = true ->
  FinalInvoiceDetail.invoice page = Some inv ->
  FinalInvoiceDetail.revert_onClick page
  = {| FinalInvoiceDetail.id := FinalInvoiceDetail.id page;
       FinalInvoiceDetail.invoice :=
         Some (FinalInvoiceDetail.updateFinalInvoice
                 (FinalInvoiceDetail.updateData_of "unpaid"
                    FinalInvoiceDetail.no_additionalData inv
                    (FinalInvoiceDetail.payments page))
                 inv);
       FinalInvoiceDetail.payments := FinalInvoiceDetail.payments page |}.
Proof.
  intros Hid Hinv. unfold FinalInvoiceDetail.revert_onClick.
  rewrite (handleUpdateStatus_loaded _ _ _ _ Hid Hinv).
  unfold FinalInvoiceDetail.statusUpdateMutation_mutate. now rewrite Hinv.
Qed.

(** X12.  Reverting is idempotent and absorbs a cancellation, on every
    page: reverting twice is reverting once, and reverting a cancelled
    invoice gives what reverting it before the cancellation would have
    given. *)
Theorem revert_idempotent_and_absorbs_cancel (page : FinalInvoiceDetail.Page) :
  FinalInvoiceDetail.revert_onClick (FinalInvoiceDetail.revert_onClick page)
  = FinalInvoiceDetail.revert_onClick page /\
  FinalInvoiceDetail.revert_onClick (FinalInvoiceDetail.cancel_onClick page)
  = FinalInvoiceDetail.revert_onClick page.
Proof.
  destruct (FinalInvoiceDetail.invoice page) as [inv|] eqn:Hinv;
    [destruct (JS.truthy_ostr (FinalInvoiceDetail.id page)) eqn:Hid|].
  - split.
    + rewrite (revert_page_eq page inv Hid Hinv).
      rewrite (revert_page_eq
                 {| FinalInvoiceDetail.id := FinalInvoiceDetail.id page;
                    FinalInvoiceDetail.invoice := Some _;
                    FinalInvoiceDetail.payments :=
                      FinalInvoiceDetail.payments page |} _ Hid eq_refl).
      cbn [FinalInvoiceDetail.id FinalInvoiceDetail.payments].
      rewrite !revert_updateData.
      now destruct (JS.gt _ _).
    + unfold FinalInvoiceDetail.cancel_onClick.
      rewrite (handleUpdateStatus_loaded _ _ _ _ Hid Hinv), cancel_updateData.
      unfold FinalInvoiceDetail.statusUpdateMutation_mutate. rewrite Hinv.
      cbn [option_map].
      rewrite (revert_page_eq
                 {| FinalInvoiceDetail.id := FinalInvoiceDetail.id page;
                    FinalInvoiceDetail.invoice := Some _;
                    FinalInvoiceDetail.payments :=
                      FinalInvoiceDetail.payments page |} _ Hid eq_refl).
      rewrite (revert_page_eq page inv Hid Hinv).
      cbn [FinalInvoiceDetail.id FinalInvoiceDetail.payments].
      rewrite !revert_updateData.
      now destruct (JS.gt _ _).
  - unfold FinalInvoiceDetail.revert_onClick, FinalInvoiceDetail.cancel_onClick.
    rewrite !(handleUpdateStatus_not_loaded _ _ page (or_intror Hid)).
    split; reflexivity.
  - unfold FinalInvoiceDetail.revert_onClick, FinalInvoiceDetail.cancel_onClick.
    rewrite !(handleUpdateStatus_not_loaded _ _ page (or_introl Hinv)).
    split; reflexivity.
Qed.

(** X13.  A mark-as-paid leaves no trace in the aggregates once the
    invoice is reverted: after mark-as-paid and revert the row has the
    status, [amount_paid], [client_debt] and total that the revert alone
    would have given, and the payments are untouched.  With no recorded
    payment that is status "unpaid", nothing paid and the whole total
    owed. *)
Theorem revert_undoes_mark_paid (today : string) (page : FinalInvoiceDetail.Page)
    (inv : FinalInvoice.t)
    (Hid : JS.truthy_ostr (FinalInvoiceDetail.id page) = true)
    (Hinv : FinalInvoiceDetail.invoice page = Some inv) :
  let undone := FinalInvoiceDetail.revert_onClick
                  (FinalInvoiceDetail.handleMarkAsPaid today page) in
  let reverted := FinalInvoiceDetail.revert_onClick page in
  FinalInvoiceDetail.payments undone = FinalInvoiceDetail.payments page /\
  exists inv1 inv2,
    FinalInvoiceDetail.invoice undone = Some inv1 /\
    FinalInvoiceDetail.invoice reverted = Some inv2 /\
    FinalInvoice.status inv1 = "unpaid" /\
    FinalInvoice.status inv1 = FinalInvoice.status inv2 /\
    FinalInvoice.total inv1 = FinalInvoice.total inv /\
    FinalInvoice.amount_paid inv1 = FinalInvoice.amount_paid inv2 /\
    FinalInvoice.client_debt inv1 = FinalInvoice.client_debt inv2 /\
    (FinalInvoiceDetail.payments page = [] ->
     FinalInvoice.amount_paid inv1 = Some 0 /\
     FinalInvoice.client_debt inv1 = Some (FinalInvoice.total inv)).
Proof.
  intros undone reverted. subst undone reverted.
  rewrite (handleMarkAsPaid_loaded today page inv Hid Hinv).
  rewrite (revert_page_eq
             {| FinalInvoiceDetail.id := FinalInvoiceDetail.id page;
                FinalInvoiceDetail.invoice := Some _;
                FinalInvoiceDetail.payments := FinalInvoiceDetail.payments page |}
             _ Hid eq_refl).
  rewrite (revert_page_eq page inv Hid Hinv).
  cbn [FinalInvoiceDetail.id FinalInvoiceDetail.payments
       FinalInvoiceDetail.invoice].
  rewrite !revert_updateData.
  split; [reflexivity|]. eexists; eexists.
  split; [reflexivity|]. split; [reflexivity|].
  destruct (JS.gt (FinalInvoiceDetail.totalPaid (FinalInvoiceDetail.payments page)) 0)
    eqn:E; do 5 (split; [reflexivity|]).
  - intros Hnil. rewrite Hnil in E. discriminate E.
  - intros _. split; reflexivity.
Qed.

Lemma revert_undoes_mark_paid_witness :
  let page := sample_page (sample_invoice "unpaid" 1000 (Some 0) (Some 1000)) [] in
  JS.truthy_ostr (FinalInvoiceDetail.id page) = true /\
  FinalInvoiceDetail.payments
    (FinalInvoiceDetail.revert_onClick
       (FinalInvoiceDetail.handleMarkAsPaid "2025-01-03" page)) = [] /\
  option_map FinalInvoice.client_debt
    (FinalInvoiceDetail.invoice
       (FinalInvoiceDetail.revert_onClick
          (FinalInvoiceDetail.handleMarkAsPaid "2025-01-03" page)))
  = Some (Some 1000).
Proof.
  split; [reflexivity|].
  destruct (revert_undoes_mark_paid "2025-01-03"
              (sample_page (sample_invoice "unpaid" 1000 (Some 0) (Some 1000)) [])
              _ eq_refl eq_refl)
    as (Hp & inv1 & inv2 & Hi & _ & _ & _ & _ & _ & _ & Hnil).
  split; [exact Hp|].
  rewrite Hi; simpl. now destruct (Hnil eq_refl) as [_ ->].
Defined.

(** X14.  Without a loaded invoice, or without the route's identifier,
    [handleUpdateStatus] sends nothing, whatever the status and the
    additional data: mark-as-paid, cancel and revert leave the page as it
    is. *)
Theorem no_update_without_invoice_or_id (page : FinalInvoiceDetail.Page)
    (Hmissing : FinalInvoiceDetail.invoice page = None
                \/ JS.truthy_ostr (FinalInvoiceDetail.id page) = false) :
  (forall status0 additionalData,
     FinalInvoiceDetail.handleUpdateStatus status0 additionalData page = page) /\
  (forall today, FinalInvoiceDetail.handleMarkAsPaid today page = page) /\
  FinalInvoiceDetail.cancel_onClick page = page /\
  FinalInvoiceDetail.revert_onClick page = page.
Proof.
  split; [intros; now apply handleUpdateStatus_not_loaded|].
  split.
  - intros today. unfold FinalInvoiceDetail.handleMarkAsPaid.
    destruct Hmissing as [H|H]; [now rewrite H|].
    destruct (FinalInvoiceDetail.invoice page) eqn:E; [|reflexivity].
    apply handleUpdateStatus_not_loaded. now right.
  - split; now apply handleUpdateStatus_not_loaded.
Qed.

Lemma no_update_without_invoice_or_id_witness :
  let page := {| FinalInvoiceDetail.id := None;
                 FinalInvoiceDetail.invoice :=
                   Some (sample_invoice "unpaid" 1000 (Some 0) (Some 1000));
                 FinalInvoiceDetail.payments := [] |} in
  JS.truthy_ostr (FinalInvoiceDetail.id page) = false /\
  FinalInvoiceDetail.handleMarkAsPaid "2025-01-03" page = page.
Proof.
  split; [reflexivity|].
  apply (no_update_without_invoice_or_id
           {| FinalInvoiceDetail.id := None;
              FinalInvoiceDetail.invoice :=
                Some (sample_invoice "unpaid" 1000 (Some 0) (Some 1000));
              FinalInvoiceDetail.payments := [] |}
           (or_intror eq_refl)).
Defined.

(** ** Rounding and the amount of a payment *)

Lemma round2_le (x r : Q) :
  PaymentForm.round2 x <= r
  <-> inject_Z (Qfloor (x * 100 + (1 # 2))) <= r * 100.
Proof.
  unfold PaymentForm.round2, JS.Math_round.
  set (z := inject_Z (Qfloor (x * 100 + (1 # 2)))).
  split; intros H.
  - assert (E : z == z / 100 * 100) by field.
    rewrite E. apply Qmult_le_compat_r; [exact H | discriminate].
  - apply Qle_shift_div_r; [reflexivity | exact H].
Qed.

Lemma round2_floor_mono (x y : Q) :
  x <= y ->
  (Qfloor (x * 100 + (1 # 2)) <= Qfloor (y * 100 + (1 # 2)))%Z.
Proof. intros H. apply Qfloor_resp_le. lra. Qed.

Lemma round2_cents (x : Q) :
  PaymentForm.round2 x = inject_Z (Qfloor (x * 100 + (1 # 2))) / 100.
Proof. reflexivity. Qed.

Lemma round2_of_cents (k : Z) :
  PaymentForm.round2 (inject_Z k / 100) = inject_Z k / 100.
Proof.
  rewrite round2_cents. f_equal. f_equal.
  apply Qfloor_unique.
  - assert (E : inject_Z k / 100 * 100 == inject_Z k) by field. lra.
  - assert (E : inject_Z k / 100 * 100 == inject_Z k) by field.
    rewrite inject_Z_plus. change (inject_Z 1) with 1. lra.
Qed.

Lemma round2_close (x : Q) :
  x - 0.005 < PaymentForm.round2 x /\ PaymentForm.round2 x <= x + 0.005.
Proof.
  rewrite round2_cents.
  pose proof (Qfloor_le (x * 100 + (1 # 2))) as H1.
  pose proof (Qlt_floor (x * 100 + (1 # 2))) as H2.
  rewrite inject_Z_plus in H2. change (inject_Z 1) with 1 in H2.
  set (k := inject_Z (Qfloor (x * 100 + (1 # 2)))) in *.
  split.
  - apply Qlt_shift_div_l; [reflexivity|]. lra.
  - apply Qle_shift_div_r; [reflexivity|]. lra.
Qed.

Lemma round2_mono (x y : Q) :
  x <= y -> PaymentForm.round2 x <= PaymentForm.round2 y.
Proof.
  intros H. rewrite round2_le, round2_cents.
  assert (E : inject_Z (Qfloor (y * 100 + (1 # 2))) / 100 * 100
              == inject_Z (Qfloor (y * 100 + (1 # 2)))) by field.
  rewrite E. rewrite <- Zle_Qle. now apply round2_floor_mono.
Qed.

(** X15.  [Math.round(x * 100) / 100] gives a whole number of cents within
    half a cent of [x] (a tie goes up); it leaves a whole number of cents
    unchanged, so rounding twice is rounding once, and it keeps the order
    of its arguments. *)
Theorem round2_nearest_cent (x y : Q) :
  (exists k : Z, PaymentForm.round2 x = inject_Z k / 100) /\
  x - 0.005 < PaymentForm.round2 x /\
  PaymentForm.round2 x <= x + 0.005 /\
  PaymentForm.round2 (PaymentForm.round2 x) = PaymentForm.round2 x /\
  (x <= y -> PaymentForm.round2 x <= PaymentForm.round2 y).
Proof.
  split; [eexists; apply round2_cents|].
  split; [apply round2_close|].
  split; [apply round2_close|].
  split; [|apply round2_mono].
  rewrite (round2_cents x) at 1 2. apply round2_of_cents.
Qed.

Lemma cents_nonneg (d : Q) : 0 <= d -> (0 <= AmountField.cents d)%Z.
Proof.
  intros H.
  assert (E0 : AmountField.cents 0 = 0%Z) by (vm_compute; reflexivity).
  rewrite <- E0. now apply cents_le.
Qed.

Lemma of_cents_zero : AmountField.of_cents 0 == 0.
Proof. vm_compute. reflexivity. Qed.

(** The clamped amount is at most half a cent above the debt, up to the
    error of the roundings to binary64. *)
Lemma clamp_close (d : Q) :
  0 <= d -> d <= AmountField.max_amount ->
  AmountField.of_cents (AmountField.cents d)
  <= (d + 0.005) * (1 + 4 * Binary64.eps).
Proof.
  intros Hd0 Hd1.
  pose proof (cents_nonneg d Hd0) as Hj.
  pose proof (cents_bounds d) as [C1 _].
  pose proof (rnd_error_abs (d * 100)) as [_ P2].
  unfold AmountField.of_cents.
  pose proof (rnd_error_abs (inject_Z (AmountField.cents d) / 100)) as [_ W2].
  rewrite Zle_Qle in Hj. change (inject_Z 0) with 0 in Hj.
  set (J := inject_Z (AmountField.cents d)) in *.
  assert (A1 : Qabs (d * 100) == d * 100) by (apply Qabs_pos; lra).
  assert (Hz : 0 <= J / 100) by (apply Qle_shift_div_l; [reflexivity | lra]).
  assert (A2 : Qabs (J / 100) == J / 100) by (apply Qabs_pos; exact Hz).
  rewrite A1 in P2. rewrite A2 in W2.
  pose proof pow2_1075_small as Hs. pose proof (pow2_pos (-1075)) as Hs0.
  change Binary64.eps with (1 # 9007199254740992) in *.
  set (s := Binary64.pow2 (-1075)) in *.
  set (P := Binary64.rnd (d * 100)) in *.
  set (W := Binary64.rnd (J / 100)) in *.
  assert (EJ : J == J / 100 * 100) by field.
  set (z := J / 100) in *.
  lra.
Qed.

(** A debt that is the double of a whole number of cents is its own
    rounding. *)
Lemma whole_cents_fixed (d : Q) (c : Z) :
  0 <= d -> d <= AmountField.max_amount ->
  d == Binary64.rnd (inject_Z c / 100) ->
  AmountField.of_cents (AmountField.cents d) == d.
Proof.
  intros Hd0 Hd1 E. fold (AmountField.of_cents c) in E.
  assert (Hc : (-1 < c < 1000000000000000 + 1)%Z).
  { split.
    - destruct (Z_lt_le_dec (-1) c) as [H|H]; [exact H|exfalso].
      apply of_cents_le in H.
      assert (E1 : AmountField.of_cents (-1) < 0) by (vm_compute; reflexivity).
      lra.
    - destruct (Z_lt_le_dec c (1000000000000000 + 1)) as [H|H]; [exact H|exfalso].
      apply of_cents_le in H.
      assert (E1 : AmountField.max_amount
                   < AmountField.of_cents (1000000000000000 + 1))
        by (vm_compute; reflexivity).
      lra. }
  rewrite (cents_comp d _ E), cents_of_cents by lia.
  now symmetry.
Qed.

(** X16.  Against a remaining debt between 0 and ten million millions,
    whatever the entry parses to ([NaN], a number up to ten million
    millions, plus infinity), the recorded amount is the double of a whole
    number of cents and is at most the remaining debt rounded to two
    decimals; that is at most half a cent above the debt, up to a relative
    rounding error of [2^-51], and not above the debt at all when the debt
    is itself the double of a whole number of cents. *)
Theorem recorded_amount_within_debt (remainingDebt : Q)
    (parsed : Binary64.number)
    (Hdebt : 0 <= remainingDebt /\ remainingDebt <= AmountField.max_amount)
    (Hparsed : forall v, parsed = Binary64.Finite v ->
                         Qabs v <= AmountField.max_amount)
    (Hinf : parsed <> Binary64.Infinity true) :
  exists (a : Q) (i j : Z),
    AmountField.recorded
      (AmountField.onChange (Binary64.Finite remainingDebt) parsed)
    = Binary64.Finite a /\
    a == Binary64.rnd (inject_Z i / 100) /\
    AmountField.round2 (Binary64.Finite remainingDebt)
    = Binary64.Finite (Binary64.rnd (inject_Z j / 100)) /\
    a <= Binary64.rnd (inject_Z j / 100) /\
    a <= (remainingDebt + 0.005) * (1 + 4 * Binary64.eps) /\
    (forall c : Z, remainingDebt == Binary64.rnd (inject_Z c / 100) ->
                   a <= remainingDebt).
Proof.
  destruct Hdebt as [Hd0 Hd1].
  assert (Hd : Qabs remainingDebt <= AmountField.max_amount).
  { rewrite Qabs_pos; assumption. }
  pose proof (round2_in_range remainingDebt Hd) as Rd.
  pose proof (clamp_close remainingDebt Hd0 Hd1) as Cl.
  pose proof (cents_nonneg remainingDebt Hd0) as Hj.
  assert (Hm : 0 <= AmountField.of_cents (AmountField.cents remainingDebt)).
  { apply of_cents_le in Hj. pose proof of_cents_zero. lra. }
  set (j := AmountField.cents remainingDebt) in *.
  assert (Hclamp :
    forall a i, a == AmountField.of_cents i -> a <= AmountField.of_cents j ->
    a == Binary64.rnd (inject_Z i / 100) /\
    AmountField.round2 (Binary64.Finite remainingDebt)
    = Binary64.Finite (Binary64.rnd (inject_Z j / 100)) /\
    a <= Binary64.rnd (inject_Z j / 100) /\
    a <= (remainingDebt + 0.005) * (1 + 4 * Binary64.eps) /\
    (forall c : Z, remainingDebt == Binary64.rnd (inject_Z c / 100) ->
                   a <= remainingDebt)).
  { intros a i Ea Hle. split; [exact Ea|]. split; [exact Rd|].
    split; [exact Hle|]. split; [unfold AmountField.of_cents in *; lra|].
    intros c Ec.
    pose proof (whole_cents_fixed remainingDebt c Hd0 Hd1 Ec) as Ef.
    fold j in Ef. lra. }
  destruct parsed as [|[|]|v].
  - exists 0, 0%Z, j. split; [reflexivity|].
    apply Hclamp; [symmetry; apply of_cents_zero | exact Hm].
  - now contradiction Hinf.
  - exists (AmountField.of_cents j), j, j. split.
    + unfold AmountField.onChange. rewrite Rd. reflexivity.
    + apply Hclamp; [reflexivity | apply Qle_refl].
  - specialize (Hparsed v eq_refl).
    rewrite (onChange_in_range _ _ Hd Hparsed).
    destruct (Qle_bool (AmountField.of_cents (AmountField.cents v)) remainingDebt)
      eqn:E; cbn [AmountField.recorded].
    + apply Qle_bool_iff in E.
      exists (AmountField.of_cents (AmountField.cents v)), (AmountField.cents v), j.
      split; [reflexivity|].
      apply Hclamp; [reflexivity|].
      apply of_cents_le.
      pose proof (cents_of_cents _ (cents_small v Hparsed)) as Ec.
      rewrite <- Ec. now apply cents_le.
    + exists (AmountField.of_cents j), j, j. split; [reflexivity|].
      apply Hclamp; [reflexivity | apply Qle_refl].
Qed.

Lemma recorded_amount_within_debt_witness :
  let debt := Binary64.rnd 6.545 in
  (0 <= debt /\ debt <= AmountField.max_amount) /\
  debt < 6.545 /\
  exists a : Q,
    AmountField.recorded
      (AmountField.onChange (Binary64.Finite debt) (Binary64.Finite 20))
    = Binary64.Finite a /\
    a == Binary64.rnd 6.55 /\
    a <= (debt + 0.005) * (1 + 4 * Binary64.eps).
Proof.
  cbv zeta.
  assert (Hd : 0 <= Binary64.rnd 6.545 /\
               Binary64.rnd 6.545 <= AmountField.max_amount)
    by (split; vm_compute; discriminate).
  split; [exact Hd|]. split; [vm_compute; reflexivity|].
  destruct (recorded_amount_within_debt (Binary64.rnd 6.545)
              (Binary64.Finite 20) Hd)
    as (a & i & j & Ha & _ & _ & _ & Hclose & _).
  - intros v E. injection E as <-. discriminate.
  - discriminate.
  - exists a. split; [exact Ha|]. split; [|exact Hclose].
    assert (Hc : AmountField.recorded
                   (AmountField.onChange (Binary64.Finite (Binary64.rnd 6.545))
                      (Binary64.Finite 20))
                 = Binary64.Finite
                     (AmountField.of_cents
                        (AmountField.cents (Binary64.rnd 6.545))))
      by (vm_compute; reflexivity).
    rewrite Hc in Ha. injection Ha as <-. vm_compute. reflexivity.
Defined.

Lemma round2_positive (v : Q) : 0.005 <= v <-> 0 < PaymentForm.round2 v.
Proof.
  assert (E1 : PaymentForm.round2 0.005 == 0.01) by reflexivity.
  assert (E0 : PaymentForm.round2 0 == 0) by reflexivity.
  split; intros H.
  - pose proof (round2_mono 0.005 v H). lra.
  - destruct (Qlt_le_dec v 0.005) as [Hlt|Hge]; [exfalso|exact Hge].
    rewrite round2_cents in H.
    assert (Hk : (Qfloor (v * 100 + (1 # 2)) <= 0)%Z).
    { assert (Hlt1 : inject_Z (Qfloor (v * 100 + (1 # 2))) < inject_Z (0 + 1)).
      { pose proof (Qfloor_le (v * 100 + (1 # 2))).
        change (inject_Z (0 + 1)) with 1. lra. }
      rewrite <- Zlt_Qlt in Hlt1. lia. }
    rewrite Zle_Qle in Hk. change (inject_Z 0) with 0 in Hk.
    assert (Hdiv : inject_Z (Qfloor (v * 100 + (1 # 2))) / 100 <= 0)
      by (apply Qle_shift_div_r; [reflexivity | lra]).
    lra.
Qed.

(** X17.  With at least half a cent of remaining debt, the schema accepts
    the recorded amount exactly when the entry is a number of at least
    half a cent: an empty or unparsable entry is recorded as 0, smaller
    and negative entries are recorded as 0 or less, and all of these are
    refused on submission. *)
Theorem accepted_entries (remainingDebt : Q) (parsed : option Q)
    (Hdebt : 0.005 <= remainingDebt) :
  PaymentForm.amount_accepted
    (PaymentForm.recorded (PaymentForm.amount_onChange remainingDebt parsed))
  = true
  <-> exists v, parsed = Some v /\ 0.005 <= v.
Proof.
  unfold PaymentForm.amount_accepted. rewrite gt_true.
  unfold PaymentForm.amount_onChange.
  destruct parsed as [v|]; cbn [PaymentForm.recorded].
  - destruct (JS.le (PaymentForm.round2 v) remainingDebt) eqn:E;
      cbn [PaymentForm.recorded].
    + rewrite <- round2_positive. split.
      * intros H. now exists v.
      * intros (v' & Hv & H). now injection Hv as ->.
    + apply le_false in E. split.
      * intros _. exists v. split; [reflexivity|].
        apply round2_positive. lra.
      * intros _. now apply round2_positive.
  - split; [intros H; discriminate H|intros (v & H & _); discriminate H].
Qed.

Lemma accepted_entries_witness :
  0.005 <= 600 /\
  PaymentForm.amount_accepted
    (PaymentForm.recorded (PaymentForm.amount_onChange 600 (Some 0.004))) = false /\
  PaymentForm.amount_accepted
    (PaymentForm.recorded (PaymentForm.amount_onChange 600 None)) = false.
Proof.
  assert (H : 0.005 <= 600) by discriminate.
  split; [exact H|]. split.
  - destruct (PaymentForm.amount_accepted
                (PaymentForm.recorded
                   (PaymentForm.amount_onChange 600 (Some 0.004)))) eqn:E;
      [|reflexivity].
    apply (accepted_entries 600 (Some 0.004) H) in E.
    destruct E as (v & Hv & Hge). injection Hv as <-.
    exfalso. now apply Hge.
  - reflexivity.
Defined.


(** ** Invoice numbers *)

Lemma check_from_sound (P : N -> bool) :
  forall n start,
    InvoiceNumbering.check_from P start n = true ->
    forall x, (start <= x < start + N.of_nat n)%N -> P x = true.
Proof.
  induction n as [|n IH]; intros start H x Hx.
  - simpl in Hx. lia.
  - simpl in H. apply andb_true_iff in H. destruct H as [H0 Hrest].
    rewrite Nat2N.inj_succ in Hx.
    destruct (N.eq_dec x start) as [->|Hne]; [exact H0|].
    apply (IH (N.succ start) Hrest). lia.
Qed.

Lemma mint_read_back_checked :
  InvoiceNumbering.check_from
    (fun v =>
       match InvoiceNumbering.read_back (InvoiceNumbering.mint v) with
       | Some v' => N.eqb v' v
       | None => false
       end
       && Nat.eqb (String.length (InvoiceNumbering.mint v)) 6)
    0 (N.to_nat 10000) = true.
Proof. vm_compute. reflexivity. Qed.

Lemma mint_below_10000 (x : N) :
  (x < 10000)%N ->
  String.length (InvoiceNumbering.mint x) = 6%nat /\
  InvoiceNumbering.read_back (InvoiceNumbering.mint x) = Some x.
Proof.
  intros Hx.
  pose proof (check_from_sound _ _ _ mint_read_back_checked x) as H.
  cbv beta in H.
  assert (Hr : (0 <= x < 0 + N.of_nat (N.to_nat 10000))%N)
    by (rewrite N2Nat.id; lia).
  apply H in Hr. apply andb_true_iff in Hr. destruct Hr as [H1 H2].
  split; [now apply Nat.eqb_eq|].
  destruct (InvoiceNumbering.read_back (InvoiceNumbering.mint x)) as [x'|];
    [|discriminate].
  apply N.eqb_eq in H1. now subst.
Qed.

(** X19.  For a sequence value below 10000 the minted number is ["F-"]
    followed by exactly four digits that read back as the value, so two
    different values below 10000 never get the same number. *)
Theorem mint_below_10000_injective (v w : N)
    (Hv : (v < 10000)%N) (Hw : (w < 10000)%N) :
  String.length (InvoiceNumbering.mint v) = 6%nat /\
  InvoiceNumbering.read_back (InvoiceNumbering.mint v) = Some v /\
  (InvoiceNumbering.mint v = InvoiceNumbering.mint w -> v = w).
Proof.
  assert (Hall : forall x, (x < 10000)%N ->
            String.length (InvoiceNumbering.mint x) = 6%nat /\
            InvoiceNumbering.read_back (InvoiceNumbering.mint x) = Some x).
  { intros x Hx.
    pose proof (check_from_sound _ _ _ mint_read_back_checked x) as H.
    cbv beta in H.
    assert (Hr : (0 <= x < 0 + N.of_nat (N.to_nat 10000))%N)
      by (rewrite N2Nat.id; lia).
    apply H in Hr. apply andb_true_iff in Hr. destruct Hr as [H1 H2].
    split; [now apply Nat.eqb_eq|].
    destruct (InvoiceNumbering.read_back (InvoiceNumbering.mint x)) as [x'|];
      [|discriminate].
    apply N.eqb_eq in H1. now subst. }
  destruct (Hall v Hv) as [Hl Hr]. split; [exact Hl|]. split; [exact Hr|].
  intros E. rewrite E in Hr. destruct (Hall w Hw) as [_ Hr'].
  congruence.
Qed.

Lemma mint_below_10000_injective_witness :
  (42 < 10000)%N /\ (7 < 10000)%N /\
  InvoiceNumbering.mint 42 = "F-0042" /\
  InvoiceNumbering.read_back (InvoiceNumbering.mint 42) = Some 42%N.
Proof.
  assert (H1 : (42 < 10000)%N) by reflexivity.
  assert (H2 : (7 < 10000)%N) by reflexivity.
  split; [exact H1|]. split; [exact H2|]. split; [reflexivity|].
  apply (mint_below_10000_injective 42 7 H1 H2).
Defined.

Lemma mint_truncation_checked :
  InvoiceNumbering.check_from
    (fun v => String.eqb (InvoiceNumbering.mint v) (InvoiceNumbering.mint (v / 10)))
    10000 (N.to_nat 90000) = true.
Proof. vm_compute. reflexivity. Qed.

(** X20.  From 10000 on the number loses digits: [LPAD] cuts the text of a
    five-digit sequence value to its first four digits, so the value gets
    the number of its tenth, a number that was already minted. *)
Theorem mint_five_digits_collides (v : N)
    (Hv : (10000 <= v < 100000)%N) :
  InvoiceNumbering.mint v = InvoiceNumbering.mint (v / 10) /\
  (v / 10 < v)%N /\
  String.length (InvoiceNumbering.mint v) = 6%nat.
Proof.
  pose proof (check_from_sound _ _ _ mint_truncation_checked v) as H.
  cbv beta in H.
  assert (Hr : (10000 <= v < 10000 + N.of_nat (N.to_nat 90000))%N)
    by (rewrite N2Nat.id; lia).
  apply H in Hr. apply String.eqb_eq in Hr.
  assert (Hlt : (v / 10 < v)%N) by (apply N.div_lt; lia).
  split; [exact Hr|]. split; [exact Hlt|].
  rewrite Hr.
  apply mint_below_10000.
  apply N.Div0.div_lt_upper_bound. lia.
Qed.

Lemma mint_five_digits_collides_witness :
  (10000 <= 10000 < 100000)%N /\
  InvoiceNumbering.mint 10000 = InvoiceNumbering.mint 1000 /\
  InvoiceNumbering.mint 1000 = "F-1000".
Proof.
  assert (H : (10000 <= 10000 < 100000)%N) by (split; [discriminate|reflexivity]).
  split; [exact H|]. split; [|reflexivity].
  apply (mint_five_digits_collides 10000 H).
Defined.

Lemma oldest_some (rows : list InvoiceNumbering.DeletedNumber) :
  rows <> [] -> exists r, InvoiceNumbering.oldest rows = Some r.
Proof.
  destruct rows as [|r rest]; [congruence|]. intros _. simpl.
  destruct (InvoiceNumbering.oldest rest) as [r'|]; [|now exists r].
  destruct (Z.ltb _ _); eexists; reflexivity.
Qed.

Lemma oldest_least (rows : list InvoiceNumbering.DeletedNumber) :
  forall r, InvoiceNumbering.oldest rows = Some r ->
    In r rows /\
    forall r', In r' rows ->
      (InvoiceNumbering.deleted_at r <= InvoiceNumbering.deleted_at r')%Z.
Proof.
  induction rows as [|x rest IH]; simpl; intros r H; [discriminate|].
  destruct (InvoiceNumbering.oldest rest) as [m|] eqn:Hm.
  - destruct (IH m eq_refl) as [Hin Hmin].
    destruct (Z.ltb_spec (InvoiceNumbering.deleted_at m)
                (InvoiceNumbering.deleted_at x)) as [Hlt|Hge];
      injection H as <-.
    + split; [now right|]. intros r' [<-|Hr']; [lia|now apply Hmin].
    + split; [now left|]. intros r' [<-|Hr']; [lia|].
      specialize (Hmin r' Hr'). lia.
  - injection H as <-. split; [now left|].
    intros r' [<-|Hr']; [lia|].
    destruct rest; [contradiction|]. simpl in Hm.
    destruct (InvoiceNumbering.oldest rest); [destruct (Z.ltb _ _)|]; discriminate.
Qed.

Lemma delete_number_absent (n : string)
    (rows : list InvoiceNumbering.DeletedNumber) :
  ~ In n (map InvoiceNumbering.number (InvoiceNumbering.delete_number n rows)).
Proof.
  unfold InvoiceNumbering.delete_number. rewrite in_map_iff.
  intros (r & Hr & Hin). apply filter_In in Hin. destruct Hin as [_ Hf].
  apply negb_true_iff in Hf. apply String.eqb_neq in Hf. congruence.
Qed.

Lemma delete_number_others (n s : string)
    (rows : list InvoiceNumbering.DeletedNumber) :
  s <> n ->
  (In s (map InvoiceNumbering.number (InvoiceNumbering.delete_number n rows))
   <-> In s (map InvoiceNumbering.number rows)).
Proof.
  intros Hne. unfold InvoiceNumbering.delete_number. rewrite !in_map_iff.
  split; intros (r & Hr & Hin); exists r; (split; [exact Hr|]).
  - apply filter_In in Hin. tauto.
  - apply filter_In. split; [exact Hin|].
    apply negb_true_iff, String.eqb_neq. congruence.
Qed.

Lemma delete_number_length (r : InvoiceNumbering.DeletedNumber)
    (rows : list InvoiceNumbering.DeletedNumber) :
  NoDup (map InvoiceNumbering.number rows) -> In r rows ->
  S (List.length (InvoiceNumbering.delete_number (InvoiceNumbering.number r) rows))
  = List.length rows.
Proof.
  induction rows as [|x rest IH]; simpl; intros Hnd Hin; [contradiction|].
  inversion Hnd as [|? ? Hx Hrest]; subst.
  destruct Hin as [->|Hin].
  - rewrite String.eqb_refl; simpl. f_equal.
    unfold InvoiceNumbering.delete_number.
    assert (E : filter
                  (fun r0 => negb (String.eqb (InvoiceNumbering.number r0)
                                     (InvoiceNumbering.number r))) rest = rest).
    { apply forallb_filter_id. apply forallb_forall. intros y Hy.
      apply negb_true_iff, String.eqb_neq. intros E. apply Hx.
      rewrite <- E. now apply in_map. }
    exact (f_equal (@List.length _) E).
  - destruct (String.eqb_spec (InvoiceNumbering.number x)
                (InvoiceNumbering.number r)) as [E|E]; simpl.
    + exfalso. apply Hx. rewrite E. now apply in_map.
    + f_equal. now apply IH.
Qed.

(** X21.  [generate_invoice_number] recycles before it mints.  While the
    table of deleted numbers has a row, the call returns the number of a
    row with the least [deleted_at], removes that number from the table and
    leaves the sequence alone; the numbers being unique, the table loses
    exactly that row and keeps every other number.  Only on an empty table
    does it mint ["F-"] and the padded next value of the sequence, which it
    consumes. *)
Theorem generate_recycles_oldest_first (seq_value : nat -> N)
    (db : InvoiceNumbering.Db) :
  let result := InvoiceNumbering.generate_invoice_number seq_value db in
  (InvoiceNumbering.deleted_invoice_numbers db = [] ->
   fst result = InvoiceNumbering.mint (seq_value (InvoiceNumbering.seq_calls db)) /\
   InvoiceNumbering.deleted_invoice_numbers (snd result) = [] /\
   InvoiceNumbering.seq_calls (snd result) = S (InvoiceNumbering.seq_calls db)) /\
  (InvoiceNumbering.deleted_invoice_numbers db <> [] ->
   exists r,
     In r (InvoiceNumbering.deleted_invoice_numbers db) /\
     (forall r', In r' (InvoiceNumbering.deleted_invoice_numbers db) ->
        (InvoiceNumbering.deleted_at r <= InvoiceNumbering.deleted_at r')%Z) /\
     fst result = InvoiceNumbering.number r /\
     InvoiceNumbering.seq_calls (snd result) = InvoiceNumbering.seq_calls db /\
     ~ In (InvoiceNumbering.number r) (InvoiceNumbering.numbers (snd result)) /\
     (forall s, s <> InvoiceNumbering.number r ->
        (In s (InvoiceNumbering.numbers (snd result))
         <-> In s (InvoiceNumbering.numbers db))) /\
     (NoDup (InvoiceNumbering.numbers db) ->
      S (List.length (InvoiceNumbering.deleted_invoice_numbers (snd result)))
      = List.length (InvoiceNumbering.deleted_invoice_numbers db))).
Proof.
  intros result. subst result.
  unfold InvoiceNumbering.generate_invoice_number, InvoiceNumbering.numbers.
  split.
  - intros Hnil. rewrite Hnil. simpl. auto.
  - intros Hne. destruct (oldest_some _ Hne) as [r Hr]. rewrite Hr.
    destruct (oldest_least _ r Hr) as [Hin Hmin].
    exists r. cbn [fst snd InvoiceNumbering.deleted_invoice_numbers
                   InvoiceNumbering.seq_calls].
    split; [exact Hin|]. split; [exact Hmin|].
    split; [reflexivity|]. split; [reflexivity|].
    split; [apply delete_number_absent|].
    split; [intros s Hs; now apply delete_number_others|].
    intros Hnd. now apply delete_number_length.
Qed.

Lemma string_length_append (s t : string) :
  String.length (s ++ t)%string = (String.length s + String.length t)%nat.
Proof.
  induction s as [|c s IH]; simpl; [reflexivity|]. now rewrite IH.
Qed.

Lemma existsb_number (n : string) (rows : list InvoiceNumbering.DeletedNumber) :
  existsb (fun r => String.eqb (InvoiceNumbering.number r) n) rows = true
  <-> In n (map InvoiceNumbering.number rows).
Proof.
  rewrite existsb_exists, in_map_iff.
  split; intros (r & H1 & H2); exists r.
  - apply String.eqb_eq in H2. now split.
  - split; [exact H2|]. now apply String.eqb_eq.
Qed.

Lemma track_then_generate (now : Z) (n : string) (db : InvoiceNumbering.Db) :
  InvoiceNumbering.deleted_invoice_numbers db = [] ->
  exists db',
    InvoiceNumbering.track_deleted_invoice_number now n db = Some db' /\
    forall seq_value,
      InvoiceNumbering.generate_invoice_number seq_value db' = (n, db).
Proof.
  unfold InvoiceNumbering.track_deleted_invoice_number.
  intros Hnil. destruct db as [rows calls]. simpl in *. subst rows. simpl.
  eexists. split; [reflexivity|]. intros seq_value.
  unfold InvoiceNumbering.generate_invoice_number,
    InvoiceNumbering.delete_number; simpl.
  now rewrite String.eqb_refl.
Qed.

(** X22.  The deletion trigger keeps the tracked numbers unique: it
    refuses a number that is already in the table, and otherwise appends
    it and leaves the sequence alone.  On an empty table the next
    generation undoes it: the deleted number is handed out again and the
    database is as it was before the deletion. *)
Theorem track_deleted_number_unique_and_recycled (now : Z) (n : string)
    (db : InvoiceNumbering.Db) :
  (In n (InvoiceNumbering.numbers db) ->
   InvoiceNumbering.track_deleted_invoice_number now n db = None) /\
  (~ In n (InvoiceNumbering.numbers db) ->
   exists db',
     InvoiceNumbering.track_deleted_invoice_number now n db = Some db' /\
     InvoiceNumbering.numbers db' = (InvoiceNumbering.numbers db ++ [n])%list /\
     InvoiceNumbering.seq_calls db' = InvoiceNumbering.seq_calls db /\
     (NoDup (InvoiceNumbering.numbers db) ->
      NoDup (InvoiceNumbering.numbers db'))) /\
  (InvoiceNumbering.deleted_invoice_numbers db = [] ->
   exists db',
     InvoiceNumbering.track_deleted_invoice_number now n db = Some db' /\
     forall seq_value,
       InvoiceNumbering.generate_invoice_number seq_value db' = (n, db)).
Proof.
  unfold InvoiceNumbering.track_deleted_invoice_number, InvoiceNumbering.numbers.
  split; [|split].
  - intros Hin. apply existsb_number in Hin. now rewrite Hin.
  - intros Hnin.
    destruct (existsb _ _) eqn:E; [apply existsb_number in E; contradiction|].
    eexists. split; [reflexivity|]. simpl.
    split; [apply map_app|]. split; [reflexivity|].
    intros Hnd. rewrite map_app. simpl.
    apply NoDup_app; [exact Hnd | constructor; [intros []|constructor] |].
    intros x Hx [<-|[]]. contradiction.
  - intros Hnil. destruct db as [rows calls]. simpl in *. subst rows. simpl.
    eexists. split; [reflexivity|]. intros seq_value.
    unfold InvoiceNumbering.generate_invoice_number,
      InvoiceNumbering.delete_number; simpl.
    now rewrite String.eqb_refl.
Qed.

(** X23.  The creation page never stores the generated number as it is:
    it puts a space before it and [" (facture D'avoir)"] after it.  So
    when the number of a deleted invoice is tracked and handed out again,
    the next invoice gets that number wrapped once more, 19 characters
    longer and never the number of the deleted invoice. *)
Theorem recycled_number_is_wrapped_again (now : Z) (n : string)
    (db db' : InvoiceNumbering.Db) (seq_value : nat -> N)
    (env : NewFinalInvoice.Env)
    (Hempty : InvoiceNumbering.deleted_invoice_numbers db = [])
    (Htrack : InvoiceNumbering.track_deleted_invoice_number now n db = Some db')
    (Hrpc : NewFinalInvoice.generate_invoice_number env
            = Some (fst (InvoiceNumbering.generate_invoice_number seq_value db'))) :
  NewFinalInvoice.invoiceNumber env = (" " ++ n ++ " (facture D'avoir)")%string /\
  String.length (NewFinalInvoice.invoiceNumber env) = (String.length n + 19)%nat /\
  NewFinalInvoice.invoiceNumber env <> n.
Proof.
  destruct (track_then_generate now n db Hempty) as (db'' & Htrack' & Hgen).
  rewrite Htrack in Htrack'. injection Htrack' as <-.
  rewrite (Hgen seq_value) in Hrpc. simpl in Hrpc.
  assert (E : NewFinalInvoice.invoiceNumber env
              = (" " ++ n ++ " (facture D'avoir)")%string)
    by (unfold NewFinalInvoice.invoiceNumber; now rewrite Hrpc).
  assert (Hlen : String.length (NewFinalInvoice.invoiceNumber env)
                 = (String.length n + 19)%nat).
  { rewrite E. simpl. rewrite string_length_append. simpl. lia. }
  split; [exact E|]. split; [exact Hlen|].
  intros Heq. rewrite Heq in Hlen. lia.
Qed.

Lemma recycled_number_is_wrapped_again_witness :
  let db := {| InvoiceNumbering.deleted_invoice_numbers := [];
               InvoiceNumbering.seq_calls := 1 |} in
  let stored := FinalInvoice.number
                  (NewFinalInvoice.invoiceData sample_env [] (sample_form "cash")) in
  stored = " F-0001 (facture D'avoir)" /\
  InvoiceNumbering.deleted_invoice_numbers db = [] /\
  forall env,
    NewFinalInvoice.generate_invoice_number env = Some stored ->
    NewFinalInvoice.invoiceNumber env
    = "  F-0001 (facture D'avoir) (facture D'avoir)".
Proof.
  intros db stored. split; [reflexivity|]. split; [reflexivity|].
  intros env Hrpc.
  apply (recycled_number_is_wrapped_again 0 stored db
           {| InvoiceNumbering.deleted_invoice_numbers :=
                [ {| InvoiceNumbering.number := stored;
                     InvoiceNumbering.deleted_at := 0 |} ];
              InvoiceNumbering.seq_calls := 1 |}
           (fun _ => 2%N) env eq_refl eq_refl Hrpc).
Defined.

(** ** Status actions of the proforma page *)

Lemma status_step_cases (canApprove : bool) (s s' : string) :
  ProformaDetail.status_step canApprove s s' <->
  (s = "draft" /\ s' = "sent") \/
  (canApprove = true /\
   ((s = "sent" /\ s' = "approved") \/
    (s = "sent" /\ s' = "rejected") \/
    (s = "approved" /\ s' = "sent"))).
Proof.
  split.
  - intros H. destruct H as [a s Hoff].
    destruct a; simpl in Hoff |- *;
      rewrite ?andb_true_iff, ?String.eqb_eq in Hoff; tauto.
  - intros [[-> ->]|[-> [[-> ->]|[[-> ->]|[-> ->]]]]].
    + exact (ProformaDetail.status_step_click canApprove
               ProformaDetail.Send "draft" eq_refl).
    + exact (ProformaDetail.status_step_click true
               ProformaDetail.Approve "sent" eq_refl).
    + exact (ProformaDetail.status_step_click true
               ProformaDetail.Reject "sent" eq_refl).
    + exact (ProformaDetail.status_step_click true
               ProformaDetail.Unapprove "approved" eq_refl).
Qed.

(** X24.  The status buttons of the proforma page allow exactly four
    moves: draft to sent for everyone and, for a user who may approve, sent
    to approved, sent to rejected and approved back to sent.  So a
    rejected proforma has no status action left, and no action leads back
    to draft. *)
Theorem proforma_status_moves (canApprove : bool) (s s' : string) :
  (ProformaDetail.status_step canApprove s s' <->
   (s = "draft" /\ s' = "sent") \/
   (canApprove = true /\
    ((s = "sent" /\ s' = "approved") \/
     (s = "sent" /\ s' = "rejected") \/
     (s = "approved" /\ s' = "sent")))) /\
  (forall a, ProformaDetail.statusActionOffered canApprove a "rejected" = false) /\
  (forall a, ProformaDetail.target a <> "draft").
Proof.
  split; [apply status_step_cases|].
  split; intros a; destruct a; simpl; try reflexivity; discriminate.
Qed.

Lemma status_steps_not_draft (canApprove : bool) (s s' : string) :
  ProformaDetail.status_steps canApprove s s' -> s <> "draft" -> s' <> "draft".
Proof.
  induction 1 as [s|s1 s2 s3 _ IH Hstep]; intros Hs; [exact Hs|].
  destruct Hstep as [a s2 _]. destruct a; discriminate.
Qed.

Lemma status_steps_from_draft (canApprove : bool) (s s' : string) :
  ProformaDetail.status_steps canApprove s s' ->
  In s ["draft"; "sent"; "approved"; "rejected"] ->
  In s' ["draft"; "sent"; "approved"; "rejected"].
Proof.
  induction 1 as [s|s1 s2 s3 _ IH Hstep]; intros Hs; [exact Hs|].
  destruct Hstep as [a s2 _]. destruct a; simpl; tauto.
Qed.

Lemma status_steps_rejected (canApprove : bool) (s s' : string) :
  ProformaDetail.status_steps canApprove s s' -> s = "rejected" -> s' = "rejected".
Proof.
  induction 1 as [s|s1 s2 s3 _ IH Hstep]; intros Hs; [exact Hs|].
  specialize (IH Hs). subst s2.
  apply status_step_cases in Hstep.
  destruct Hstep as [[H _]|[_ [[H _]|[[H _]|[H _]]]]]; discriminate H.
Qed.

(** X25.  Through any number of clicks on the status buttons, a proforma
    that has left the draft status never returns to it, so the delete
    button, which is rendered for drafts only, never comes back; once
    rejected it stays rejected; and a proforma that starts in one of the
    four statuses stays within them. *)
Theorem proforma_status_reachability (canApprove canEdit : bool)
    (p p' : ProformaInvoice.t)
    (Hsteps : ProformaDetail.status_steps canApprove
                (ProformaInvoice.status p) (ProformaInvoice.status p')) :
  (ProformaInvoice.status p <> "draft" ->
   ProformaInvoice.status p' <> "draft" /\
   ProformaDetail.deleteOffered canEdit p' = false) /\
  (ProformaInvoice.status p = "rejected" ->
   ProformaInvoice.status p' = "rejected") /\
  (In (ProformaInvoice.status p) ["draft"; "sent"; "approved"; "rejected"] ->
   In (ProformaInvoice.status p') ["draft"; "sent"; "approved"; "rejected"]).
Proof.
  split; [|split].
  - intros Hs.
    pose proof (status_steps_not_draft _ _ _ Hsteps Hs) as Hs'.
    split; [exact Hs'|]. unfold ProformaDetail.deleteOffered.
    apply String.eqb_neq in Hs'. rewrite Hs'. apply andb_false_r.
  - exact (status_steps_rejected canApprove _ _ Hsteps).
  - exact (status_steps_from_draft canApprove _ _ Hsteps).
Qed.

Lemma proforma_status_reachability_witness :
  ProformaDetail.status_steps true
    (ProformaInvoice.status (sample_proforma "sent" None))
    (ProformaInvoice.status (sample_proforma "approved" None)) /\
  ProformaDetail.deleteOffered true (sample_proforma "approved" None) = false.
Proof.
  assert (H : ProformaDetail.status_steps true
                (ProformaInvoice.status (sample_proforma "sent" None))
                (ProformaInvoice.status (sample_proforma "approved" None))).
  { apply (ProformaDetail.status_steps_next true "sent" "sent" "approved").
    - apply ProformaDetail.status_steps_refl.
    - exact (ProformaDetail.status_step_click true
               ProformaDetail.Approve "sent" eq_refl). }
  split; [exact H|].
  destruct (proforma_status_reachability true true _ _ H) as (Hd & _).
  apply Hd. discriminate.
Defined.

(** X26.  On the proforma page the convert button and the undo-conversion
    button are never rendered together, and the edit link never appears
    beside the convert button.  The approval of a converted proforma can
    still be withdrawn, and the proforma it leaves, sent and linked to its
    final invoice, is offered for editing and for undoing the conversion
    but not for converting. *)
Theorem proforma_actions_exclusive (canEdit canApprove canConvert : bool)
    (p : ProformaInvoice.t) :
  (ProformaDetail.convertOffered canConvert p = true ->
   ProformaDetail.undoConversionOffered canConvert p = false /\
   ProformaDetail.editOffered canEdit p = false /\
   ProformaDetail.deleteOffered canEdit p = false) /\
  (JS.truthy_ostr (ProformaInvoice.finalInvoiceId p) = true ->
   ProformaInvoice.status p = "approved" ->
   ProformaDetail.statusActionOffered canApprove ProformaDetail.Unapprove
     (ProformaInvoice.status p) = canApprove /\
   ProformaDetail.convertOffered canConvert p = false) /\
  (JS.truthy_ostr (ProformaInvoice.finalInvoiceId p) = true ->
   ProformaInvoice.status p = ProformaDetail.target ProformaDetail.Unapprove ->
   ProformaDetail.convertOffered canConvert p = false /\
   ProformaDetail.editOffered canEdit p = canEdit /\
   ProformaDetail.undoConversionOffered canConvert p = canConvert).
Proof.
  unfold ProformaDetail.convertOffered, ProformaDetail.undoConversionOffered,
    ProformaDetail.editOffered, ProformaDetail.deleteOffered.
  split; [|split].
  - rewrite !andb_true_iff, negb_true_iff, String.eqb_eq.
    intros [[Hs Hf] _]. rewrite Hs, Hf. simpl.
    rewrite !andb_false_r. auto.
  - intros Hf Hs. rewrite Hf, Hs. simpl. auto.
  - intros Hf Hs. rewrite Hf, Hs. simpl.
    rewrite andb_true_r. auto.
Qed.

(** ** The debt report *)



